(** * Batch AI Operations: a shallow embedding of the batch engine

    The development follows the TypeScript sources of the extension:
    - [batchProcessor.ts]  (class [BatchProcessor]: [process], [createBatches],
      [processItem], [getFileContent], [buildPrompt], [saveResult], [cancel]);
    - [llmProvider.ts]     (class [LLMProvider]: [selectModel], [sendRequest]);
    - [promptManager.ts]   ([getPrompt]), [taskManager.ts] ([getTasks]);
    - [mcpServer.ts]       ([handleBatchProcessFiles]).

    JavaScript arrays are lists, [number]s that index or count are [Z],
    strings are [string]s, an [async] function is a function into a
    completion ([Returned], [Threw], or [Pending] when its promise never
    settles), and everything the environment decides (the file system, the
    model backends, the editor dialogs, the calls other components make
    while a run is suspended at an [await]) is read from a [World] record. *)

From Stdlib Require Import ZArith Ascii Lia Bool.
From Stdlib Require QArith.
From stdpp Require Import base list strings pretty.

Open Scope Z_scope.

(** * Part I: the model *)

(** ** Arrays *)

Module JsArray.

(** [Array.prototype.slice(start, end)]: relative indices are normalised
    against the length, an empty range gives the empty array. *)
Definition slice {T} (items : list T) (start fin : Z) : list T :=
  let len := Z.of_nat (length items) in
  let k := if start <? 0 then Z.max (len + start) 0 else Z.min start len in
  let final := if fin <? 0 then Z.max (len + fin) 0 else Z.min fin len in
  take (Z.to_nat (final - k)) (drop (Z.to_nat k) items).

End JsArray.

(** ** Strings *)

Module JsString.

Definition nl : string := String (ascii_of_nat 10) EmptyString.

(** [Array.prototype.join(sep)] on an array of strings. *)
Fixpoint join (sep : string) (parts : list string) : string :=
  match parts with
  | [] => ""
  | [p] => p
  | p :: rest => p +:+ sep +:+ join sep rest
  end.

Fixpoint drop_chars (n : nat) (s : string) : string :=
  match n, s with
  | S k, String _ tl => drop_chars k tl
  | _, _ => s
  end.

(** [GetSubstitution] of ECMAScript for a pattern without capture groups:
    in the replacement text, [$$] stands for a dollar sign, [$&] for the
    matched text, [$`] for the text before the match and [$'] for the text
    after it; every other character, a lone [$] included, stands for itself. *)
Fixpoint getSubstitution (matched before after replacement : string) : string :=
  match replacement with
  | EmptyString => ""
  | String c tl =>
      if decide (c = "$"%char) then
        match tl with
        | EmptyString => "$"
        | String d rest =>
            if decide (d = "$"%char) then
              "$" +:+ getSubstitution matched before after rest
            else if decide (d = "&"%char) then
              matched +:+ getSubstitution matched before after rest
            else if decide (d = "`"%char) then
              before +:+ getSubstitution matched before after rest
            else if decide (d = "'"%char) then
              after +:+ getSubstitution matched before after rest
            else String c (getSubstitution matched before after tl)
        end
      else String c (getSubstitution matched before after tl)
  end.

(** [subject.replace(/pat/g, replacement)] for a regular expression that is
    one literal, non-empty text [pat]: matches are found left to right and do
    not overlap.  [skip] counts the characters of a match still to be passed
    over, [before] is the part of the subject already scanned. *)
Fixpoint replace_scan (pat replacement : string) (skip : nat) (before s : string) : string :=
  match s with
  | EmptyString => ""
  | String c tl =>
      match skip with
      | S k => replace_scan pat replacement k (before +:+ String c "") tl
      | O =>
          if String.prefix pat s then
            getSubstitution pat before (drop_chars (String.length pat) s) replacement
            +:+ replace_scan pat replacement (String.length pat - 1)
                  (before +:+ String c "") tl
          else
            String c (replace_scan pat replacement O (before +:+ String c "") tl)
      end
  end.

Definition replace_all (pat replacement subject : string) : string :=
  replace_scan pat replacement O "" subject.

End JsString.

(** ** Paths ([path.basename], [path.join] of Node, POSIX flavour) *)

Module JsPath.

Definition is_slash (c : ascii) : bool := bool_decide (c = "/"%char).

Fixpoint drop_while {A} (p : A -> bool) (l : list A) : list A :=
  match l with
  | x :: tl => if p x then drop_while p tl else l
  | [] => []
  end.

Fixpoint take_while {A} (p : A -> bool) (l : list A) : list A :=
  match l with
  | x :: tl => if p x then x :: take_while p tl else []
  | [] => []
  end.

(** [basename]: trailing separators are passed over, then everything back to
    the previous separator is the result (the empty text when the path has
    no other character). *)
Definition basename (p : string) : string :=
  let backwards := drop_while is_slash (rev (String.list_ascii_of_string p)) in
  String.string_of_list_ascii (rev (take_while (fun c => negb (is_slash c)) backwards)).

(** [join]: the segments separated by [/] (no segment of the sink's paths
    needs normalising). *)
Definition join (segments : list string) : string := JsString.join "/" segments.

End JsPath.

(** ** Thrown values and completions *)

(** What a [throw] carries: an [Error] object (with its [name] and
    [message]) or any other value (with the text [String(value)] gives). *)
Inductive JsThrown :=
| ErrorObj (name message : string)
| NonError (shown : string).

Definition new_Error (message : string) : JsThrown := ErrorObj "Error" message.
Definition new_TypeError (message : string) : JsThrown := ErrorObj "TypeError" message.

(** [`${e}`]: [Error.prototype.toString] for error objects. *)
Definition thrown_toString (e : JsThrown) : string :=
  match e with
  | ErrorObj name message =>
      if decide (message = "") then name
      else if decide (name = "") then message
      else name +:+ ": " +:+ message
  | NonError shown => shown
  end.

(** [error instanceof Error ? error.message : fallback]. *)
Definition message_or (fallback : string) (e : JsThrown) : string :=
  match e with ErrorObj _ message => message | NonError _ => fallback end.

(** The result of a call that completes: a value or a thrown value. *)
Inductive Exn (A : Type) :=
| Ok (a : A)
| Throw (e : JsThrown).
Arguments Ok {A} a.
Arguments Throw {A} e.

(** The result of awaiting a promise: it may also never settle. *)
Inductive Completion (A : Type) :=
| Returned (a : A)
| Threw (e : JsThrown)
| Pending.
Arguments Returned {A} a.
Arguments Threw {A} e.
Arguments Pending {A}.

(** One entry of [Promise.allSettled]'s result. *)
Inductive Settled (A : Type) :=
| Fulfilled (value : A)
| Rejected (reason : JsThrown).
Arguments Fulfilled {A} value.
Arguments Rejected {A} reason.

Definition settle {A} (r : Exn A) : Settled A :=
  match r with Ok a => Fulfilled a | Throw e => Rejected e end.

(** [a || d] on a possibly absent string: absent and empty are both falsy. *)
Definition str_or (a : option string) (d : string) : string :=
  match a with
  | Some s => if decide (s = "") then d else s
  | None => d
  end.

(** [`${a}`] of a possibly absent string. *)
Definition str_interp (a : option string) : string :=
  match a with Some s => s | None => "undefined" end.

(** [a || b] on two possibly absent strings. *)
Definition opt_or (a b : option string) : option string :=
  match a with
  | Some s => if decide (s = "") then b else a
  | None => b
  end.

(** [a || d] on a possibly absent number: absent and [0] are both falsy. *)
Definition num_or (a : option Z) (d : Z) : Z :=
  match a with
  | Some n => if decide (n = 0) then d else n
  | None => d
  end.

(** ** Data model *)

(** [vscode.Uri], as far as the engine reads it. *)
Record Uri := { fsPath : string }.

(** [type: 'task' | 'prompt']. *)
Inductive OpKind := KTask | KPrompt.

Definition OpKind_text (k : OpKind) : string :=
  match k with KTask => "task" | KPrompt => "prompt" end.

(** [interface Task] of taskManager.ts (its untyped [arguments] field is
    read nowhere and is left out). *)
Module Task.
Record t := mk { label : option string; command : string; aiPrompt : option string }.
End Task.

(** [interface Prompt] of promptManager.ts (the parsed [metadata] block is
    read nowhere in the engine and is left out). *)
Module Prompt.
Record t := mk { name : string; content : string;
                 description : option string; filePath : string }.
End Prompt.

(** [item: Task | Prompt]: the union is untagged in the source and read
    through a cast chosen by [type], so a field of the other variant reads
    as [undefined]. *)
Inductive Item :=
| ItemTask (t : Task.t)
| ItemPrompt (p : Prompt.t).

Definition item_label (i : Item) : option string :=
  match i with ItemTask t => Task.label t | ItemPrompt _ => None end.
Definition item_command (i : Item) : option string :=
  match i with ItemTask t => Some (Task.command t) | ItemPrompt _ => None end.
Definition item_aiPrompt (i : Item) : option string :=
  match i with ItemTask t => Task.aiPrompt t | ItemPrompt _ => None end.
Definition item_name (i : Item) : option string :=
  match i with ItemTask _ => None | ItemPrompt p => Some (Prompt.name p) end.
Definition item_content (i : Item) : option string :=
  match i with ItemTask _ => None | ItemPrompt p => Some (Prompt.content p) end.

Module LLMRequest.
Record t := mk { prompt : string; model : option string;
                 temperature : option QArith_base.Q; maxTokens : option Z }.
End LLMRequest.

Module Usage.
Record t := mk { promptTokens : option Z; completionTokens : option Z;
                 totalTokens : option Z }.
End Usage.

Module LLMResponse.
Record t := mk { content : string; model : option string; usage : option Usage.t }.
End LLMResponse.

Module ProcessingResult.
Record t := mk { uri : Uri; success : bool; response : option string;
                 error : option string; model : option string; tokens : option Z }.
End ProcessingResult.

Module BatchResult.
Record t := mk { results : list ProcessingResult.t; totalProcessed : Z;
                 totalSuccessful : Z; totalFailed : Z; totalTokens : Z;
                 duration : Z }.
End BatchResult.

(** [LLMProvider]'s fields. The configured provider is any text at run
    time; only two values select a backend. *)
Inductive ProviderKind := VscodeLm | Ollama | OtherProvider (text : string).

Definition ProviderKind_text (p : ProviderKind) : string :=
  match p with
  | VscodeLm => "vscode.lm"
  | Ollama => "ollama"
  | OtherProvider text => text
  end.

Module LLMProvider.
Record t := mk { provider : ProviderKind; ollamaEndpoint : string;
                 availableModels : list string }.
End LLMProvider.

(** [vscode.CancellationTokenSource]: one mutable flag. *)
Record CancellationTokenSource := { isCancellationRequested : bool }.

(** [BatchProcessor]'s fields: the engine state. *)
Module BatchProcessor.
Record t := mk { isProcessing : bool;
                 cancellationToken : option CancellationTokenSource;
                 llmProvider : LLMProvider.t }.
End BatchProcessor.

(** ** Values of any type *)

(** The values a tool call's arguments are made of. *)
#[warnings="-register-all"]
Inductive JsVal :=
| VUndefined
| VNull
| VBool (b : bool)
| VNumber (n : Z)
| VString (s : string)
| VArray (elems : list JsVal).

Definition truthy (v : JsVal) : bool :=
  match v with
  | VUndefined | VNull => false
  | VBool b => b
  | VNumber n => negb (n =? 0)
  | VString s => negb (bool_decide (s = ""))
  | VArray _ => true
  end.

(** [v === 'text']. *)
Definition strict_eq_str (v : JsVal) (text : string) : bool :=
  match v with VString s => bool_decide (s = text) | _ => false end.

(** [String(v)], as a template literal renders [v]. *)
Fixpoint JsVal_toString (v : JsVal) : string :=
  match v with
  | VUndefined => "undefined"
  | VNull => "null"
  | VBool b => if b then "true" else "false"
  | VNumber n => pretty n
  | VString s => s
  | VArray elems =>
      JsString.join ","
        (map (fun e => match e with
                       | VUndefined | VNull => ""
                       | _ => JsVal_toString e
                       end) elems)
  end.

(** ** The environment *)

(** [vscode.FileType]. *)
Definition FileType_File : Z := 1.
Definition FileType_Directory : Z := 2.

(** The selector handed to [vscode.lm.selectChatModels]. *)
Record ChatSelector := { vendor : option string; family : option string }.

(** The body posted to Ollama's [/api/generate]. *)
Record OllamaBody := { ob_model : string; ob_prompt : string; ob_stream : bool;
                       ob_temperature : QArith_base.Q; ob_num_predict : Z }.

(** The fields read from Ollama's reply. *)
Record OllamaData := { od_response : string; prompt_eval_count : option Z;
                       eval_count : option Z }.

(** What [axios.post] does: a reply, an axios error (with the [error] field
    of the server's reply, when there is one, and its own message), or any
    other thrown value. *)
Inductive AxiosOutcome :=
| AxiosReply (data : OllamaData)
| AxiosError (server_error : option string) (message : string)
| AxiosThrow (e : JsThrown).

(** A call made on the engine by another component while a run is
    suspended at an [await]. *)
Inductive ExtCall := CallCancel | CallProcess.

(** What happens while a batch is in flight: such a call, or the promise
    of the batch's [i]-th item settling. *)
Inductive EnvEvent := Ext (c : ExtCall) | Settle (i : nat).

Record World := {
  (* vscode.workspace *)
  fs_stat : Uri -> Exn Z;
  fs_readDirectory : Uri -> Exn (list (string * Z));
  fs_readFile : Uri -> Exn string;      (* the bytes, through [TextDecoder] *)
  workspaceFolder : option string;      (* [workspaceFolders?.[0]?.uri.fsPath] *)
  findFiles : JsVal -> Exn (list Uri);
  (* fs/promises and the clock, used by the result sink *)
  fsp_mkdir : string -> Exn unit;
  fsp_writeFile : string -> string -> Exn unit;
  date_toISOString : Uri -> string * string;
  (* model backends *)
  lm_selectChatModels : ChatSelector -> Exn (list string);
  lm_sendRequest : string -> string -> Exn (list string);
  axios_get_tags : string -> Exn (option (list string));
  axios_post_generate : string -> OllamaBody -> AxiosOutcome;
  (* the engine's message for calling a value that is no function *)
  not_callable_message : JsVal -> string;
  (* dialogs *)
  showQuickPick : list string -> Completion (option string);
  showResults_dialogs : BatchResult.t -> Completion unit;
  (* [Date.now()] at the start of the run and at aggregation *)
  date_now_start : Z;
  date_now_end : Z;
  (* what arrives while the run is suspended *)
  during_selectModel : list ExtCall;
  during_batch : nat -> list EnvEvent;
  during_delay : nat -> list ExtCall;
  during_showResults : list ExtCall
}.

(** What a run does to the outside, in the order it does it. *)
Inductive Effect :=
| Claimed                                (* the run-active flag is set *)
| Released                               (* the [finally] block has run *)
| CallRejected (e : JsThrown)            (* a [process()] call was refused *)
| NestedRun                              (* a [process()] call was let in *)
| CancelRequested                        (* the token source was cancelled *)
| UiError (message : string)             (* [showErrorMessage] *)
| ConsoleError (what : string)
| FsRead (target : Uri)                  (* [stat], [readDirectory], [readFile] *)
| BackendCall (request : LLMRequest.t)
| SinkMkdir (dir : string)
| SinkWrite (path text : string)
| BatchDispatched (batchIndex : nat)
| Progress (processedCount : Z)
| Delay (ms : Z).

(** Effects of processing items, as opposed to those of running the engine. *)
Definition is_item_effect (e : Effect) : bool :=
  match e with
  | FsRead _ | BackendCall _ | SinkMkdir _ | SinkWrite _ _
  | BatchDispatched _ | Progress _ => true
  | _ => false
  end.

(** ** Calls that log and may throw *)

Abbreviation IO A := (list Effect * Exn A)%type (only parsing).

Definition io_ret {A} (a : A) : IO A := ([], Ok a).
Definition io_throw {A} (e : JsThrown) : IO A := ([], Throw e).
Definition io_log (e : Effect) : IO unit := ([e], Ok tt).
Definition io_lift {A} (r : Exn A) : IO A := ([], r).

Definition io_bind {A B} (m : IO A) (k : A -> IO B) : IO B :=
  match m with
  | (log, Ok a) => let '(log', r) := k a in (log ++ log', r)
  | (log, Throw e) => (log, Throw e)
  end.

(** [try { body } catch (error) { handler }]. *)
Definition io_try_catch {A} (body : IO A) (handler : JsThrown -> IO A) : IO A :=
  match body with
  | (log, Ok a) => (log, Ok a)
  | (log, Throw e) => let '(log', r) := handler e in (log ++ log', r)
  end.

Notation "x <~ m ; k" := (io_bind m (fun x => k))
  (at level 20, m at level 100, k at level 200, only parsing).
Notation "'_' <~ m ; k" := (io_bind m (fun _ => k))
  (at level 20, m at level 100, k at level 200, only parsing).

(** ** [LLMProvider] (llmProvider.ts) *)

Definition with_availableModels (p : LLMProvider.t) (models : list string) : LLMProvider.t :=
  LLMProvider.mk (LLMProvider.provider p) (LLMProvider.ollamaEndpoint p) models.

(** [refreshAvailableModels]: a failed discovery is logged and leaves the
    empty list. *)
Definition refreshAvailableModels (w : World) (p : LLMProvider.t)
    : list Effect * LLMProvider.t :=
  match LLMProvider.provider p with
  | VscodeLm =>
      match lm_selectChatModels w {| vendor := None; family := None |} with
      | Ok ids => ([], with_availableModels p ids)
      | Throw _ =>
          ([ConsoleError "Error getting VSCode LM models:"], with_availableModels p [])
      end
  | Ollama =>
      match axios_get_tags w (LLMProvider.ollamaEndpoint p +:+ "/api/tags") with
      | Ok (Some names) => ([], with_availableModels p names)
      | Ok None => ([], with_availableModels p [])
      | Throw _ =>
          ([ConsoleError "Error getting Ollama models:"], with_availableModels p [])
      end
  | OtherProvider _ => ([], p)
  end.

Definition getAvailableModels (w : World) (p : LLMProvider.t)
    : list Effect * LLMProvider.t :=
  match LLMProvider.availableModels p with
  | [] => refreshAvailableModels w p
  | _ :: _ => ([], p)
  end.

(** [selectModel]: [undefined] when there is no model (after an error
    message) or when the quick pick is dismissed; the only model without
    asking when there is exactly one. *)
Definition selectModel (w : World) (p : LLMProvider.t)
    : list Effect * LLMProvider.t * Completion (option string) :=
  let '(log, p') := getAvailableModels w p in
  match LLMProvider.availableModels p' with
  | [] =>
      (log ++ [UiError ("No models available for "
                        +:+ ProviderKind_text (LLMProvider.provider p'))],
       p', Returned None)
  | [m] => (log, p', Returned (Some m))
  | models => (log, p', showQuickPick w models)
  end.

Definition temperature_default : QArith_base.Q := QArith_base.Qmake 7 10.

Definition is_truthy_str (a : option string) : bool :=
  match a with Some s => negb (bool_decide (s = "")) | None => false end.

Definition sendVSCodeLMRequest (w : World) (request : LLMRequest.t) : Exn LLMResponse.t :=
  let body :=
    match lm_selectChatModels w
            {| vendor := Some "copilot";
               family := if is_truthy_str (LLMRequest.model request)
                         then None else Some "gpt-4" |} with
    | Throw e => Throw e
    | Ok [] => Throw (new_Error "No language models available")
    | Ok (model :: _) =>
        match lm_sendRequest w model (LLMRequest.prompt request) with
        | Throw e => Throw e
        | Ok fragments =>
            Ok (LLMResponse.mk (foldl String.append "" fragments) (Some model) None)
        end
    end in
  match body with
  | Ok r => Ok r
  | Throw error => Throw (new_Error ("VSCode LM error: " +:+ thrown_toString error))
  end.

Definition sendOllamaRequest (w : World) (p : LLMProvider.t) (request : LLMRequest.t)
    : Exn LLMResponse.t :=
  let body :=
    {| ob_model := str_or (LLMRequest.model request) "llama2";
       ob_prompt := LLMRequest.prompt request;
       ob_stream := false;
       ob_temperature :=
         match LLMRequest.temperature request with
         | Some t => if QArith_base.Qeq_bool t (QArith_base.Qmake 0 1)
                     then temperature_default else t
         | None => temperature_default
         end;
       ob_num_predict := num_or (LLMRequest.maxTokens request) (-1) |} in
  match axios_post_generate w (LLMProvider.ollamaEndpoint p +:+ "/api/generate") body with
  | AxiosReply data =>
      Ok (LLMResponse.mk (od_response data) (LLMRequest.model request)
            (Some (Usage.mk (prompt_eval_count data) (eval_count data)
                     (Some (num_or (prompt_eval_count data) 0
                            + num_or (eval_count data) 0)))))
  | AxiosError server_error message =>
      Throw (new_Error ("Ollama error: " +:+ str_or server_error message))
  | AxiosThrow error =>
      Throw (new_Error ("Ollama error: " +:+ thrown_toString error))
  end.

Definition sendRequest (w : World) (p : LLMProvider.t) (request : LLMRequest.t)
    : IO LLMResponse.t :=
  match LLMProvider.provider p with
  | VscodeLm => ([BackendCall request], sendVSCodeLMRequest w request)
  | Ollama => ([BackendCall request], sendOllamaRequest w p request)
  | OtherProvider text => io_throw (new_Error ("Unsupported provider: " +:+ text))
  end.

(** ** [BatchProcessor]: one item (batchProcessor.ts) *)

(** [getFileContent]: a listing for a directory, the text for anything
    else; whatever is thrown is wrapped in a new [Error]. *)
Definition getFileContent (w : World) (uri : Uri) : IO string :=
  io_try_catch
    (_ <~ io_log (FsRead uri);
     stat <~ io_lift (fs_stat w uri);
     if decide (stat = FileType_Directory) then
       entries <~ io_lift (fs_readDirectory w uri);
       let fileList :=
         JsString.join JsString.nl
           (map (fun '(name, type) =>
                   (if decide (type = FileType_Directory) then "[DIR]" else "[FILE]")
                   +:+ " " +:+ name) entries) in
       io_ret ("Directory: " +:+ fsPath uri +:+ JsString.nl
               +:+ "Contents:" +:+ JsString.nl +:+ fileList)
     else
       io_lift (fs_readFile w uri))
    (fun error =>
       io_throw (new_Error ("Failed to read " +:+ fsPath uri +:+ ": "
                            +:+ thrown_toString error))).

(** The chain of four [replace] calls of [buildPrompt]. *)
Definition replace_placeholders (w : World) (uri : Uri) (content promptTemplate : string)
    : string :=
  JsString.replace_all "{{WORKSPACE_PATH}}" (str_or (workspaceFolder w) "")
    (JsString.replace_all "{{FILE_NAME}}" (JsPath.basename (fsPath uri))
       (JsString.replace_all "{{FILE_PATH}}" (fsPath uri)
          (JsString.replace_all "{{FILE_CONTENT}}" content promptTemplate))).

(** The template chosen by [type]: for a task its [aiPrompt], or else a
    default naming the command; for a prompt its [content] (which is
    [undefined] when the item is not a prompt). *)
Definition promptTemplate_of (content : string) (type : OpKind) (item : Item)
    : option string :=
  match type with
  | KTask =>
      Some (str_or (item_aiPrompt item)
              ("Execute task: " +:+ str_interp (item_command item)
               +:+ JsString.nl +:+ JsString.nl
               +:+ "File content:" +:+ JsString.nl +:+ content))
  | KPrompt => item_content item
  end.

Definition buildPrompt (w : World) (uri : Uri) (content : string) (type : OpKind)
    (item : Item) : Exn string :=
  match promptTemplate_of content type item with
  | Some promptTemplate => Ok (replace_placeholders w uri content promptTemplate)
  | None =>
      Throw (new_TypeError "Cannot read properties of undefined (reading 'replace')")
  end.

(** [timestamp.replace(/[:.]/g, '-')]. *)
Fixpoint dash_colons_dots (s : string) : string :=
  match s with
  | EmptyString => ""
  | String c tl =>
      String (if decide (c = ":"%char) then "-"%char
              else if decide (c = "."%char) then "-"%char else c)
        (dash_colons_dots tl)
  end.

(** [saveResult]: nothing without a workspace folder; otherwise one result
    document; a failure is logged and goes no further. *)
Definition saveResult (w : World) (uri : Uri) (result : string) (type : OpKind)
    (item : Item) : IO unit :=
  io_try_catch
    (match workspaceFolder w with
     | None => io_ret tt
     | Some folder =>
         let outputDir := JsPath.join [folder; ".vscode"; "batch-ai-results"] in
         _ <~ io_log (SinkMkdir outputDir);
         _ <~ io_lift (fsp_mkdir w outputDir);
         let timestamp := dash_colons_dots (fst (date_toISOString w uri)) in
         let itemName :=
           match type with
           | KTask => opt_or (item_label item) (item_command item)
           | KPrompt => item_name item
           end in
         let fileName :=
           JsPath.basename (fsPath uri) +:+ "_" +:+ str_interp itemName
           +:+ "_" +:+ timestamp +:+ ".md" in
         let outputPath := JsPath.join [outputDir; fileName] in
         let outputContent :=
           JsString.join JsString.nl
             [ "# AI Result for " +:+ JsPath.basename (fsPath uri);
               "";
               "**Type**: " +:+ OpKind_text type;
               "**Item**: " +:+ str_interp itemName;
               "**Timestamp**: " +:+ snd (date_toISOString w uri);
               "**File**: " +:+ fsPath uri;
               "";
               "## Result";
               "";
               result;
               "";
               "---";
               "*Generated by Batch AI Operations*" ] in
         _ <~ io_log (SinkWrite outputPath outputContent);
         io_lift (fsp_writeFile w outputPath outputContent)
     end)
    (fun error => io_log (ConsoleError "Failed to save result:")).

Definition failed_result (uri : Uri) (message : string) : ProcessingResult.t :=
  ProcessingResult.mk uri false None (Some message) None None.

(** The [try] block of [processItem]: read, build the prompt, call the
    backend, save. *)
Definition processItem_try (w : World) (p : LLMProvider.t) (uri : Uri) (type : OpKind)
    (item : Item) (model : string) : IO ProcessingResult.t :=
  content <~ getFileContent w uri;
  prompt <~ io_lift (buildPrompt w uri content type item);
  let request :=
    LLMRequest.mk prompt (Some model) (Some temperature_default) (Some 4000) in
  response <~ sendRequest w p request;
  _ <~ saveResult w uri (LLMResponse.content response) type item;
  io_ret (ProcessingResult.mk uri true
            (Some (LLMResponse.content response)) None
            (LLMResponse.model response)
            (match LLMResponse.usage response with
             | Some u => Usage.totalTokens u
             | None => None
             end)).

(** [processItem]: the whole body sits in that one [try], whose [catch]
    returns a failed result. *)
Definition processItem (w : World) (p : LLMProvider.t) (uri : Uri) (type : OpKind)
    (item : Item) (model : string) : IO ProcessingResult.t :=
  io_try_catch (processItem_try w p uri type item model)
    (fun error => io_ret (failed_result uri (message_or "Unknown error" error))).

(** ** [BatchProcessor.createBatches]

    [for (let i = 0; i < items.length; i += batchSize)
       batches.push(items.slice(i, i + batchSize))].
    The loop is run on fuel; [None] stands for a loop that never leaves
    (which is what the source does when [batchSize <= 0] on a non-empty
    array). *)

Fixpoint createBatches_loop {T} (fuel : nat) (items : list T) (batchSize i : Z)
    (batches : list (list T)) : option (list (list T)) :=
  if i <? Z.of_nat (length items) then
    match fuel with
    | O => None
    | S fuel' =>
        createBatches_loop fuel' items batchSize (i + batchSize)
          (batches ++ [JsArray.slice items i (i + batchSize)])
    end
  else Some batches.

Definition createBatches {T} (items : list T) (batchSize : Z) : option (list (list T)) :=
  createBatches_loop (length items) items batchSize 0 [].

(** The [k]-th window of width [b] of a list. *)
Definition window {T} (b : nat) (items : list T) (k : nat) : list T :=
  take b (drop (k * b) items).

(** Number of batches: the ceiling of [n / b]. *)
Definition ceil_div (n b : nat) : nat := ((n + b - 1) / b)%nat.

(** ** [BatchProcessor]: the run (batchProcessor.ts) *)

Definition isCurrentlyProcessing (this : BatchProcessor.t) : bool :=
  BatchProcessor.isProcessing this.

(** [this.cancellationToken?.token.isCancellationRequested]. *)
Definition cancellation_requested (this : BatchProcessor.t) : bool :=
  match BatchProcessor.cancellationToken this with
  | Some source => isCancellationRequested source
  | None => false
  end.

(** [cancel()]; the handler the run registers on the progress
    notification's own token does the same. *)
Definition cancel (this : BatchProcessor.t) : list Effect * BatchProcessor.t :=
  match BatchProcessor.cancellationToken this with
  | Some _ =>
      ([CancelRequested],
       BatchProcessor.mk (BatchProcessor.isProcessing this)
         (Some {| isCancellationRequested := true |})
         (BatchProcessor.llmProvider this))
  | None => ([], this)
  end.

(** The first lines of [process], before its [try]: refuse when a run is
    active, else claim the flag and make a fresh token source. *)
Definition process_enter (this : BatchProcessor.t) : Exn BatchProcessor.t :=
  if BatchProcessor.isProcessing this then
    Throw (new_Error "Another batch operation is already in progress")
  else
    Ok (BatchProcessor.mk true (Some {| isCancellationRequested := false |})
          (BatchProcessor.llmProvider this)).

(** The [finally] block of [process]. *)
Definition process_finally (this : BatchProcessor.t) : BatchProcessor.t :=
  BatchProcessor.mk false None (BatchProcessor.llmProvider this).

(** A call arriving while a run is suspended.  A [process()] call goes
    through [process_enter]; were it let in, a second run would start on the
    same engine, which the model only records ([NestedRun]). *)
Definition ext_call (c : ExtCall) (this : BatchProcessor.t)
    : list Effect * BatchProcessor.t :=
  match c with
  | CallCancel => cancel this
  | CallProcess =>
      match process_enter this with
      | Throw e => ([CallRejected e], this)
      | Ok this' => ([NestedRun], this')
      end
  end.

Fixpoint ext_calls (cs : list ExtCall) (this : BatchProcessor.t)
    : list Effect * BatchProcessor.t :=
  match cs with
  | [] => ([], this)
  | c :: cs' =>
      let '(log, this1) := ext_call c this in
      let '(log', this2) := ext_calls cs' this1 in
      (log ++ log', this2)
  end.

(** Awaiting [Promise.allSettled(batchPromises)]: each promise that settles
    writes its result into the slot of its own index, whenever that happens;
    the effects of an item are logged when its promise settles. *)
Fixpoint await_batch (promises : list (IO ProcessingResult.t)) (events : list EnvEvent)
    (this : BatchProcessor.t) (slots : list (option (Settled ProcessingResult.t)))
    : list Effect * BatchProcessor.t * list (option (Settled ProcessingResult.t)) :=
  match events with
  | [] => ([], this, slots)
  | Ext c :: events' =>
      let '(log, this1) := ext_call c this in
      let '(log', this2, slots') := await_batch promises events' this1 slots in
      (log ++ log', this2, slots')
  | Settle i :: events' =>
      match promises !! i, slots !! i with
      | Some (log, r), Some None =>
          let '(log', this2, slots') :=
            await_batch promises events' this (<[i := Some (settle r)]> slots) in
          (log ++ log', this2, slots')
      | _, _ => await_batch promises events' this slots
      end
  end.

(** [allSettled]'s promise resolves once every slot is written. *)
Fixpoint all_settled {A} (slots : list (option A)) : option (list A) :=
  match slots with
  | [] => Some []
  | Some a :: tl =>
      match all_settled tl with Some l => Some (a :: l) | None => None end
  | None :: _ => None
  end.

(** The locals of [process] that the loop updates. *)
Record Locals := { results : list ProcessingResult.t; totalTokens : Z;
                   processedCount : Z }.

(** [reason?.message || 'Unknown error']. *)
Definition reason_message (reason : JsThrown) : string :=
  match reason with
  | ErrorObj _ message => str_or (Some message) "Unknown error"
  | NonError _ => "Unknown error"
  end.

(** One turn of the inner loop over [batchResults], for [batchResults[i]]
    and [batch[i]]. *)
Definition record_result (acc : list Effect * Locals)
    (entry : Uri * Settled ProcessingResult.t) : list Effect * Locals :=
  let '(log, l) := acc in
  let processedCount' := processedCount l + 1 in
  let l' :=
    match snd entry with
    | Fulfilled value =>
        {| results := results l ++ [value];
           totalTokens := totalTokens l + num_or (ProcessingResult.tokens value) 0;
           processedCount := processedCount' |}
    | Rejected reason =>
        {| results := results l ++ [failed_result (fst entry) (reason_message reason)];
           totalTokens := totalTokens l;
           processedCount := processedCount' |}
    end in
  (log ++ [Progress processedCount'], l').

(** What the run records for a target: the value its [processItem] promise
    is fulfilled with, or the record the loop makes up for a rejection. *)
Definition item_outcome (w : World) (p : LLMProvider.t) (type : OpKind) (item : Item)
    (model : string) (uri : Uri) : ProcessingResult.t :=
  match snd (processItem w p uri type item model) with
  | Ok value => value
  | Throw reason => failed_result uri (reason_message reason)
  end.

(** How the loop over the batches ended. *)
Inductive LoopEnd := LoopLeft | LoopStuck.

(** The loop over the batches, at [batchIndex], with the batches from that
    index on in [rest]; [nbatches] is [batches.length]. *)
Fixpoint run_batches (w : World) (type : OpKind) (item : Item) (selectedModel : string)
    (batchSize : Z) (nbatches : nat) (batchIndex : nat) (rest : list (list Uri))
    (this : BatchProcessor.t) (l : Locals)
    : list Effect * LoopEnd * BatchProcessor.t * Locals :=
  match rest with
  | [] => ([], LoopLeft, this, l)
  | batch :: rest' =>
      if cancellation_requested this then ([], LoopLeft, this, l)
      else
        let batchPromises :=
          map (fun uri =>
                 processItem w (BatchProcessor.llmProvider this) uri type item selectedModel)
            batch in
        let '(log1, this1, slots) :=
          await_batch batchPromises (during_batch w batchIndex) this
            (replicate (length batchPromises) None) in
        match all_settled slots with
        | None => (BatchDispatched batchIndex :: log1, LoopStuck, this1, l)
        | Some batchResults =>
            let '(log2, l2) := foldl record_result ([], l) (zip batch batchResults) in
            let '(log3, this3) :=
              if (Z.of_nat batchIndex <? Z.of_nat nbatches - 1) && (1 <? batchSize)
              then
                let '(log, this') := ext_calls (during_delay w batchIndex) this1 in
                (Delay 1000 :: log, this')
              else ([], this1) in
            let '(log4, fin, this4, l4) :=
              run_batches w type item selectedModel batchSize nbatches
                (S batchIndex) rest' this3 l2 in
            (BatchDispatched batchIndex :: log1 ++ log2 ++ log3 ++ log4, fin, this4, l4)
        end
  end.

Definition count_where {A} (p : A -> bool) (l : list A) : Z :=
  Z.of_nat (length (filter (fun a => p a = true) l)).

(** The aggregation of [process]. *)
Definition summarise (w : World) (l : Locals) : BatchResult.t :=
  BatchResult.mk (results l)
    (Z.of_nat (length (results l)))
    (count_where ProcessingResult.success (results l))
    (count_where (fun r => negb (ProcessingResult.success r)) (results l))
    (totalTokens l)
    (date_now_end w - date_now_start w).

Definition with_llmProvider (this : BatchProcessor.t) (p : LLMProvider.t) : BatchProcessor.t :=
  BatchProcessor.mk (BatchProcessor.isProcessing this)
    (BatchProcessor.cancellationToken this) p.

(** The [try] block of [process]. *)
Definition process_try (w : World) (this : BatchProcessor.t) (uris : list Uri)
    (type : OpKind) (item : Item) (batchSize : Z)
    : list Effect * BatchProcessor.t * Completion BatchResult.t :=
  let '(log0, this0) := ext_calls (during_selectModel w) this in
  let '(log1, provider1, selected) := selectModel w (BatchProcessor.llmProvider this0) in
  let this1 := with_llmProvider this0 provider1 in
  match selected with
  | Pending => (log0 ++ log1, this1, Pending)
  | Threw e => (log0 ++ log1, this1, Threw e)
  | Returned selectedModel =>
      if negb (is_truthy_str selectedModel) then
        (log0 ++ log1, this1, Threw (new_Error "No model selected"))
      else
        match createBatches uris batchSize with
        | None => (log0 ++ log1, this1, Pending)
        | Some batches =>
            let '(log2, fin, this2, l) :=
              run_batches w type item (str_interp selectedModel) batchSize
                (length batches) 0 batches this1
                {| results := []; totalTokens := 0; processedCount := 0 |} in
            match fin with
            | LoopStuck => (log0 ++ log1 ++ log2, this2, Pending)
            | LoopLeft =>
                let batchResult := summarise w l in
                let '(log3, this3) := ext_calls (during_showResults w) this2 in
                match showResults_dialogs w batchResult with
                | Pending => (log0 ++ log1 ++ log2 ++ log3, this3, Pending)
                | Threw e => (log0 ++ log1 ++ log2 ++ log3, this3, Threw e)
                | Returned _ => (log0 ++ log1 ++ log2 ++ log3, this3, Returned batchResult)
                end
            end
        end
  end.

(** [process]: the guard, then [try { ... } finally { ... }].  When the
    [try] block never completes, neither does the call, and the [finally]
    block has not run. *)
Definition process (w : World) (this : BatchProcessor.t) (uris : list Uri)
    (type : OpKind) (item : Item) (batchSize : Z)
    : list Effect * BatchProcessor.t * Completion BatchResult.t :=
  match process_enter this with
  | Throw e => ([], this, Threw e)
  | Ok this1 =>
      let '(log, this2, outcome) := process_try w this1 uris type item batchSize in
      match outcome with
      | Pending => (Claimed :: log, this2, Pending)
      | _ => (Claimed :: log ++ [Released], process_finally this2, outcome)
      end
  end.

(** ** [MCPServer.handleBatchProcessFiles] (mcpServer.ts) *)

(** What is handed to [Array.prototype.find]: a function, or a value that
    is no function. *)
Inductive Callback (A : Type) :=
| Callable (f : A -> bool)
| NotCallable (v : JsVal).
Arguments Callable {A} f.
Arguments NotCallable {A} v.

(** [Array.prototype.find(predicate)]: a [TypeError] is thrown, whatever the
    array, when [predicate] cannot be called. *)
Definition Array_find {A} (w : World) (arr : list A) (predicate : Callback A)
    : Exn (option A) :=
  match predicate with
  | Callable f => Ok (List.find f arr)
  | NotCallable v => Throw (new_TypeError (not_callable_message w v))
  end.

(** [TaskManager.getTasks()] and [PromptManager.getPrompt(name)]. *)
Definition getTasks (tasks : list Task.t) : list Task.t := tasks.

Definition getPrompt (prompts : list Prompt.t) (name : JsVal) : option Prompt.t :=
  List.find (fun prompt => strict_eq_str name (Prompt.name prompt)) prompts.

Module MCPServer.
Record t := mk { batchProcessor : BatchProcessor.t; taskManager : list Task.t;
                 promptManager : list Prompt.t }.
End MCPServer.

(** The arguments of the [batch_process_files] tool. *)
Record BatchArgs := { arg_type : JsVal; arg_item_name : JsVal;
                      arg_file_patterns : JsVal; arg_batch_size : option Z }.

Module MCPError.
Record t := mk { code : Z; message : string }.
End MCPError.

Module ResultRow.
Record t := mk { file : string; success : bool; error : option string;
                 response : option string; model : option string; tokens : option Z }.
End ResultRow.

Module MCPResult.
Record t := mk { success : bool; processed : Z; successful : Z; failed : Z;
                 duration_ms : Z; tokens_used : Z; results : list ResultRow.t }.
End MCPResult.

Module MCPResponse.
Record t := mk { result : option MCPResult.t; error : option MCPError.t; id : JsVal }.
End MCPResponse.

Definition error_response (code : Z) (message : string) (requestId : JsVal)
    : MCPResponse.t :=
  MCPResponse.mk None (Some (MCPError.mk code message)) requestId.

Definition result_response (r : BatchResult.t) (requestId : JsVal) : MCPResponse.t :=
  MCPResponse.mk
    (Some (MCPResult.mk true (BatchResult.totalProcessed r)
             (BatchResult.totalSuccessful r) (BatchResult.totalFailed r)
             (BatchResult.duration r) (BatchResult.totalTokens r)
             (map (fun r => ResultRow.mk (fsPath (ProcessingResult.uri r))
                              (ProcessingResult.success r) (ProcessingResult.error r)
                              (ProcessingResult.response r) (ProcessingResult.model r)
                              (ProcessingResult.tokens r))
                (BatchResult.results r))))
    None requestId.

Definition double_quote : string := String (ascii_of_nat 34) EmptyString.

(** "Get the item (task or prompt)": an early reply, or the item. *)
Definition lookup_item (w : World) (server : MCPServer.t) (args : BatchArgs)
    (requestId : JsVal) : Exn (MCPResponse.t + OpKind * Item) :=
  if strict_eq_str (arg_type args) "task" then
    match Array_find w (getTasks (MCPServer.taskManager server))
            (NotCallable (arg_item_name args)) with
    | Throw e => Throw e
    | Ok None =>
        Ok (inl (error_response (-32602)
                   ("Task not found: " +:+ JsVal_toString (arg_item_name args))
                   requestId))
    | Ok (Some task) => Ok (inr (KTask, ItemTask task))
    end
  else if strict_eq_str (arg_type args) "prompt" then
    match getPrompt (MCPServer.promptManager server) (arg_item_name args) with
    | None =>
        Ok (inl (error_response (-32602)
                   ("Prompt not found: " +:+ JsVal_toString (arg_item_name args))
                   requestId))
    | Some prompt => Ok (inr (KPrompt, ItemPrompt prompt))
    end
  else
    Ok (inl (error_response (-32602)
               ("Type must be " +:+ double_quote +:+ "task" +:+ double_quote
                +:+ " or " +:+ double_quote +:+ "prompt" +:+ double_quote)
               requestId)).

(** "Find files matching patterns": [findFiles] on each pattern in turn. *)
Fixpoint find_files (w : World) (file_patterns : list JsVal) (uris : list Uri)
    : Exn (list Uri) :=
  match file_patterns with
  | [] => Ok uris
  | pattern :: rest =>
      match findFiles w pattern with
      | Throw e => Throw e
      | Ok files => find_files w rest (uris ++ files)
      end
  end.

(** The reply of the handler's [catch]. *)
Definition internal_error (error : JsThrown) (requestId : JsVal) : MCPResponse.t :=
  error_response (-32603)
    (match error with
     | ErrorObj _ message => message
     | NonError shown => shown
     end) requestId.

Definition with_batchProcessor (server : MCPServer.t) (this : BatchProcessor.t)
    : MCPServer.t :=
  MCPServer.mk this (MCPServer.taskManager server) (MCPServer.promptManager server).

(** [handleBatchProcessFiles]: the reply, with the run's effects and the
    server afterwards. *)
Definition handleBatchProcessFiles (w : World) (server : MCPServer.t)
    (args : BatchArgs) (requestId : JsVal)
    : list Effect * MCPServer.t * Completion MCPResponse.t :=
  let batch_size := match arg_batch_size args with Some n => n | None => 1 end in
  match arg_file_patterns args with
  | VArray file_patterns =>
      if negb (truthy (arg_type args)) || negb (truthy (arg_item_name args)) then
        ([], server,
         Returned (error_response (-32602)
                     "Invalid parameters. Required: type, item_name, file_patterns"
                     requestId))
      else
        match lookup_item w server args requestId with
        | Throw error => ([], server, Returned (internal_error error requestId))
        | Ok (inl reply) => ([], server, Returned reply)
        | Ok (inr (type, item)) =>
            match find_files w file_patterns [] with
            | Throw error => ([], server, Returned (internal_error error requestId))
            | Ok [] =>
                ([], server,
                 Returned (error_response (-32602)
                             "No files found matching the specified patterns"
                             requestId))
            | Ok uris =>
                let '(log, this', outcome) :=
                  process w (MCPServer.batchProcessor server) uris type item batch_size in
                (log, with_batchProcessor server this',
                 match outcome with
                 | Returned result => Returned (result_response result requestId)
                 | Threw error => Returned (internal_error error requestId)
                 | Pending => Pending
                 end)
            end
        end
  | _ =>
      ([], server,
       Returned (error_response (-32602)
                   "Invalid parameters. Required: type, item_name, file_patterns"
                   requestId))
  end.

(** The two caller-input errors of the external interface, as the handler
    words them. *)
Definition is_ItemNotFound (kind : OpKind) (name : JsVal) (reply : MCPResponse.t) : Prop :=
  MCPResponse.error reply
  = Some (MCPError.mk (-32602)
            ((match kind with KTask => "Task" | KPrompt => "Prompt" end)
             +:+ " not found: " +:+ JsVal_toString name)).

Definition is_NoMatchingFiles (reply : MCPResponse.t) : Prop :=
  MCPResponse.error reply
  = Some (MCPError.mk (-32602) "No files found matching the specified patterns").

(** ** Classes of effects and states, for the properties *)

(** The effects the log classifies. *)
Definition is_dispatch (e : Effect) : bool :=
  match e with BatchDispatched _ => true | _ => false end.
Definition is_cancel (e : Effect) : bool :=
  match e with CancelRequested => true | _ => false end.
Definition is_rejection (e : Effect) : bool :=
  match e with CallRejected _ => true | _ => false end.
Definition is_release (e : Effect) : bool :=
  match e with Released => true | _ => false end.

(** The indices of the batches a log shows dispatched, in order. *)
Definition dispatched (log : list Effect) : list nat :=
  omap (fun e => match e with BatchDispatched k => Some k | _ => None end) log.

(** The environment with the [process()] calls that arrive during a run
    left out. *)
Definition keep_call (c : ExtCall) : bool :=
  match c with CallProcess => false | CallCancel => true end.
Definition keep_event (e : EnvEvent) : bool :=
  match e with Ext c => keep_call c | Settle _ => true end.

Definition without_process_calls (w : World) : World :=
  {| fs_stat := fs_stat w;
     fs_readDirectory := fs_readDirectory w;
     fs_readFile := fs_readFile w;
     workspaceFolder := workspaceFolder w;
     fsp_mkdir := fsp_mkdir w;
     fsp_writeFile := fsp_writeFile w;
     date_toISOString := date_toISOString w;
     lm_selectChatModels := lm_selectChatModels w;
     lm_sendRequest := lm_sendRequest w;
     axios_get_tags := axios_get_tags w;
     axios_post_generate := axios_post_generate w;
     findFiles := findFiles w;
     not_callable_message := not_callable_message w;
     showQuickPick := showQuickPick w;
     showResults_dialogs := showResults_dialogs w;
     date_now_start := date_now_start w;
     date_now_end := date_now_end w;
     during_selectModel := List.filter keep_call (during_selectModel w);
     during_batch := fun k => List.filter keep_event (during_batch w k);
     during_delay := fun k => List.filter keep_call (during_delay w k);
     during_showResults := List.filter keep_call (during_showResults w) |}.

(** Every item of every batch settles at some point. *)
Definition every_item_settles (w : World) (batches : list (list Uri)) : Prop :=
  forall (k : nat) (batch : list Uri) (i : nat),
    batches !! k = Some batch -> (i < length batch)%nat ->
    In (Settle i) (during_batch w k).

(** What one item's processing can do. *)
Definition is_io (e : Effect) : bool :=
  match e with
  | FsRead _ | BackendCall _ | SinkMkdir _ | SinkWrite _ _ | ConsoleError _ => true
  | _ => false
  end.

(** What can be logged between the dispatch of a batch and the next
    boundary, besides a nested run. *)
Definition is_calm (e : Effect) : bool :=
  match e with
  | Claimed | Released | NestedRun | BatchDispatched _ => false
  | _ => true
  end.

(** What the [try] block of a run can log. *)
Definition is_inner (e : Effect) : bool :=
  match e with
  | Claimed | Released | NestedRun => false
  | _ => true
  end.

(** A run is active on the engine: the flag is set and there is a token
    source. *)
Definition active (this : BatchProcessor.t) : Prop :=
  BatchProcessor.isProcessing this = true
  /\ is_Some (BatchProcessor.cancellationToken this).

(** No batch is dispatched after a cancellation was requested;
    [cancelled] tells whether one was requested before the log starts. *)
Fixpoint well_cancelled (cancelled : bool) (log : list Effect) : bool :=
  match log with
  | [] => true
  | e :: log' =>
      (negb (is_dispatch e) || negb cancelled)
      && well_cancelled (cancelled || is_cancel e) log'
  end.

(** A stretch of a run between two batch boundaries: the run stays
    active on the same provider, nothing is dispatched, and the token is
    cancelled afterwards exactly when it was before or the log shows a
    request. *)
Definition calm_step (this : BatchProcessor.t) (log : list Effect)
    (this' : BatchProcessor.t) : Prop :=
  active this'
  /\ BatchProcessor.llmProvider this' = BatchProcessor.llmProvider this
  /\ cancellation_requested this'
     = cancellation_requested this || existsb is_cancel log
  /\ Forall (fun e => is_calm e = true) log.

(** The slots of a batch in flight hold nothing but the results of the
    batch's own promises, each at its own index. *)
Definition slots_ok (promises : list (IO ProcessingResult.t))
    (slots : list (option (Settled ProcessingResult.t))) : Prop :=
  length slots = length promises
  /\ forall i v, slots !! i = Some (Some v) ->
       exists p, promises !! i = Some p /\ v = settle (snd p).

(** A log without its refused calls. *)
Definition erase_rejections (log : list Effect) : list Effect :=
  List.filter (fun e => negb (is_rejection e)) log.

(** Effects that neither dispatch, nor cancel, nor claim or release. *)
Definition is_quiet (e : Effect) : bool := is_calm e && negb (is_cancel e).

(** ** A concrete environment, for the examples

    Five targets run through a prompt in batches of two.  The backend
    answers every request, the second target cannot be read, the items of
    the first batch settle in reverse order while another [process()] call
    comes in, and a cancellation is requested while the second batch is in
    flight.  [models] is what model discovery finds. *)

Definition demo_world (models : list string) : World :=
  {| fs_stat := fun _ => Ok FileType_File;
     fs_readDirectory := fun _ => Ok [];
     fs_readFile := fun uri =>
       if decide (fsPath uri = "/x/bad.txt")
       then Throw (ErrorObj "EntryNotFound (FileSystemError)" "no such file")
       else Ok "hi";
     workspaceFolder := Some "/ws";
     fsp_mkdir := fun _ => Ok tt;
     fsp_writeFile := fun _ _ => Ok tt;
     date_toISOString := fun _ =>
       ("2024-01-01T00:00:00.000Z", "2024-01-01T00:00:00.001Z");
     lm_selectChatModels := fun _ => Ok models;
     lm_sendRequest := fun _ prompt => Ok ["re:"; prompt];
     axios_get_tags := fun _ => Ok None;
     axios_post_generate := fun _ _ => AxiosError None "connect ECONNREFUSED";
     findFiles := fun _ => Ok [];
     not_callable_message := fun v => JsVal_toString v +:+ " is not a function";
     showQuickPick := fun _ => Returned None;
     showResults_dialogs := fun _ => Returned tt;
     date_now_start := 100;
     date_now_end := 250;
     during_selectModel := [CallProcess];
     during_batch := fun k =>
       match k with
       | O => [Settle 1; Ext CallProcess; Settle 0]
       | S O => [Settle 0; Ext CallCancel; Settle 1]
       | _ => [Settle 0; Settle 1]
       end;
     during_delay := fun _ => [];
     during_showResults := [] |}.

(** The same environment with nobody cancelling. *)
Definition demo_world_uncancelled (models : list string) : World :=
  {| fs_stat := fs_stat (demo_world models);
     fs_readDirectory := fs_readDirectory (demo_world models);
     fs_readFile := fs_readFile (demo_world models);
     workspaceFolder := workspaceFolder (demo_world models);
     fsp_mkdir := fsp_mkdir (demo_world models);
     fsp_writeFile := fsp_writeFile (demo_world models);
     date_toISOString := date_toISOString (demo_world models);
     lm_selectChatModels := lm_selectChatModels (demo_world models);
     lm_sendRequest := lm_sendRequest (demo_world models);
     axios_get_tags := axios_get_tags (demo_world models);
     axios_post_generate := axios_post_generate (demo_world models);
     findFiles := findFiles (demo_world models);
     not_callable_message := not_callable_message (demo_world models);
     showQuickPick := showQuickPick (demo_world models);
     showResults_dialogs := showResults_dialogs (demo_world models);
     date_now_start := date_now_start (demo_world models);
     date_now_end := date_now_end (demo_world models);
     during_selectModel := [];
     during_batch := fun _ => [Settle 1; Settle 0];
     during_delay := fun _ => [CallProcess];
     during_showResults := [] |}.

Definition demo_engine (isProcessing : bool) : BatchProcessor.t :=
  BatchProcessor.mk isProcessing
    (if isProcessing then Some {| isCancellationRequested := false |} else None)
    (LLMProvider.mk VscodeLm "http://localhost:11434" []).

Definition demo_prompt : Item :=
  ItemPrompt (Prompt.mk "doc" "A:{{FILE_NAME}} B:{{FILE_CONTENT}}" None
                "/ws/.vscode/prompts/doc.prompt.md").

Definition demo_targets : list Uri :=
  [ {| fsPath := "/x/a.txt" |}; {| fsPath := "/x/bad.txt" |};
    {| fsPath := "/x/c.txt" |}; {| fsPath := "/x/d.txt" |};
    {| fsPath := "/x/e.txt" |} ].

(** ** Measures of a run, for further properties *)

(** [tokens || 0], summed over results. *)
Definition sum_tokens (rs : list ProcessingResult.t) : Z :=
  foldr (fun r acc => num_or (ProcessingResult.tokens r) 0 + acc) 0 rs.

(** The counts reported to the progress notification, in order. *)
Definition progress_reports (log : list Effect) : list Z :=
  omap (fun e => match e with Progress n => Some n | _ => None end) log.

(** The pacing delays taken, in order. *)
Definition delays (log : list Effect) : list Z :=
  omap (fun e => match e with Delay ms => Some ms | _ => None end) log.

(** What a call from outside logs. *)
Definition is_call_effect (e : Effect) : bool :=
  match e with
  | CallRejected _ | NestedRun | CancelRequested => true
  | _ => false
  end.

(** What model selection logs. *)
Definition is_notice (e : Effect) : bool :=
  match e with UiError _ | ConsoleError _ => true | _ => false end.

(** What is logged while a batch is awaited. *)
Definition is_in_flight (e : Effect) : bool := is_io e || is_call_effect e.

(** The locals after the inner loop over a batch whose items came out as
    [outcomes]. *)
Definition recorded (l : Locals) (outcomes : list ProcessingResult.t) : Locals :=
  {| results := results l ++ outcomes;
     totalTokens := totalTokens l + sum_tokens outcomes;
     processedCount := processedCount l + Z.of_nat (length outcomes) |}.

(** The progress reports of that inner loop. *)
Definition progress_from (count : Z) (n : nat) : list Effect :=
  map (fun i => Progress (count + Z.of_nat i)) (seq 1 n).

Definition is_progress (e : Effect) : bool :=
  match e with Progress _ => true | _ => false end.

(** What an item does to the world outside: reads, backend requests and
    writes to the result sink. *)
Definition is_item_io (e : Effect) : bool :=
  match e with
  | FsRead _ | BackendCall _ | SinkMkdir _ | SinkWrite _ _ => true
  | _ => false
  end.

(** The effects of the promises of a batch that have not settled yet. *)
Definition pending_logs (promises : list (list Effect * Exn ProcessingResult.t))
    (slots : list (option (Settled ProcessingResult.t))) : list Effect :=
  concat (zip_with (fun p s => match s with None => fst p | Some _ => [] end)
            promises slots).

(** The request [processItem] sends for a prompt. *)
Definition item_request (model prompt : string) : LLMRequest.t :=
  LLMRequest.mk prompt (Some model) (Some temperature_default) (Some 4000).

(** The files a log shows read, the requests it shows sent and the result
    documents it shows written, in order. *)
Definition reads (log : list Effect) : list Uri :=
  omap (fun e => match e with FsRead uri => Some uri | _ => None end) log.
Definition requests (log : list Effect) : list LLMRequest.t :=
  omap (fun e => match e with BackendCall r => Some r | _ => None end) log.
Definition writes (log : list Effect) : list (string * string) :=
  omap (fun e => match e with SinkWrite path doc => Some (path, doc) | _ => None end) log.


(** What [saveResult] logs. *)
Definition is_sink_effect (e : Effect) : bool :=
  match e with
  | SinkMkdir _ | SinkWrite _ _ | ConsoleError _ => true
  | _ => false
  end.

(** The effects on the world outside among those of a log. *)
Definition item_io (log : list Effect) : list Effect :=
  filter (fun e => is_item_io e = true) log.



(** How [sendRequest]'s errors begin, by provider. *)
Definition sendRequest_error_prefix (k : ProviderKind) : string :=
  match k with
  | VscodeLm => "VSCode LM error: "
  | Ollama => "Ollama error: "
  | OtherProvider _ => "Unsupported provider: "
  end.

(** [batch_size = 1] in the destructuring of the tool's arguments. *)
Definition batch_size_of (args : BatchArgs) : Z :=
  match arg_batch_size args with Some n => n | None => 1 end.

(** The reply made from the way a run ended. *)
Definition reply_of_run (outcome : Completion BatchResult.t) (requestId : JsVal)
    : Completion MCPResponse.t :=
  match outcome with
  | Returned result => Returned (result_response result requestId)
  | Threw error => Returned (internal_error error requestId)
  | Pending => Pending
  end.

(** A server on the demonstration engine, with one prompt and one task. *)
Definition demo_server (isProcessing : bool) : MCPServer.t :=
  MCPServer.mk (demo_engine isProcessing)
    [Task.mk (Some "lint") "eslint ." None]
    [match demo_prompt with ItemPrompt p => p | ItemTask _ => Prompt.mk "" "" None "" end].

(** The demonstration environment with files behind every pattern. *)
Definition demo_world_with_files (models : list string) : World :=
  {| fs_stat := fs_stat (demo_world models);
     fs_readDirectory := fs_readDirectory (demo_world models);
     fs_readFile := fs_readFile (demo_world models);
     workspaceFolder := workspaceFolder (demo_world models);
     fsp_mkdir := fsp_mkdir (demo_world models);
     fsp_writeFile := fsp_writeFile (demo_world models);
     date_toISOString := date_toISOString (demo_world models);
     lm_selectChatModels := lm_selectChatModels (demo_world models);
     lm_sendRequest := lm_sendRequest (demo_world models);
     axios_get_tags := axios_get_tags (demo_world models);
     axios_post_generate := axios_post_generate (demo_world models);
     findFiles := fun _ => Ok [ {| fsPath := "/x/a.txt" |}; {| fsPath := "/x/bad.txt" |} ];
     not_callable_message := not_callable_message (demo_world models);
     showQuickPick := showQuickPick (demo_world models);
     showResults_dialogs := showResults_dialogs (demo_world models);
     date_now_start := date_now_start (demo_world models);
     date_now_end := date_now_end (demo_world models);
     during_selectModel := [];
     during_batch := fun _ => [Settle 1; Settle 0];
     during_delay := fun _ => [];
     during_showResults := [] |}.

Definition demo_args (item_name : string) (patterns : list JsVal) : BatchArgs :=
  {| arg_type := VString "prompt"; arg_item_name := VString item_name;
     arg_file_patterns := VArray patterns; arg_batch_size := None |}.

(** ** [MCPServer]: requests and the other tools (mcpServer.ts) *)

(** A value that may be [undefined] or [null] where an object is read. *)
Inductive Nullable (A : Type) :=
| Object (a : A)
| Undefined
| Null.
Arguments Object {A} a.
Arguments Undefined {A}.
Arguments Null {A}.

(** [request.params], as far as the handlers read it: [name] and
    [arguments] for a tool call, [path] for a resource (a string when it
    is there).  A primitive reads like an object without these fields. *)
Record Params := { p_name : JsVal; p_arguments : Nullable BatchArgs;
                   p_path : option string }.

Module MCPRequest.
Record t := mk { method : string; params : Nullable Params; id : JsVal }.
End MCPRequest.

(** One property of a tool's input schema. *)
Module SchemaProperty.
Record t := mk { name : string; type : string; enum : list string;
                 items_type : option string; default : option Z;
                 minimum : option Z; maximum : option Z; description : string }.
End SchemaProperty.

Module Tool.
Record t := mk { name : string; description : string;
                 properties : list SchemaProperty.t; required : list string }.
End Tool.

(** What a reply's [result] can be. *)
Inductive ReplyValue :=
| RTools (tools : list Tool.t)          (* [{ tools }] *)
| RBatch (r : MCPResult.t)
| RNames (names : list string)
| RStatus (processing : bool)           (* [{ processing }] *)
| RResources (paths : list string)      (* [[{ path }, ...]] *)
| RText (text : string).

Module Reply.
Record t := mk { result : option ReplyValue; error : option MCPError.t; id : JsVal }.
End Reply.

Definition error_reply (code : Z) (message : string) (requestId : JsVal) : Reply.t :=
  Reply.mk None (Some (MCPError.mk code message)) requestId.

Definition result_reply (v : ReplyValue) (requestId : JsVal) : Reply.t :=
  Reply.mk (Some v) None requestId.

(** A reply of [handleBatchProcessFiles] among the replies. *)
Definition reply_of_batch (r : MCPResponse.t) : Reply.t :=
  Reply.mk (option_map RBatch (MCPResponse.result r)) (MCPResponse.error r)
    (MCPResponse.id r).

(** What the JavaScript engine and the editor contribute to the handlers:
    the message of the [TypeError] for destructuring [undefined] or [null]
    (by property, source text and value), [vscode.Uri.file],
    [workspace.workspaceFolders] and [findFiles] on all files of a
    folder. *)
Record Host := {
  destructure_message : string -> string -> JsVal -> string;
  uri_file : string -> Uri;
  workspaceFolders : option (list string);
  findFiles_in : string -> Exn (list Uri)
}.

(** [handleListTools]. *)
Definition tools : list Tool.t :=
  [ Tool.mk "batch_process_files" "Process multiple files with AI tasks or prompts"
      [ SchemaProperty.mk "type" "string" ["task"; "prompt"] None None None None
          "Type of operation to perform";
        SchemaProperty.mk "item_name" "string" [] None None None None
          "Name of the task or prompt to use";
        SchemaProperty.mk "file_patterns" "array" [] (Some "string") None None None
          "File patterns to match (glob patterns)";
        SchemaProperty.mk "batch_size" "number" [] None (Some 1) (Some 1) (Some 50)
          "Number of files to process concurrently" ]
      ["type"; "item_name"; "file_patterns"];
    Tool.mk "list_tasks" "List all available AI tasks" [] [];
    Tool.mk "list_prompts" "List all available AI prompts" [] [];
    Tool.mk "get_processing_status" "Get current batch processing status" [] [] ].

Definition handleListTools (request : MCPRequest.t) : Reply.t :=
  result_reply (RTools tools) (MCPRequest.id request).

(** [handleListTasksTool]: [t.label || t.command] of each task. *)
Definition handleListTasksTool (server : MCPServer.t) (requestId : JsVal) : Reply.t :=
  result_reply
    (RNames (map (fun t => str_or (Task.label t) (Task.command t))
               (getTasks (MCPServer.taskManager server))))
    requestId.

(** [PromptManager.getPrompts()]. *)
Definition getPrompts (prompts : list Prompt.t) : list Prompt.t := prompts.

Definition handleListPromptsTool (server : MCPServer.t) (requestId : JsVal) : Reply.t :=
  result_reply (RNames (map Prompt.name (getPrompts (MCPServer.promptManager server))))
    requestId.

Definition handleGetProcessingStatus (server : MCPServer.t) (requestId : JsVal) : Reply.t :=
  result_reply (RStatus (isCurrentlyProcessing (MCPServer.batchProcessor server)))
    requestId.

(** [handleBatchProcessFiles] on [args] as they come: destructuring
    [undefined] or [null] throws inside the handler's [try]. *)
Definition handleBatchProcessFiles_any (w : World) (h : Host) (server : MCPServer.t)
    (args : Nullable BatchArgs) (requestId : JsVal)
    : list Effect * MCPServer.t * Completion MCPResponse.t :=
  match args with
  | Object a => handleBatchProcessFiles w server a requestId
  | Undefined =>
      ([], server,
       Returned (internal_error
                   (new_TypeError (destructure_message h "type" "args" VUndefined))
                   requestId))
  | Null =>
      ([], server,
       Returned (internal_error
                   (new_TypeError (destructure_message h "type" "args" VNull))
                   requestId))
  end.

(** [handleToolCall]: destructuring [request.params] comes first, outside
    any [try]. *)
Definition handleToolCall (w : World) (h : Host) (server : MCPServer.t)
    (request : MCPRequest.t) : list Effect * MCPServer.t * Completion Reply.t :=
  let requestId := MCPRequest.id request in
  match MCPRequest.params request with
  | Undefined =>
      ([], server,
       Threw (new_TypeError (destructure_message h "name" "request.params" VUndefined)))
  | Null =>
      ([], server,
       Threw (new_TypeError (destructure_message h "name" "request.params" VNull)))
  | Object params =>
      let name := p_name params in
      if strict_eq_str name "batch_process_files" then
        let '(log, server', outcome) :=
          handleBatchProcessFiles_any w h server (p_arguments params) requestId in
        (log, server',
         match outcome with
         | Returned reply => Returned (reply_of_batch reply)
         | Threw e => Threw e
         | Pending => Pending
         end)
      else if strict_eq_str name "list_tasks" then
        ([], server, Returned (handleListTasksTool server requestId))
      else if strict_eq_str name "list_prompts" then
        ([], server, Returned (handleListPromptsTool server requestId))
      else if strict_eq_str name "get_processing_status" then
        ([], server, Returned (handleGetProcessingStatus server requestId))
      else
        ([], server,
         Returned (error_reply (-32602) ("Unknown tool: " +:+ JsVal_toString name)
                     requestId))
  end.

(** The loop of [handleListResources] over the workspace folders. *)
Fixpoint list_resources (h : Host) (folders : list string) (resources : list string)
    : Exn (list string) :=
  match folders with
  | [] => Ok resources
  | folder :: rest =>
      match findFiles_in h folder with
      | Throw e => Throw e
      | Ok files => list_resources h rest (resources ++ map fsPath files)
      end
  end.

Definition handleListResources (h : Host) (request : MCPRequest.t) : Reply.t :=
  match list_resources h (default [] (workspaceFolders h)) [] with
  | Ok resources => result_reply (RResources resources) (MCPRequest.id request)
  | Throw error => error_reply (-32603) (thrown_toString error) (MCPRequest.id request)
  end.

(** [handleReadResource]: [request.params || {}], then the file's text. *)
Definition handleReadResource (w : World) (h : Host) (request : MCPRequest.t) : Reply.t :=
  let filePath :=
    match MCPRequest.params request with
    | Object params => p_path params
    | Undefined | Null => None
    end in
  if is_truthy_str filePath then
    match fs_readFile w (uri_file h (str_interp filePath)) with
    | Ok text => result_reply (RText text) (MCPRequest.id request)
    | Throw error => error_reply (-32603) (thrown_toString error) (MCPRequest.id request)
    end
  else error_reply (-32602) "Missing file path" (MCPRequest.id request).

(** [handleRequest].  Its [try] covers only what runs before the handlers'
    promises are returned; a promise returned without [await] is not
    caught, so a rejection of [handleToolCall] is the rejection of
    [handleRequest]. *)
Definition handleRequest (w : World) (h : Host) (server : MCPServer.t)
    (request : MCPRequest.t) : list Effect * MCPServer.t * Completion Reply.t :=
  let method := MCPRequest.method request in
  if decide (method = "tools/list") then ([], server, Returned (handleListTools request))
  else if decide (method = "tools/call") then handleToolCall w h server request
  else if decide (method = "resources/list") then
    ([], server, Returned (handleListResources h request))
  else if decide (method = "resources/read") then
    ([], server, Returned (handleReadResource w h request))
  else
    ([], server,
     Returned (error_reply (-32601) ("Method not found: " +:+ method)
                 (MCPRequest.id request))).

(** A host for the examples. *)
Definition demo_host : Host :=
  {| destructure_message := fun property source v =>
       "Cannot destructure property '" +:+ property +:+ "' of '" +:+ source
       +:+ "' as it is " +:+ JsVal_toString v +:+ ".";
     uri_file := fun path => {| fsPath := path |};
     workspaceFolders := Some ["/ws"];
     findFiles_in := fun _ => Ok [ {| fsPath := "/ws/a.txt" |} ] |}.

Definition demo_call (name : string) (args : Nullable BatchArgs) : MCPRequest.t :=
  MCPRequest.mk "tools/call"
    (Object {| p_name := VString name; p_arguments := args; p_path := None |})
    (VNumber 7).


(** The reply to a call of a tool the server does not know. *)
Definition unknown_tool_reply (name : JsVal) (requestId : JsVal) : Reply.t :=
  error_reply (-32602) ("Unknown tool: " +:+ JsVal_toString name) requestId.

(** The arguments of [batch_process_files] with the property [name] left
    out. *)
Definition without_argument (name : string) (args : BatchArgs) : BatchArgs :=
  {| arg_type := if decide (name = "type") then VUndefined else arg_type args;
     arg_item_name :=
       if decide (name = "item_name") then VUndefined else arg_item_name args;
     arg_file_patterns :=
       if decide (name = "file_patterns") then VUndefined else arg_file_patterns args;
     arg_batch_size :=
       if decide (name = "batch_size") then None else arg_batch_size args |}.

(** ** Templates read as text and placeholders *)

(** The four placeholders of [buildPrompt]. *)
Inductive Placeholder := FILE_CONTENT | FILE_PATH | FILE_NAME | WORKSPACE_PATH.

Definition placeholder_text (k : Placeholder) : string :=
  match k with
  | FILE_CONTENT => "{{FILE_CONTENT}}"
  | FILE_PATH => "{{FILE_PATH}}"
  | FILE_NAME => "{{FILE_NAME}}"
  | WORKSPACE_PATH => "{{WORKSPACE_PATH}}"
  end.

(** What [buildPrompt] puts in a placeholder's place. *)
Definition placeholder_value (w : World) (uri : Uri) (content : string) (k : Placeholder)
    : string :=
  match k with
  | FILE_CONTENT => content
  | FILE_PATH => fsPath uri
  | FILE_NAME => JsPath.basename (fsPath uri)
  | WORKSPACE_PATH => str_or (workspaceFolder w) ""
  end.

Definition same_placeholder (k k' : Placeholder) : bool :=
  match k, k' with
  | FILE_CONTENT, FILE_CONTENT | FILE_PATH, FILE_PATH
  | FILE_NAME, FILE_NAME | WORKSPACE_PATH, WORKSPACE_PATH => true
  | _, _ => false
  end.

(** A template cut into stretches of text and placeholders. *)
Inductive Segment := Text (s : string) | Hole (k : Placeholder).

(** The template's text. *)
Fixpoint render (segments : list Segment) : string :=
  match segments with
  | [] => ""
  | Text s :: rest => s +:+ render rest
  | Hole k :: rest => placeholder_text k +:+ render rest
  end.

(** The template with each placeholder filled by its value. *)
Fixpoint fill (value : Placeholder -> string) (segments : list Segment) : string :=
  match segments with
  | [] => ""
  | Text s :: rest => s +:+ fill value rest
  | Hole k :: rest => value k +:+ fill value rest
  end.

(** The template with the placeholder [k] turned into the text [v]. *)
Definition fill_one (k : Placeholder) (v : string) (segments : list Segment)
    : list Segment :=
  map (fun seg => match seg with
                  | Hole k' => if same_placeholder k k' then Text v else seg
                  | Text _ => seg
                  end) segments.

(** The character [c] does not occur in [s]. *)
Definition free_of (c : ascii) (s : string) : Prop :=
  Forall (fun d => d <> c) (String.list_ascii_of_string s).

(** The stretches of text of a template hold no opening brace, so that
    its placeholders are where the braces are. *)
Definition well_cut (segments : list Segment) : Prop :=
  Forall (fun seg => match seg with Text s => free_of "{" s | Hole _ => True end) segments.

(** ** The batch size dialog (extension.ts) *)

(** A character of a string is a code unit below 256; among these, the
    white space and line terminators of ECMAScript: tab, line feed,
    vertical tab, form feed, carriage return, space and no-break space. *)
Definition is_js_space (c : ascii) : bool :=
  let n := nat_of_ascii c in
  ((n =? 9) || (n =? 10) || (n =? 11) || (n =? 12) || (n =? 13) || (n =? 32)
   || (n =? 160))%nat.

Fixpoint trim_start (s : string) : string :=
  match s with
  | String c tl => if is_js_space c then trim_start tl else s
  | EmptyString => ""
  end.

(** The value of a digit in a radix up to 36, if it is one. *)
Definition digit_value (radix : Z) (c : ascii) : option Z :=
  let n := Z.of_nat (nat_of_ascii c) in
  let v := if (48 <=? n) && (n <=? 57) then Some (n - 48)
           else if (97 <=? n) && (n <=? 122) then Some (n - 87)
           else if (65 <=? n) && (n <=? 90) then Some (n - 55)
           else None in
  match v with
  | Some d => if d <? radix then Some d else None
  | None => None
  end.

(** The number written by the longest run of digits at the start of [s];
    [acc] is what was read so far, [None] when no digit was. *)
Fixpoint digits_value (radix : Z) (acc : option Z) (s : string) : option Z :=
  match s with
  | EmptyString => acc
  | String c tl =>
      match digit_value radix c with
      | Some d => digits_value radix (Some (radix * default 0 acc + d)) tl
      | None => acc
      end
  end.

(** [parseInt(text)] without a radix: leading white space, a sign, a
    [0x] prefix for radix 16, then digits up to the first character that
    is none; [None] is [NaN].  (The value is the exact integer; above
    2^53 the engine rounds it, which changes no comparison made here.) *)
Definition parseInt (text : string) : option Z :=
  let s := trim_start text in
  let '(sign, s) :=
    match s with
    | String c tl =>
        if decide (c = "-"%char) then (-1, tl)
        else if decide (c = "+"%char) then (1, tl)
        else (1, s)
    | EmptyString => (1, s)
    end in
  let '(radix, s) :=
    match s with
    | String c (String d tl) =>
        if bool_decide (c = "0"%char)
           && (bool_decide (d = "x"%char) || bool_decide (d = "X"%char))
        then (16, tl) else (10, s)
    | _ => (10, s)
    end in
  match digits_value radix None s with
  | Some n => Some (sign * n)
  | None => None
  end.

(** [validateInput] of the batch size box: the message, or [None] for
    [null]. *)
Definition validateInput (value : string) : option string :=
  match parseInt value with
  | Some num =>
      if (num <? 1) || (50 <? num) then Some "Batch size must be between 1 and 50"
      else None
  | None => Some "Batch size must be between 1 and 50"
  end.

(** [Math.ceil(uris.length / batchSize)]; [None] when the quotient is no
    finite number. *)
Definition estimatedRequests (n : nat) (batchSize : Z) : option Z :=
  if decide (batchSize = 0) then None
  else Some (- ((- Z.of_nat n) `div` batchSize)).

(** ** [PromptManager.parsePrompt] (promptManager.ts) *)

(** [s.trim()]. *)
Definition trim (s : string) : string :=
  String.string_of_list_ascii
    (rev (JsPath.drop_while is_js_space
            (rev (JsPath.drop_while is_js_space (String.list_ascii_of_string s))))).

(** [s.indexOf(sub, from)], scanning [s] from its index [i] on; [None] is
    [-1]. *)
Fixpoint indexOf_scan (sub s : string) (from i : nat) : option nat :=
  if (from <=? i)%nat && String.prefix sub s then Some i
  else
    match s with
    | EmptyString => if decide (sub = "") then Some i else None
    | String _ tl => indexOf_scan sub tl from (S i)
    end.

Definition indexOf (s sub : string) (from : nat) : option nat :=
  indexOf_scan sub s from 0.

(** [s.substring(start, end)] for indices that are natural numbers: both
    are capped by the length and taken in order. *)
Definition substring (s : string) (start fin : nat) : string :=
  let a := Nat.min start (String.length s) in
  let b := Nat.min fin (String.length s) in
  String.substring (Nat.min a b) (Nat.max a b - Nat.min a b)%nat s.

(** [s.split(sep)] for a separator of one character. *)
Fixpoint split_on (sep : ascii) (s : string) : list string :=
  match s with
  | EmptyString => [""]
  | String c tl =>
      if decide (c = sep) then "" :: split_on sep tl
      else
        match split_on sep tl with
        | first :: rest => String c first :: rest
        | [] => [String c ""]
        end
  end.

(** What is stored under a key of the front matter. *)
Inductive MetaValue := MetaText (s : string) | MetaList (l : list string).

(** One line of the front matter: the assignment it makes, if it has a
    colon. *)
Definition parse_line (line : string) : option (string * MetaValue) :=
  match indexOf line ":" 0 with
  | Some colonIndex =>
      let key := trim (substring line 0 colonIndex) in
      let value := trim (substring line (colonIndex + 1)%nat (String.length line)) in
      Some (key,
            if bool_decide (key = "tags") || bool_decide (key = "model")
            then MetaList (map trim (split_on "," value))
            else MetaText value)
  | None => None
  end.

(** The assignments [metadata[key] = value] made for a front matter, in
    order. *)
Definition parse_frontmatter (frontmatter : string) : list (string * MetaValue) :=
  omap parse_line (split_on (ascii_of_nat 10) frontmatter).

(** [metadata.description] after these assignments: what the last one
    under that key stored. *)
Definition metadata_description (metadata : list (string * MetaValue)) : option string :=
  match last (filter (fun kv => fst kv = "description") metadata) with
  | Some (_, MetaText value) => Some value
  | _ => None
  end.

(** The variables of the loop of [path.basename(path, suffix)]. *)
Record BasenameState := { bs_start : nat; bs_end : option nat; bs_matchedSlash : bool;
                          bs_extIdx : option nat; bs_firstNonSlashEnd : option nat }.

(** That loop, from the last character down; [chars] holds the characters
    still to visit, last first, so the index of its head is the number of
    those behind it. *)
Fixpoint basename_loop (suffix : list ascii) (chars : list ascii) (st : BasenameState)
    : BasenameState :=
  match chars with
  | [] => st
  | code :: rest =>
      let i := length rest in
      if JsPath.is_slash code then
        if negb (bs_matchedSlash st) then
          {| bs_start := S i; bs_end := bs_end st; bs_matchedSlash := bs_matchedSlash st;
             bs_extIdx := bs_extIdx st; bs_firstNonSlashEnd := bs_firstNonSlashEnd st |}
        else basename_loop suffix rest st
      else
        let st1 :=
          match bs_firstNonSlashEnd st with
          | None =>
              {| bs_start := bs_start st; bs_end := bs_end st; bs_matchedSlash := false;
                 bs_extIdx := bs_extIdx st; bs_firstNonSlashEnd := Some (S i) |}
          | Some _ => st
          end in
        let st2 :=
          match bs_extIdx st1 with
          | Some extIdx =>
              if decide (suffix !! extIdx = Some code) then
                match extIdx with
                | O =>
                    {| bs_start := bs_start st1; bs_end := Some i;
                       bs_matchedSlash := bs_matchedSlash st1; bs_extIdx := None;
                       bs_firstNonSlashEnd := bs_firstNonSlashEnd st1 |}
                | S extIdx' =>
                    {| bs_start := bs_start st1; bs_end := bs_end st1;
                       bs_matchedSlash := bs_matchedSlash st1; bs_extIdx := Some extIdx';
                       bs_firstNonSlashEnd := bs_firstNonSlashEnd st1 |}
                end
              else
                {| bs_start := bs_start st1; bs_end := bs_firstNonSlashEnd st1;
                   bs_matchedSlash := bs_matchedSlash st1; bs_extIdx := None;
                   bs_firstNonSlashEnd := bs_firstNonSlashEnd st1 |}
          | None => st1
          end in
        basename_loop suffix rest st2
  end.

(** [path.basename(path, suffix)] of Node, POSIX flavour. *)
Definition basename_ext (path suffix : string) : string :=
  if negb (bool_decide (suffix = ""))
     && (String.length suffix <=? String.length path)%nat then
    if decide (suffix = path) then ""
    else
      let st :=
        basename_loop (String.list_ascii_of_string suffix)
          (rev (String.list_ascii_of_string path))
          {| bs_start := 0%nat; bs_end := None; bs_matchedSlash := true;
             bs_extIdx := Some (String.length suffix - 1)%nat;
             bs_firstNonSlashEnd := None |} in
      let fin :=
        if decide (bs_end st = Some (bs_start st))
        then default 0%nat (bs_firstNonSlashEnd st)
        else default (String.length path) (bs_end st) in
      String.substring (bs_start st) (fin - bs_start st)%nat path
  else JsPath.basename path.

(** [parsePrompt]: the name from the file name, the front matter between
    the first two [---] when the text starts with one, the rest as the
    content.  The prompt it returns carries its [metadata] too, given
    here beside the fields of [Prompt.t]. *)
Definition parsePrompt (fileName content filePath : string)
    : Prompt.t * list (string * MetaValue) :=
  let name := basename_ext fileName ".prompt.md" in
  let '(metadata, promptContent) :=
    if String.prefix "---" content then
      match indexOf content "---" 3 with
      | Some frontmatterEnd =>
          (parse_frontmatter (trim (substring content 3 frontmatterEnd)),
           trim (substring content (frontmatterEnd + 3)%nat (String.length content)))
      | None => ([], content)
      end
    else ([], content) in
  (Prompt.mk name promptContent (metadata_description metadata) filePath, metadata).

(** A text without white space at its ends, and not empty. *)
Definition tidy (s : string) : Prop :=
  match String.list_ascii_of_string s with
  | [] => False
  | c :: _ => is_js_space c = false
  end
  /\ match rev (String.list_ascii_of_string s) with
     | [] => False
     | c :: _ => is_js_space c = false
     end.

(** ** [ChatParticipant] (chatParticipant.ts) *)

(** The loop of [findFilesFromPatterns]: a pattern whose search throws is
    reported on the console and passed over. *)
Fixpoint chat_find (w : World) (patterns : list string) (uris : list Uri)
    : list Effect * list Uri :=
  match patterns with
  | [] => ([], uris)
  | pattern :: rest =>
      match findFiles w (VString pattern) with
      | Ok files => chat_find w rest (uris ++ files)
      | Throw _ =>
          let '(log, found) := chat_find w rest uris in
          (ConsoleError ("Error finding files for pattern " +:+ pattern +:+ ":") :: log,
           found)
      end
  end.

Definition same_uri (a b : Uri) : bool := bool_decide (fsPath a = fsPath b).

(** [Array.from(new Set(...))]: each value once, where it first stands.
    A [Uri] is told apart by its string, from which [Uri.parse] makes it
    again. *)
Fixpoint first_occurrences (seen uris : list Uri) : list Uri :=
  match uris with
  | [] => []
  | uri :: rest =>
      if existsb (same_uri uri) seen then first_occurrences seen rest
      else uri :: first_occurrences (uri :: seen) rest
  end.

Definition findFilesFromPatterns (w : World) (patterns : list string)
    : list Effect * list Uri :=
  let '(log, uris) := chat_find w patterns [] in
  (log, first_occurrences [] uris).





Module Command.
Record t := mk { action : string; args : list string }.
End Command.






(** * Part II: properties *)

(** ** [createBatches] *)

Lemma slice_nonneg {T} (items : list T) (i b : Z) :
  0 <= i -> 0 <= b ->
  JsArray.slice items i (i + b) = take (Z.to_nat b) (drop (Z.to_nat i) items).
Proof.
  intros Hi Hb. unfold JsArray.slice.
  destruct (Z.ltb_spec i 0) as [?|_]; [lia|].
  destruct (Z.ltb_spec (i + b) 0) as [?|_]; [lia|].
  set (len := Z.of_nat (length items)).
  destruct (Z.le_gt_cases len i) as [Hge|Hlt].
  - rewrite (Z.min_r i len) by lia.
    rewrite !drop_ge by lia. by rewrite !take_nil.
  - rewrite (Z.min_l i len) by lia.
    destruct (Z.le_gt_cases (i + b) len) as [Hin|Hout].
    + rewrite Z.min_l by lia. f_equal. lia.
    + rewrite Z.min_r by lia.
      rewrite !take_ge; [done| |]; rewrite length_drop; lia.
Qed.

Section CreateBatches.
Context {T : Type}.
Implicit Types (items : list T) (b k m : nat).

Lemma ceil_div_bounds n b :
  (1 <= b)%nat ->
  (n <= ceil_div n b * b)%nat /\ (ceil_div n b * b < n + b)%nat.
Proof.
  intros Hb. unfold ceil_div.
  pose proof (Nat.div_mod_eq (n + b - 1) b) as E.
  pose proof (Nat.mod_upper_bound (n + b - 1) b ltac:(lia)) as U.
  nia.
Qed.

Lemma concat_windows b items m :
  concat (map (window b items) (seq 0 m)) = take (m * b) items.
Proof.
  induction m as [|m IH]; [done|].
  rewrite seq_S, map_app, concat_app, IH. simpl. rewrite app_nil_r.
  unfold window. rewrite take_take_drop. f_equal. lia.
Qed.

Lemma length_window b items k :
  length (window b items k) = (b `min` (length items - k * b))%nat.
Proof. unfold window. by rewrite length_take, length_drop. Qed.

(** The loop, started after [j] full turns, ends with the [m] windows. *)
Lemma createBatches_loop_windows b items fuel j :
  (1 <= b)%nat ->
  (j <= ceil_div (length items) b)%nat ->
  (ceil_div (length items) b - j <= fuel)%nat ->
  createBatches_loop fuel items (Z.of_nat b) (Z.of_nat (j * b))
    (map (window b items) (seq 0 j))
  = Some (map (window b items) (seq 0 (ceil_div (length items) b))).
Proof.
  intros Hb. revert j.
  pose proof (ceil_div_bounds (length items) b Hb) as [Hlo Hhi].
  induction fuel as [|fuel IH]; intros j Hj Hfuel; simpl.
  - assert (j = ceil_div (length items) b) as -> by lia.
    destruct (Z.ltb_spec (Z.of_nat (ceil_div (length items) b * b))
                (Z.of_nat (length items))); [lia|done].
  - destruct (Z.ltb_spec (Z.of_nat (j * b)) (Z.of_nat (length items))) as [Hlt|Hge].
    + assert (j < ceil_div (length items) b)%nat by nia.
      rewrite slice_nonneg by lia.
      rewrite !Nat2Z.id.
      replace (Z.of_nat (j * b) + Z.of_nat b) with (Z.of_nat (S j * b)) by lia.
      change (take b (drop (j * b) items)) with (window b items j).
      replace (map (window b items) (seq 0 j) ++ [window b items j])
        with (map (window b items) (seq 0 (S j)))
        by (by rewrite seq_S, map_app).
      apply IH; lia.
    + assert (j = ceil_div (length items) b) as -> by nia. done.
Qed.

Lemma createBatches_windows b items :
  (1 <= b)%nat ->
  createBatches items (Z.of_nat b)
  = Some (map (window b items) (seq 0 (ceil_div (length items) b))).
Proof.
  intros Hb. unfold createBatches.
  apply (createBatches_loop_windows b items (length items) 0 Hb); [lia|].
  pose proof (ceil_div_bounds (length items) b Hb). nia.
Qed.

End CreateBatches.

Lemma lookup_windows {T} (b m k : nat) (items batch : list T) :
  map (window b items) (seq 0 m) !! k = Some batch ->
  (k < m)%nat /\ batch = window b items k.
Proof.
  intros H. apply list_lookup_fmap_Some in H as (j & -> & Hj).
  apply lookup_seq in Hj as [-> ?]. done.
Qed.

Lemma between_multiples (b c q r : nat) :
  (1 <= b)%nat -> (r < b)%nat ->
  (q * b + r <= c * b)%nat -> (c * b < q * b + r + b)%nat ->
  c = if (r =? 0)%nat then q else S q.
Proof.
  intros Hb Hr Hlo Hhi.
  assert (Hle : forall x y : nat, (S x <= y)%nat -> (x * b + b <= y * b)%nat).
  { intros x y Hxy. pose proof (Nat.mul_le_mono_r (S x) y b Hxy). simpl in *. lia. }
  destruct (Nat.eqb_spec r 0) as [->|Hnz].
  - destruct (Nat.lt_trichotomy c q) as [Hlt|[->|Hgt]]; [|done|].
    + pose proof (Hle c q Hlt). lia.
    + pose proof (Hle q c Hgt). lia.
  - destruct (Nat.lt_trichotomy c (S q)) as [Hlt|[->|Hgt]]; [|done|].
    + assert (c = q \/ S c <= q)%nat as [->|Hlt'] by lia; [lia|].
      pose proof (Hle c q Hlt'). lia.
    + pose proof (Hle (S q) c Hgt). simpl in *. lia.
Qed.

(** C3: for every list of [n] targets and every batch size [b >= 1],
    [createBatches] returns [ceil(n / b)] batches; the [k]-th batch is the
    [k]-th run of [b] consecutive items of the input, so the batches
    concatenate to the input, every batch but the last has exactly [b]
    items, and the last has [n mod b] items, or [b] when [b] divides [n]. *)
Theorem createBatches_partitions {T} (items : list T) (batchSize : Z) :
  1 <= batchSize ->
  let n := length items in
  let b := Z.to_nat batchSize in
  exists batches,
    createBatches items batchSize = Some batches
    /\ length batches = ceil_div n b
    /\ (n <= length batches * b < n + b)%nat
    /\ concat batches = items
    /\ (forall k batch, batches !! k = Some batch ->
          batch = take b (drop (k * b) items))
    /\ (forall k batch, batches !! k = Some batch -> (S k < length batches)%nat ->
          length batch = b)
    /\ (forall batch, last batches = Some batch ->
          length batch = if (n mod b =? 0)%nat then b else (n mod b)%nat).
Proof.
  intros Hb n b.
  assert (Hb' : (1 <= b)%nat) by (subst b; lia).
  pose proof (ceil_div_bounds n b Hb') as [Hlo Hhi].
  exists (map (window b items) (seq 0 (ceil_div n b))).
  assert (Hlen : length (map (window b items) (seq 0 (ceil_div n b))) = ceil_div n b)
    by (by rewrite length_map, length_seq).
  split; [|split; [|split; [|split; [|split; [|split]]]]].
  - subst n. rewrite <- (createBatches_windows b items Hb'). f_equal. subst b. lia.
  - exact Hlen.
  - rewrite Hlen. lia.
  - rewrite concat_windows. apply take_ge. fold n. lia.
  - intros k batch Hk. by apply lookup_windows in Hk as [_ ->].
  - intros k batch Hk Hnext. rewrite Hlen in Hnext.
    apply lookup_windows in Hk as [_ ->].
    rewrite length_window. fold n. nia.
  - intros batch Hlast. rewrite last_lookup, Hlen in Hlast.
    apply lookup_windows in Hlast as [Hlt ->].
    rewrite length_window. fold n.
    pose proof (Nat.div_mod_eq n b) as Hdm.
    pose proof (Nat.mod_upper_bound n b ltac:(lia)) as Hr.
    rewrite (Nat.mul_comm b) in Hdm.
    pose proof (between_multiples b (ceil_div n b) (n / b) (n mod b) Hb' Hr
                  ltac:(lia) ltac:(lia)) as Hc.
    remember (n / b)%nat as q eqn:Hq in *.
    destruct (Nat.eqb_spec (n mod b) 0) as [Hz|Hnz];
      rewrite Hc in Hlt |- *; [|simpl; lia].
    destruct q as [|q']; simpl in *; lia.
Qed.

(** The call of C3 on five targets in batches of two. *)
Lemma createBatches_partitions_witness :
  exists batches,
    createBatches [1; 2; 3; 4; 5] 2 = Some batches
    /\ length batches = 3%nat
    /\ concat batches = [1; 2; 3; 4; 5].
Proof.
  destruct (createBatches_partitions [1; 2; 3; 4; 5] 2 ltac:(lia))
    as (batches & Hrun & Hlen & _ & Hcat & _).
  exists batches. split; [exact Hrun|]. split; [exact Hlen | exact Hcat].
Defined.

(** With a batch size below one the loop never leaves, unless there is
    nothing to batch. *)
Lemma createBatches_loop_stuck {T} (items : list T) (batchSize i : Z) fuel batches :
  batchSize <= 0 -> i <= 0 -> items <> [] ->
  createBatches_loop fuel items batchSize i batches = None.
Proof.
  intros Hb. revert i batches.
  induction fuel as [|fuel IH]; intros i batches Hi Hne; simpl;
    destruct (Z.ltb_spec i (Z.of_nat (length items))) as [_|Hge];
    try done; try (apply IH; [lia|done]);
    destruct items; simpl in *; try done; lia.
Qed.

(** ** Calls that log and may throw *)

Lemma io_bind_eq {A B} (m : IO A) (k : A -> IO B) :
  io_bind m k
  = match snd m with
    | Ok a => (fst m ++ fst (k a), snd (k a))
    | Throw e => (fst m, Throw e)
    end.
Proof. destruct m as [log [a|e]]; simpl; [|done]. by destruct (k a). Qed.

Lemma io_try_catch_eq {A} (body : IO A) (handler : JsThrown -> IO A) :
  io_try_catch body handler
  = match snd body with
    | Ok a => (fst body, Ok a)
    | Throw e => (fst body ++ fst (handler e), snd (handler e))
    end.
Proof. destruct body as [log [a|e]]; simpl; [done|]. by destruct (handler e). Qed.

Lemma io_bind_throws {A B} (m : IO A) (k : A -> IO B) e :
  snd (io_bind m k) = Throw e ->
  snd m = Throw e \/ exists a, snd m = Ok a /\ snd (k a) = Throw e.
Proof. rewrite io_bind_eq. destruct (snd m); simpl; naive_solver. Qed.

Lemma io_bind_returns {A B} (m : IO A) (k : A -> IO B) b :
  snd (io_bind m k) = Ok b -> exists a, snd m = Ok a /\ snd (k a) = Ok b.
Proof. rewrite io_bind_eq. destruct (snd m); simpl; naive_solver. Qed.

Lemma io_bind_log {A B} (P : Effect -> Prop) (m : IO A) (k : A -> IO B) :
  Forall P (fst m) -> (forall a, snd m = Ok a -> Forall P (fst (k a))) ->
  Forall P (fst (io_bind m k)).
Proof.
  intros Hm Hk. rewrite io_bind_eq. destruct (snd m); simpl; [|done].
  apply Forall_app. eauto.
Qed.

Ltac io_cases :=
  repeat first
    [ progress (rewrite ?io_bind_eq, ?io_try_catch_eq; simpl)
    | match goal with
      | |- context [match ?x with _ => _ end] => destruct x eqn:?; simpl
      end ].

(** ** One item *)

Lemma getFileContent_log w uri :
  Forall (fun e => is_io e = true) (fst (getFileContent w uri)).
Proof.
  unfold getFileContent, io_lift, io_log, io_ret, io_throw.
  io_cases; repeat constructor.
Qed.

(** Whatever reading throws reaches the caller as an [Error] whose
    message names the target and the cause. *)
Lemma getFileContent_throws w uri e :
  snd (getFileContent w uri) = Throw e ->
  exists cause,
    e = new_Error ("Failed to read " +:+ fsPath uri +:+ ": " +:+ thrown_toString cause)
    /\ (fs_stat w uri = Throw cause \/ fs_readDirectory w uri = Throw cause
        \/ fs_readFile w uri = Throw cause).
Proof.
  unfold getFileContent. rewrite io_try_catch_eq, !io_bind_eq. simpl.
  destruct (fs_stat w uri) as [stat|cause] eqn:Hstat; simpl.
  - case_decide; simpl.
    + destruct (fs_readDirectory w uri) as [entries|cause] eqn:Hdir; simpl.
      * discriminate.
      * intros [= <-]. eauto.
    + destruct (fs_readFile w uri) as [text|cause] eqn:Hfile; simpl.
      * discriminate.
      * intros [= <-]. eauto 6.
  - intros [= <-]. eauto.
Qed.

Lemma sendRequest_log w p request :
  Forall (fun e => is_io e = true) (fst (sendRequest w p request)).
Proof. unfold sendRequest, io_throw. io_cases; repeat constructor. Qed.

(** Whatever a backend call throws is an [Error]. *)
Lemma sendRequest_throws w p request e :
  snd (sendRequest w p request) = Throw e -> exists message, e = new_Error message.
Proof.
  unfold sendRequest, sendVSCodeLMRequest, sendOllamaRequest, io_throw.
  io_cases; intros H; try discriminate; injection H as <-; eauto.
Qed.

Lemma saveResult_log w uri result type item :
  Forall (fun e => is_io e = true) (fst (saveResult w uri result type item)).
Proof.
  unfold saveResult. rewrite io_try_catch_eq.
  destruct (workspaceFolder w) as [folder|]; simpl; [|constructor].
  rewrite ?io_bind_eq; simpl.
  destruct (fsp_mkdir w _) as [[]|e]; simpl.
  - rewrite ?io_bind_eq; simpl.
    destruct (fsp_writeFile w _ _) as [[]|e]; simpl; repeat constructor.
  - repeat constructor.
Qed.

(** A failure to save goes no further. *)
Lemma saveResult_returns w uri result type item :
  snd (saveResult w uri result type item) = Ok tt.
Proof.
  unfold saveResult. rewrite io_try_catch_eq.
  destruct (workspaceFolder w) as [folder|]; simpl; [|done].
  rewrite ?io_bind_eq; simpl.
  destruct (fsp_mkdir w _) as [[]|e]; simpl; [|done].
  rewrite ?io_bind_eq; simpl. by destruct (fsp_writeFile w _ _) as [[]|e].
Qed.

Lemma buildPrompt_throws w uri content type item e :
  buildPrompt w uri content type item = Throw e ->
  e = new_TypeError "Cannot read properties of undefined (reading 'replace')".
Proof. unfold buildPrompt. destruct (promptTemplate_of _ _ _); congruence. Qed.

(** The [try] block of [processItem] only throws [Error]s. *)
Lemma processItem_try_throws w p uri type item model e :
  snd (processItem_try w p uri type item model) = Throw e ->
  exists name message, e = ErrorObj name message.
Proof.
  unfold processItem_try. intros H.
  apply io_bind_throws in H as [H|(content & _ & H)].
  { apply getFileContent_throws in H as (cause & -> & _). by eexists _, _. }
  apply io_bind_throws in H as [H|(prompt & _ & H)].
  { apply buildPrompt_throws in H as ->. by eexists _, _. }
  apply io_bind_throws in H as [H|(response & _ & H)].
  { apply sendRequest_throws in H as [message ->]. by eexists _, _. }
  apply io_bind_throws in H as [H|(u & _ & H)]; [|discriminate].
  by rewrite saveResult_returns in H.
Qed.

Lemma processItem_try_returns w p uri type item model value :
  snd (processItem_try w p uri type item model) = Ok value ->
  ProcessingResult.uri value = uri /\ ProcessingResult.success value = true.
Proof.
  unfold processItem_try. intros H.
  apply io_bind_returns in H as (content & _ & H).
  apply io_bind_returns in H as (prompt & _ & H).
  apply io_bind_returns in H as (response & _ & H).
  apply io_bind_returns in H as (u & _ & H).
  by injection H as <-.
Qed.

Lemma processItem_try_log w p uri type item model :
  Forall (fun e => is_io e = true) (fst (processItem_try w p uri type item model)).
Proof.
  unfold processItem_try.
  apply io_bind_log; [apply getFileContent_log|intros content _].
  apply io_bind_log; [constructor|intros prompt _].
  apply io_bind_log; [apply sendRequest_log|intros response _].
  apply io_bind_log; [apply saveResult_log|intros u _]. constructor.
Qed.

Lemma processItem_log w p uri type item model :
  Forall (fun e => is_io e = true) (fst (processItem w p uri type item model)).
Proof.
  unfold processItem. rewrite io_try_catch_eq.
  pose proof (processItem_try_log w p uri type item model).
  destruct (snd (processItem_try _ _ _ _ _ _)); simpl; [done|].
  by rewrite app_nil_r.
Qed.

(** What [processItem] resolves to: the value of its [try] block, or the
    failed record of its [catch]. *)
Lemma processItem_value w p uri type item model :
  snd (processItem w p uri type item model)
  = Ok (match snd (processItem_try w p uri type item model) with
        | Ok value => value
        | Throw error => failed_result uri (message_or "Unknown error" error)
        end).
Proof.
  unfold processItem. rewrite io_try_catch_eq.
  by destruct (snd (processItem_try _ _ _ _ _ _)).
Qed.

Lemma item_outcome_value w p type item model uri :
  snd (processItem w p uri type item model) = Ok (item_outcome w p type item model uri).
Proof. unfold item_outcome. by rewrite processItem_value. Qed.

Lemma item_outcome_uri w p type item model uri :
  ProcessingResult.uri (item_outcome w p type item model uri) = uri.
Proof.
  pose proof (item_outcome_value w p type item model uri) as H.
  rewrite processItem_value in H. injection H as <-.
  destruct (snd (processItem_try _ _ _ _ _ _)) eqn:Htry; [|done].
  by apply processItem_try_returns in Htry as [-> _].
Qed.

(** ** Calls arriving during a run *)

Lemma calm_step_refl this : active this -> calm_step this [] this.
Proof. intros H. repeat split; try apply H; simpl; [by rewrite orb_false_r|done]. Qed.

Lemma calm_step_trans this1 log1 this2 log2 this3 :
  calm_step this1 log1 this2 -> calm_step this2 log2 this3 ->
  calm_step this1 (log1 ++ log2) this3.
Proof.
  intros (_ & Hp1 & Hc1 & Hl1) (Ha & Hp2 & Hc2 & Hl2).
  repeat split; try apply Ha.
  - congruence.
  - by rewrite Hc2, Hc1, existsb_app, orb_assoc.
  - by apply Forall_app.
Qed.

Lemma is_io_calm (log : list Effect) :
  Forall (fun e => is_io e = true) log ->
  Forall (fun e => is_calm e = true) log /\ existsb is_cancel log = false.
Proof.
  induction 1 as [|e log He _ [IH1 IH2]]; [done|].
  split; [constructor; [|done]|simpl; rewrite IH2]; by destruct e.
Qed.

Lemma calm_step_io this log :
  active this -> Forall (fun e => is_io e = true) log -> calm_step this log this.
Proof.
  intros Ha [Hcalm Hnc]%is_io_calm.
  repeat split; try apply Ha; [by rewrite Hnc, orb_false_r|done].
Qed.

(** While a run is active, a call from outside is a cancellation request
    or a refused [process()]. *)
Lemma ext_call_calm c this log this' :
  active this -> ext_call c this = (log, this') -> calm_step this log this'.
Proof.
  intros [Hflag [source Htoken]].
  destruct this as [flag token provider]. simpl in *. subst flag token.
  destruct c; simpl; intros [= <- <-].
  - repeat split; simpl; eauto using orb_true_r.
  - repeat split; simpl; eauto using orb_false_r.
Qed.

Lemma ext_calls_calm cs this log this' :
  active this -> ext_calls cs this = (log, this') -> calm_step this log this'.
Proof.
  revert this log this'.
  induction cs as [|c cs IH]; intros this log this' Ha; simpl.
  - intros [= <- <-]. by apply calm_step_refl.
  - destruct (ext_call c this) as [log1 this1] eqn:H1.
    destruct (ext_calls cs this1) as [log2 this2] eqn:H2.
    intros [= <- <-].
    pose proof (ext_call_calm _ _ _ _ Ha H1) as Hs1.
    eapply calm_step_trans; [exact Hs1|]. apply IH; [apply Hs1|done].
Qed.

(** Whatever the state, such calls leave the provider alone and do
    nothing to any item. *)
Lemma ext_calls_outside cs this log this' :
  ext_calls cs this = (log, this') ->
  BatchProcessor.llmProvider this' = BatchProcessor.llmProvider this
  /\ Forall (fun e => is_item_effect e = false) log.
Proof.
  revert this log this'.
  induction cs as [|c cs IH]; intros this log this'; simpl.
  - by intros [= <- <-].
  - destruct (ext_call c this) as [log1 this1] eqn:H1.
    destruct (ext_calls cs this1) as [log2 this2] eqn:H2.
    intros [= <- <-]. apply IH in H2 as [Hp2 Hl2].
    assert (BatchProcessor.llmProvider this1 = BatchProcessor.llmProvider this
            /\ Forall (fun e => is_item_effect e = false) log1) as [Hp1 Hl1].
    { destruct c; simpl in H1.
      - unfold cancel in H1.
        destruct (BatchProcessor.cancellationToken this); injection H1 as <- <-;
          split; try done; by repeat constructor.
      - unfold process_enter in H1.
        destruct (BatchProcessor.isProcessing this); injection H1 as <- <-;
          split; try done; by repeat constructor. }
    split; [congruence|by apply Forall_app].
Qed.

(** ** A batch in flight *)

Lemma await_batch_calm promises events this slots log this' slots' :
  active this ->
  Forall (fun p : IO ProcessingResult.t => Forall (fun e => is_io e = true) (fst p))
    promises ->
  await_batch promises events this slots = (log, this', slots') ->
  calm_step this log this'.
Proof.
  intros Ha Hio. revert this slots log this' slots' Ha.
  induction events as [|[c|i] events IH]; intros this slots log this' slots' Ha; simpl.
  - intros [= <- <- <-]. by apply calm_step_refl.
  - destruct (ext_call c this) as [log1 this1] eqn:H1.
    destruct (await_batch promises events this1 slots) as [[log2 this2] slots2] eqn:H2.
    intros [= <- <- <-].
    pose proof (ext_call_calm _ _ _ _ Ha H1) as Hs1.
    eapply calm_step_trans; [exact Hs1|]. eapply IH; [apply Hs1|done].
  - destruct (promises !! i) as [[ilog r]|] eqn:Hp; [|by apply IH].
    destruct (slots !! i) as [[v|]|] eqn:Hs; [by apply IH| |by apply IH].
    destruct (await_batch promises events this _) as [[log2 this2] slots2] eqn:H2.
    intros [= <- <- <-].
    eapply calm_step_trans; [|by eapply IH].
    apply calm_step_io; [done|].
    by apply (Forall_lookup_1 _ _ _ _ Hio Hp).
Qed.

Lemma await_batch_slots promises events this slots log this' slots' :
  await_batch promises events this slots = (log, this', slots') ->
  slots_ok promises slots -> slots_ok promises slots'.
Proof.
  revert this slots log this' slots'.
  induction events as [|[c|i] events IH]; intros this slots log this' slots'; simpl.
  - by intros [= <- <- <-].
  - destruct (ext_call c this) as [log1 this1].
    destruct (await_batch promises events this1 slots) as [[log2 this2] slots2] eqn:H2.
    intros [= <- <- <-]. by eapply IH.
  - destruct (promises !! i) as [[ilog r]|] eqn:Hp; [|by apply IH].
    destruct (slots !! i) as [[v|]|] eqn:Hs; [by apply IH| |by apply IH].
    destruct (await_batch promises events this _) as [[log2 this2] slots2] eqn:H2.
    intros [= <- <- <-] [Hlen Hval]. eapply IH; [done|].
    split; [by rewrite length_insert|].
    intros j v Hj. destruct (decide (i = j)) as [->|Hne].
    + rewrite list_lookup_insert_eq in Hj by (by eapply lookup_lt_Some).
      injection Hj as <-. by exists (ilog, r).
    + rewrite list_lookup_insert_ne in Hj by done. by apply Hval.
Qed.

(** A slot once written stays as it is. *)
Lemma await_batch_keeps promises events this slots log this' slots' i v :
  await_batch promises events this slots = (log, this', slots') ->
  slots !! i = Some (Some v) -> slots' !! i = Some (Some v).
Proof.
  revert this slots log this' slots'.
  induction events as [|[c|j] events IH]; intros this slots log this' slots'; simpl.
  - by intros [= <- <- <-].
  - destruct (ext_call c this) as [log1 this1].
    destruct (await_batch promises events this1 slots) as [[log2 this2] slots2] eqn:H2.
    intros [= <- <- <-]. by eapply IH.
  - destruct (promises !! j) as [[ilog r]|] eqn:Hp; [|by apply IH].
    destruct (slots !! j) as [[u|]|] eqn:Hs; [by apply IH| |by apply IH].
    destruct (await_batch promises events this _) as [[log2 this2] slots2] eqn:H2.
    intros [= <- <- <-] Hi. eapply IH; [done|].
    rewrite list_lookup_insert_ne; [done|]. intros ->. congruence.
Qed.

(** The slot of an item that settles is written. *)
Lemma await_batch_settles promises events this slots log this' slots' i :
  await_batch promises events this slots = (log, this', slots') ->
  length slots = length promises -> (i < length promises)%nat ->
  In (Settle i) events ->
  exists v, slots' !! i = Some (Some v).
Proof.
  revert this slots log this' slots'.
  induction events as [|[c|j] events IH]; intros this slots log this' slots'; simpl.
  - by intros _ _ _ [].
  - destruct (ext_call c this) as [log1 this1].
    destruct (await_batch promises events this1 slots) as [[log2 this2] slots2] eqn:H2.
    intros [= <- <- <-] Hlen Hi [Hin|Hin]; [done|]. by eapply IH.
  - intros Hrun Hlen Hi Hin.
    destruct (decide (j = i)) as [Heq|Hne]; [subst j|].
    + destruct (promises !! i) as [[ilog r]|] eqn:Hp.
      2:{ apply lookup_ge_None in Hp. lia. }
      destruct (slots !! i) as [[v|]|] eqn:Hs.
      3:{ apply lookup_ge_None in Hs. lia. }
      * exists v. by eapply await_batch_keeps.
      * destruct (await_batch promises events this _) as [[log2 this2] slots2] eqn:H2.
        injection Hrun as <- <- <-. exists (settle r).
        eapply await_batch_keeps; [done|].
        apply list_lookup_insert_eq. lia.
    + destruct Hin as [[= ?]|Hin]; [done|].
      destruct (promises !! j) as [[ilog r]|] eqn:Hp; [|by eapply IH].
      destruct (slots !! j) as [[u|]|] eqn:Hs; [by eapply IH| |by eapply IH].
      destruct (await_batch promises events this _) as [[log2 this2] slots2] eqn:H2.
      injection Hrun as <- <- <-. eapply IH; [done| |done|done].
      by rewrite length_insert.
Qed.

Lemma all_settled_Some {A} (slots : list (option A)) (l : list A) :
  all_settled slots = Some l <-> slots = map Some l.
Proof.
  revert l. induction slots as [|[a|] slots IH]; intros l; simpl.
  - split; [by intros [= <-]|by destruct l].
  - destruct (all_settled slots) as [l'|] eqn:E.
    + split.
      * intros [= <-]. simpl. f_equal. by apply IH.
      * destruct l as [|b l]; [done|]. intros [= -> H]. f_equal. f_equal.
        apply IH in H. congruence.
    + split; [done|]. destruct l as [|b l]; [done|]. intros [= -> H].
      apply IH in H. congruence.
  - split; [done|]. by destruct l.
Qed.

Lemma all_settled_filled {A} (slots : list (option A)) :
  (forall i, (i < length slots)%nat -> exists v, slots !! i = Some (Some v)) ->
  exists l, all_settled slots = Some l.
Proof.
  induction slots as [|s slots IH]; intros H; simpl; [eauto|].
  destruct (H 0%nat ltac:(simpl; lia)) as [v [= ->]].
  destruct IH as [l ->]; [|eauto].
  intros i Hi. apply (H (S i)). simpl. lia.
Qed.

(** When [allSettled] resolves, its result holds the result of each
    promise of the batch, in the order of the batch. *)
Lemma all_settled_in_order promises slots batchResults :
  slots_ok promises slots -> all_settled slots = Some batchResults ->
  batchResults = map (fun p => settle (snd p)) promises.
Proof.
  intros [Hlen Hval] ->%all_settled_Some.
  rewrite length_map in Hlen.
  apply list_eq_same_length with (length promises); [by rewrite length_map|done|].
  intros i v v' _ Hv Hv'.
  destruct (Hval i v) as (p & Hp & ->).
  { by rewrite list_lookup_fmap, Hv. }
  rewrite list_lookup_fmap, Hp in Hv'. by injection Hv' as <-.
Qed.

(** ** The loop over the batches *)

Lemma quiet_calm (log : list Effect) :
  Forall (fun e => is_quiet e = true) log ->
  Forall (fun e => is_calm e = true) log /\ existsb is_cancel log = false.
Proof.
  induction 1 as [|e log He _ [IH1 IH2]]; [done|].
  apply andb_prop in He as [Hcalm Hnc]. apply negb_true_iff in Hnc.
  split; [by constructor|]. simpl. by rewrite Hnc, IH2.
Qed.

Lemma calm_step_quiet this log :
  active this -> Forall (fun e => is_quiet e = true) log -> calm_step this log this.
Proof.
  intros Ha [Hcalm Hnc]%quiet_calm.
  repeat split; try apply Ha; [by rewrite Hnc, orb_false_r|done].
Qed.

Lemma dispatched_app (l1 l2 : list Effect) :
  dispatched (l1 ++ l2) = dispatched l1 ++ dispatched l2.
Proof. apply omap_app. Qed.

Lemma dispatched_calm (log : list Effect) :
  Forall (fun e => is_calm e = true) log -> dispatched log = [].
Proof. induction 1 as [|[] log He _ IH]; try done. Qed.

Lemma calm_inner (log : list Effect) :
  Forall (fun e => is_calm e = true) log -> Forall (fun e => is_inner e = true) log.
Proof. intros H. eapply Forall_impl; [exact H|]. by intros []. Qed.

Lemma well_cancelled_app (c : bool) (l1 l2 : list Effect) :
  well_cancelled c (l1 ++ l2)
  = well_cancelled c l1 && well_cancelled (c || existsb is_cancel l1) l2.
Proof.
  revert c. induction l1 as [|e l1 IH]; intros c; simpl.
  - by rewrite orb_false_r.
  - by rewrite IH, andb_assoc, orb_assoc.
Qed.

Lemma well_cancelled_calm (c : bool) (log : list Effect) :
  Forall (fun e => is_calm e = true) log -> well_cancelled c log = true.
Proof.
  intros H. revert c. induction H as [|e log He _ IH]; intros c; simpl; [done|].
  rewrite IH, andb_true_r. by destruct e.
Qed.

(** The inner loop over a batch whose promises were all fulfilled: one
    result and one progress report per item, in the order of the batch. *)
Lemma record_results_fulfilled (f : Uri -> ProcessingResult.t) (batch : list Uri)
    (log : list Effect) (l : Locals) :
  exists plog l',
    foldl record_result (log, l) (zip batch (map (fun uri => Fulfilled (f uri)) batch))
    = (log ++ plog, l')
    /\ results l' = results l ++ map f batch
    /\ processedCount l' = processedCount l + Z.of_nat (length batch)
    /\ Forall (fun e => is_quiet e = true) plog.
Proof.
  revert log l. induction batch as [|uri batch IH]; intros log l; simpl.
  - exists [], l. rewrite !app_nil_r. repeat split; [lia|done].
  - destruct (IH (log ++ [Progress (processedCount l + 1)])
                {| results := results l ++ [f uri];
                   totalTokens := totalTokens l + num_or (ProcessingResult.tokens (f uri)) 0;
                   processedCount := processedCount l + 1 |})
      as (plog & l' & -> & Hres & Hcount & Hquiet).
    exists (Progress (processedCount l + 1) :: plog), l'. simpl in *.
    repeat split.
    + by rewrite <- app_assoc.
    + by rewrite Hres, <- app_assoc.
    + lia.
    + by constructor.
Qed.

Lemma slots_ok_fresh promises : slots_ok promises (replicate (length promises) None).
Proof.
  split; [by rewrite length_replicate|].
  intros i v [? _]%lookup_replicate. done.
Qed.

(** What a loop that was left has done: it dispatched the first [k]
    batches of [rest] and no other, recorded the outcome of each of their
    items in order, and stopped short of the end only on a cancelled token. *)
Lemma run_batches_left w type item model batchSize n rest :
  forall idx this l log this' l',
    active this ->
    run_batches w type item model batchSize n idx rest this l
    = (log, LoopLeft, this', l') ->
    exists k,
      (k <= length rest)%nat
      /\ results l'
         = results l
           ++ map (item_outcome w (BatchProcessor.llmProvider this) type item model)
                (concat (take k rest))
      /\ processedCount l' = processedCount l + Z.of_nat (length (concat (take k rest)))
      /\ dispatched log = seq idx k
      /\ well_cancelled (cancellation_requested this) log = true
      /\ ((k < length rest)%nat -> cancellation_requested this' = true)
      /\ active this'
      /\ BatchProcessor.llmProvider this' = BatchProcessor.llmProvider this
      /\ cancellation_requested this'
         = cancellation_requested this || existsb is_cancel log
      /\ Forall (fun e => is_inner e = true) log.
Proof.
  induction rest as [|batch rest IH]; intros idx this l log this' l' Ha; simpl.
  { intros [= <- <- <-]. exists 0%nat. simpl.
    rewrite app_nil_r, orb_false_r. repeat split; try done; try lia; apply Ha. }
  destruct (cancellation_requested this) eqn:Hc.
  { intros [= <- <- <-]. exists 0%nat. simpl.
    rewrite app_nil_r, Hc. repeat split; try done; try lia; apply Ha. }
  set (promises := map (fun uri => processItem w (BatchProcessor.llmProvider this)
                                     uri type item model) batch).
  destruct (await_batch promises (during_batch w idx) this _)
    as [[log1 this1] slots] eqn:Hawait.
  destruct (all_settled slots) as [batchResults|] eqn:Hall; [|discriminate].
  assert (Hs1 : calm_step this log1 this1).
  { eapply await_batch_calm; [done| |done].
    apply Forall_fmap, Forall_forall. intros uri _. apply processItem_log. }
  assert (batchResults
          = map (fun uri => Fulfilled (item_outcome w (BatchProcessor.llmProvider this)
                                         type item model uri)) batch) as ->.
  { rewrite (all_settled_in_order promises slots batchResults); [|  |done].
    - unfold promises. rewrite map_map. apply map_ext. intros uri.
      by rewrite item_outcome_value.
    - eapply await_batch_slots; [done|]. apply slots_ok_fresh. }
  destruct (record_results_fulfilled
              (item_outcome w (BatchProcessor.llmProvider this) type item model)
              batch [] l) as (log2 & l2 & -> & Hres2 & Hcount2 & Hquiet2).
  simpl.
  destruct (if (Z.of_nat idx <? Z.of_nat n - 1) && (1 <? batchSize)
            then let '(log, this') := ext_calls (during_delay w idx) this1 in
                 (Delay 1000 :: log, this')
            else ([], this1)) as [log3 this3] eqn:Hdelay.
  assert (Hs3 : calm_step this1 log3 this3).
  { destruct ((Z.of_nat idx <? Z.of_nat n - 1) && (1 <? batchSize)).
    - destruct (ext_calls (during_delay w idx) this1) as [dlog this''] eqn:Hext.
      injection Hdelay as <- <-.
      apply (calm_step_trans this1 [Delay 1000] this1 dlog this'').
      + apply calm_step_quiet; [apply Hs1|by repeat constructor].
      + eapply ext_calls_calm; [apply Hs1|done].
    - injection Hdelay as <- <-. apply calm_step_refl, Hs1. }
  assert (Hmid : calm_step this (log1 ++ log2 ++ log3) this3).
  { eapply calm_step_trans; [exact Hs1|].
    eapply calm_step_trans; [|exact Hs3].
    apply calm_step_quiet; [apply Hs1|done]. }
  destruct (run_batches w type item model batchSize n (S idx) rest this3 l2)
    as [[[log4 fin] this4] l4] eqn:Hrec.
  intros [= <- -> <- <-].
  destruct Hmid as (Ha3 & Hp3 & Hc3 & Hcalm).
  destruct (IH _ _ _ _ _ _ Ha3 Hrec)
    as (k & Hk & Hres & Hcount & Hdisp & Hwell & Hearly & Ha4 & Hp4 & Hc4 & Hinner).
  rewrite Hc in Hc3. simpl in Hc3.
  replace (log1 ++ log2 ++ log3 ++ log4) with ((log1 ++ log2 ++ log3) ++ log4)
    by (by rewrite <- !app_assoc).
  exists (S k). simpl. repeat split.
  - lia.
  - rewrite Hres, Hres2, Hp3, map_app. by rewrite <- app_assoc.
  - rewrite Hcount, Hcount2, length_app. lia.
  - rewrite dispatched_app, (dispatched_calm _ Hcalm), Hdisp. done.
  - rewrite well_cancelled_app, (well_cancelled_calm _ _ Hcalm). simpl.
    by rewrite <- Hc3.
  - intros Hlt. apply Hearly. lia.
  - apply Ha4.
  - apply Ha4.
  - congruence.
  - by rewrite Hc4, Hc3, !existsb_app.
  - constructor; [done|]. apply Forall_app. split; [by apply calm_inner|done].
Qed.

(** When every item settles, the loop is left. *)
Lemma run_batches_leaves w type item model batchSize n rest :
  forall idx this l,
    (forall j batch i, rest !! j = Some batch -> (i < length batch)%nat ->
       In (Settle i) (during_batch w (idx + j))) ->
    exists log this' l',
      run_batches w type item model batchSize n idx rest this l
      = (log, LoopLeft, this', l').
Proof.
  induction rest as [|batch rest IH]; intros idx this l Hfair; simpl; [eauto|].
  destruct (cancellation_requested this); [eauto|].
  set (promises := map (fun uri => processItem w (BatchProcessor.llmProvider this)
                                     uri type item model) batch).
  destruct (await_batch promises (during_batch w idx) this _)
    as [[log1 this1] slots] eqn:Hawait.
  destruct (all_settled_filled slots) as [batchResults ->].
  { pose proof (await_batch_slots _ _ _ _ _ _ _ Hawait (slots_ok_fresh promises))
      as [Hlen _].
    intros i Hi. eapply await_batch_settles; [done| | |].
    - by rewrite length_replicate.
    - lia.
    - replace idx with (idx + 0)%nat by lia.
      apply (Hfair 0%nat batch i); [done|].
      unfold promises in Hlen. rewrite length_map in Hlen. lia. }
  destruct (foldl record_result _ _) as [log2 l2].
  destruct (if (Z.of_nat idx <? Z.of_nat n - 1) && (1 <? batchSize)
            then let '(log, this') := ext_calls (during_delay w idx) this1 in
                 (Delay 1000 :: log, this')
            else ([], this1)) as [log3 this3].
  destruct (IH (S idx) this3 l2) as (log4 & this4 & l4 & ->); [|eauto].
  intros j batch' i Hj Hi.
  replace (S idx + j)%nat with (idx + S j)%nat by lia. by apply (Hfair (S j) batch' i).
Qed.

(** ** Model selection *)

Lemma refreshAvailableModels_log w p log p' :
  refreshAvailableModels w p = (log, p') ->
  Forall (fun e => is_quiet e = true /\ is_item_effect e = false
                   /\ is_rejection e = false) log.
Proof.
  unfold refreshAvailableModels.
  destruct (LLMProvider.provider p).
  - destruct (lm_selectChatModels w _); intros [= <- <-]; repeat constructor.
  - destruct (axios_get_tags w _) as [[names|]|]; intros [= <- <-]; repeat constructor.
  - intros [= <- <-]. constructor.
Qed.

Lemma selectModel_log w p log p' selected :
  selectModel w p = (log, p', selected) ->
  Forall (fun e => is_quiet e = true /\ is_item_effect e = false
                   /\ is_rejection e = false) log.
Proof.
  unfold selectModel, getAvailableModels.
  destruct (match LLMProvider.availableModels p with
            | [] => refreshAvailableModels w p
            | _ :: _ => ([], p)
            end) as [log0 p0] eqn:Hget.
  assert (Forall (fun e => is_quiet e = true /\ is_item_effect e = false
                   /\ is_rejection e = false) log0) as Hlog0.
  { destruct (LLMProvider.availableModels p).
    - by eapply refreshAvailableModels_log.
    - injection Hget as <- <-. constructor. }
  destruct (LLMProvider.availableModels p0) as [|m [|m' models]];
    intros [= <- <- <-]; try done.
  apply Forall_app. split; [done|]. by repeat constructor.
Qed.

(** ** The [try] block of a run *)

(** All the ways through [process_try], with what was met on the way:
    1. a summary is returned; 2. the dialogs throw; 3. the dialogs never
    answer; 4. a batch never settles; 5. batching never ends; 6. no model;
    7. model selection throws; 8. model selection never answers. *)
Ltac process_try_cases H :=
  unfold process_try in H;
  destruct (ext_calls (during_selectModel _) _) as [log0 this0] eqn:Hpre;
  destruct (selectModel _ _) as [[log1 provider1] selected] eqn:Hsel;
  destruct selected as [selectedModel|thrown|];
  [ destruct (is_truthy_str selectedModel) eqn:Htruthy; simpl in H;
    [ destruct (createBatches _ _) as [batches|] eqn:Hbatches;
      [ destruct (run_batches _ _ _ _ _ _ _ _ _ _) as [[[log2 fin] this2] l] eqn:Hloop;
        destruct fin;
        [ destruct (ext_calls (during_showResults _) _) as [log3 this3] eqn:Hpost;
          destruct (showResults_dialogs _ _) as [[]|thrown|] eqn:Hshow
        | ]
      | ]
    | ]
  | | ];
  simplify_eq.

Lemma truthy_model (selected : option string) :
  is_truthy_str selected = true -> selected = Some (str_interp selected).
Proof. by destruct selected. Qed.

Lemma active_with_llmProvider this p :
  active this -> active (with_llmProvider this p).
Proof. by intros []. Qed.

(** What stands behind a returned summary. *)
Lemma process_try_returned w this uris type item batchSize log this' summary :
  active this -> cancellation_requested this = false ->
  process_try w this uris type item batchSize = (log, this', Returned summary) ->
  exists batches k model provider log1,
    selectModel w (BatchProcessor.llmProvider this)
    = (log1, provider, Returned (Some model))
    /\ createBatches uris batchSize = Some batches
    /\ (k <= length batches)%nat
    /\ BatchResult.results summary
       = map (item_outcome w provider type item model) (concat (take k batches))
    /\ BatchResult.totalProcessed summary
       = Z.of_nat (length (concat (take k batches)))
    /\ dispatched log = seq 0 k
    /\ well_cancelled false log = true
    /\ ((k < length batches)%nat -> existsb is_cancel log = true)
    /\ Forall (fun e => is_inner e = true) log
    /\ active this'.
Proof.
  intros Ha Hc H. process_try_cases H.
  pose proof (ext_calls_calm _ _ _ _ Ha Hpre) as (Ha0 & Hp0 & Hc0 & Hcalm0).
  rewrite Hp0 in Hsel. rewrite Hc in Hc0. simpl in Hc0.
  pose proof (selectModel_log _ _ _ _ _ Hsel) as Hlog1.
  assert (Hquiet1 : Forall (fun e => is_quiet e = true) log1)
    by (eapply Forall_impl; [exact Hlog1|by intros ? (? & ? & ?)]).
  apply quiet_calm in Hquiet1 as [Hcalm1 Hnc1].
  apply (run_batches_left _ _ _ _ _ _ _ _ _ _ _ _ _
           (active_with_llmProvider _ provider1 Ha0)) in Hloop
    as (k & Hk & Hres & Hcount & Hdisp & Hwell & Hearly & Ha2 & Hp2 & Hc2 & Hinner2).
  change (cancellation_requested (with_llmProvider this0 provider1))
    with (cancellation_requested this0) in *.
  pose proof (ext_calls_calm _ _ _ _ Ha2 Hpost) as (Ha3 & Hp3 & Hc3 & Hcalm3).
  exists batches, k, (str_interp selectedModel), provider1, log1.
  simpl in Hres, Hcount. repeat split.
  - by rewrite <- (truthy_model _ Htruthy).
  - done.
  - done.
  - simpl. by rewrite Hres, length_map.
  - rewrite !dispatched_app, (dispatched_calm _ Hcalm0), (dispatched_calm _ Hcalm1),
      (dispatched_calm _ Hcalm3), Hdisp. by rewrite app_nil_r.
  - rewrite !well_cancelled_app, (well_cancelled_calm _ _ Hcalm0),
      (well_cancelled_calm _ _ Hcalm1), (well_cancelled_calm _ _ Hcalm3).
    simpl. by rewrite Hnc1, orb_false_r, <- Hc0, Hwell.
  - intros Hlt. specialize (Hearly Hlt). rewrite Hc2, Hc0 in Hearly.
    rewrite !existsb_app, Hnc1. simpl.
    destruct (existsb is_cancel log0), (existsb is_cancel log2); done.
  - rewrite !Forall_app. auto using calm_inner.
  - apply Ha3.
  - apply Ha3.
Qed.

(** Whenever the [try] block completes, its log holds no claim, no
    release and no nested run. *)
Lemma process_try_completed w this uris type item batchSize log this' outcome :
  active this ->
  process_try w this uris type item batchSize = (log, this', outcome) ->
  outcome <> Pending -> Forall (fun e => is_inner e = true) log.
Proof.
  intros Ha H Hdone. process_try_cases H; try done;
    pose proof (ext_calls_calm _ _ _ _ Ha Hpre) as (Ha0 & Hp0 & Hc0 & Hcalm0);
    pose proof (selectModel_log _ _ _ _ _ Hsel) as Hlog1;
    assert (Hcalm1 : Forall (fun e => is_calm e = true) log1)
      by (apply quiet_calm; eapply Forall_impl; [exact Hlog1|by intros ? (? & ? & ?)]).
  1,2: apply (run_batches_left _ _ _ _ _ _ _ _ _ _ _ _ _
                (active_with_llmProvider _ provider1 Ha0)) in Hloop
         as (k & _ & _ & _ & _ & _ & _ & Ha2 & _ & _ & Hinner2);
       pose proof (ext_calls_calm _ _ _ _ Ha2 Hpost) as (_ & _ & _ & Hcalm3).
  all: rewrite !Forall_app; auto using calm_inner.
Qed.

(** ** The run *)

Lemma process_enter_idle this :
  isCurrentlyProcessing this = false ->
  exists this1,
    process_enter this = Ok this1 /\ active this1
    /\ cancellation_requested this1 = false
    /\ BatchProcessor.llmProvider this1 = BatchProcessor.llmProvider this.
Proof.
  unfold isCurrentlyProcessing, process_enter. intros ->.
  eexists. split; [done|]. repeat split; simpl; eauto.
Qed.

(** A run that completes: its [try] block, then the [finally] block. *)
Lemma process_completed w this uris type item batchSize log this' outcome :
  isCurrentlyProcessing this = false ->
  process w this uris type item batchSize = (log, this', outcome) ->
  outcome <> Pending ->
  exists this1 inner this2,
    process_enter this = Ok this1 /\ active this1
    /\ cancellation_requested this1 = false
    /\ BatchProcessor.llmProvider this1 = BatchProcessor.llmProvider this
    /\ process_try w this1 uris type item batchSize = (inner, this2, outcome)
    /\ log = Claimed :: inner ++ [Released]
    /\ this' = process_finally this2.
Proof.
  intros Hidle Hrun Hdone.
  destruct (process_enter_idle this Hidle) as (this1 & Henter & Ha & Hc & Hp).
  unfold process in Hrun. rewrite Henter in Hrun.
  destruct (process_try w this1 uris type item batchSize) as [[inner this2] out] eqn:Htry.
  exists this1, inner, this2.
  destruct out; simplify_eq; done.
Qed.

Lemma existsb_is_cancel (log : list Effect) :
  existsb is_cancel log = true <-> In CancelRequested log.
Proof.
  rewrite existsb_exists. split.
  - intros (e & Hin & He). by destruct e.
  - intros Hin. by exists CancelRequested.
Qed.

Lemma well_cancelled_after (log : list Effect) :
  well_cancelled true log = true -> dispatched log = [].
Proof.
  induction log as [|e log IH]; [done|]. simpl. rewrite orb_false_r.
  intros [He Hlog]%andb_prop. destruct e; try done; by apply IH.
Qed.

(** In a log that is [well_cancelled], nothing is dispatched after a
    cancellation request. *)
Lemma well_cancelled_sound (c : bool) (log before after : list Effect) :
  well_cancelled c log = true -> log = before ++ CancelRequested :: after ->
  dispatched after = [].
Proof.
  intros Hwell ->. rewrite well_cancelled_app in Hwell.
  apply andb_prop in Hwell as [_ Hwell]. simpl in Hwell.
  rewrite orb_true_r in Hwell. by apply well_cancelled_after.
Qed.

Lemma concat_take_prefix {A} (k : nat) (ls : list (list A)) :
  concat (take k ls) = take (length (concat (take k ls))) (concat ls).
Proof.
  assert (concat ls = concat (take k ls) ++ concat (drop k ls)) as ->
    by (by rewrite <- concat_app, take_drop).
  by rewrite take_app_length.
Qed.

(** The batches of a run are its targets, cut up. *)
Lemma createBatches_concat {T} (items : list T) (batchSize : Z) batches :
  createBatches items batchSize = Some batches -> concat batches = items.
Proof.
  intros H. destruct (Z.le_gt_cases 1 batchSize) as [Hb|Hb].
  - rewrite <- (Z2Nat.id batchSize), createBatches_windows in H by lia.
    injection H as <-. rewrite concat_windows. apply take_ge.
    pose proof (ceil_div_bounds (length items) (Z.to_nat batchSize)). lia.
  - destruct items as [|x items]; [by injection H as <-|].
    unfold createBatches in H.
    by rewrite createBatches_loop_stuck in H by (done || lia).
Qed.

(** C2: every invocation of [process] that starts a run and completes,
    whether it returns (all batches done, or cancelled) or throws (no model,
    model selection or the result dialogs failing), has released the
    run-active flag and the cancellation handle exactly once, as its last
    step: afterwards [isCurrentlyProcessing] is false, there is no token
    source, and the log is one claim, then effects that are neither a claim
    nor a release, then one release. *)
Theorem run_flag_released_on_every_exit w this uris type item batchSize
    log this' outcome :
  isCurrentlyProcessing this = false ->
  process w this uris type item batchSize = (log, this', outcome) ->
  outcome <> Pending ->
  isCurrentlyProcessing this' = false
  /\ BatchProcessor.cancellationToken this' = None
  /\ length (List.filter is_release log) = 1%nat
  /\ exists inner,
       log = Claimed :: inner ++ [Released]
       /\ Forall (fun e => is_inner e = true) inner.
Proof.
  intros Hidle Hrun Hdone.
  destruct (process_completed _ _ _ _ _ _ _ _ _ Hidle Hrun Hdone)
    as (this1 & inner & this2 & _ & Ha & _ & _ & Htry & -> & ->).
  pose proof (process_try_completed _ _ _ _ _ _ _ _ _ Ha Htry Hdone) as Hinner.
  repeat split; [|by exists inner].
  simpl. rewrite List.filter_app. simpl.
  replace (List.filter is_release inner) with (@nil Effect); [done|].
  symmetry. clear -Hinner.
  induction Hinner as [|e inner He _ IH]; [done|]. simpl. by destruct e.
Qed.

(** C2 on the demonstration run, which is cancelled half-way. *)
Lemma run_flag_released_on_every_exit_witness :
  let '(log, this', outcome) :=
    process (demo_world ["gpt"]) (demo_engine false) demo_targets KPrompt demo_prompt 2 in
  isCurrentlyProcessing this' = false
  /\ BatchProcessor.cancellationToken this' = None
  /\ length (List.filter is_release log) = 1%nat.
Proof.
  destruct (process (demo_world ["gpt"]) (demo_engine false) demo_targets KPrompt
              demo_prompt 2) as [[log this'] outcome] eqn:Hrun.
  destruct (run_flag_released_on_every_exit (demo_world ["gpt"]) (demo_engine false)
              demo_targets KPrompt demo_prompt 2 log this' outcome eq_refl Hrun)
    as (Hflag & Htoken & Honce & _).
  - vm_compute in Hrun. by injection Hrun as <- <- <-.
  - done.
Defined.

(** C6: when no model can be resolved ([selectModel] comes back with
    nothing: no model was found, or the choice was dismissed), [process]
    throws "No model selected" with the engine released, and the run has
    read no target, called no backend, written nothing to the result sink,
    dispatched no batch and reported no progress. *)
Theorem no_model_fails_before_any_item w this uris type item batchSize
    log1 provider selected :
  isCurrentlyProcessing this = false ->
  selectModel w (BatchProcessor.llmProvider this) = (log1, provider, Returned selected) ->
  is_truthy_str selected = false ->
  exists log this',
    process w this uris type item batchSize
    = (log, this', Threw (new_Error "No model selected"))
    /\ List.filter is_item_effect log = []
    /\ dispatched log = []
    /\ isCurrentlyProcessing this' = false
    /\ BatchProcessor.cancellationToken this' = None.
Proof.
  intros Hidle Hsel Hfalsy.
  destruct (process_enter_idle this Hidle) as (this1 & Henter & Ha & Hc & Hp).
  unfold process, process_try. rewrite Henter.
  destruct (ext_calls (during_selectModel w) this1) as [log0 this0] eqn:Hpre.
  pose proof (ext_calls_outside _ _ _ _ Hpre) as [Hp0 Hlog0].
  pose proof (ext_calls_calm _ _ _ _ Ha Hpre) as (_ & _ & _ & Hcalm0).
  rewrite Hp0, Hp, Hsel, Hfalsy. simpl.
  pose proof (selectModel_log _ _ _ _ _ Hsel) as Hlog1.
  eexists _, _. split; [done|]. repeat split.
  - simpl. rewrite !List.filter_app. simpl.
    assert (Hnone : forall l : list Effect,
               Forall (fun e => is_item_effect e = false) l ->
               List.filter is_item_effect l = []).
    { induction 1 as [|e l He _ IH]; [done|]. simpl. by rewrite He. }
    rewrite (Hnone log0 Hlog0), (Hnone log1); [done|].
    eapply Forall_impl; [exact Hlog1|by intros ? (? & ? & ?)].
  - change (dispatched (Claimed :: (log0 ++ log1) ++ [Released]))
      with (dispatched ((log0 ++ log1) ++ [Released])).
    rewrite !dispatched_app, (dispatched_calm _ Hcalm0). simpl.
    rewrite dispatched_calm; [done|].
    apply quiet_calm. eapply Forall_impl; [exact Hlog1|by intros ? (? & ? & ?)].
Qed.

(** C6 where model discovery finds no model. *)
Lemma no_model_fails_before_any_item_witness :
  exists log this',
    process (demo_world []) (demo_engine false) demo_targets KPrompt demo_prompt 2
    = (log, this', Threw (new_Error "No model selected"))
    /\ List.filter is_item_effect log = [].
Proof.
  destruct (no_model_fails_before_any_item (demo_world []) (demo_engine false)
              demo_targets KPrompt demo_prompt 2
              [UiError "No models available for vscode.lm"]
              (LLMProvider.mk VscodeLm "http://localhost:11434" []) None
              eq_refl eq_refl eq_refl)
    as (log & this' & Hrun & Hnone & _).
  by exists log, this'.
Defined.

(** C4: the results of a returned summary are in target order.  Their
    targets are those of the first [k] batches, a prefix of the input,
    whatever the order in which the items of a batch settled; when no
    cancellation was requested they are all the targets, the [i]-th result
    being that of the [i]-th target. *)
Theorem results_in_target_order w this uris type item batchSize log this' summary :
  isCurrentlyProcessing this = false ->
  process w this uris type item batchSize = (log, this', Returned summary) ->
  exists batches k,
    createBatches uris batchSize = Some batches
    /\ (k <= length batches)%nat
    /\ map ProcessingResult.uri (BatchResult.results summary) = concat (take k batches)
    /\ map ProcessingResult.uri (BatchResult.results summary)
       = take (length (BatchResult.results summary)) uris
    /\ (~ In CancelRequested log ->
        map ProcessingResult.uri (BatchResult.results summary) = uris).
Proof.
  intros Hidle Hrun.
  destruct (process_completed _ _ _ _ _ _ _ _ _ Hidle Hrun ltac:(done))
    as (this1 & inner & this2 & _ & Ha & Hc & _ & Htry & -> & _).
  destruct (process_try_returned _ _ _ _ _ _ _ _ _ Ha Hc Htry)
    as (batches & k & model & provider & log1 & _ & Hbatches & Hk & Hres & _ & _ & _
        & Hearly & _).
  assert (Huris : map ProcessingResult.uri (BatchResult.results summary)
                  = concat (take k batches)).
  { rewrite Hres, map_map. rewrite <- (map_id (concat (take k batches))) at 2.
    apply map_ext. intros uri. apply item_outcome_uri. }
  exists batches, k. repeat split; try done.
  - rewrite <- (length_map ProcessingResult.uri), Huris.
    rewrite <- (createBatches_concat _ _ _ Hbatches). apply concat_take_prefix.
  - intros Hnocancel. rewrite Huris.
    destruct (decide (k < length batches)%nat) as [Hlt|Hge].
    + exfalso. apply Hnocancel. specialize (Hearly Hlt).
      apply existsb_is_cancel in Hearly. simpl. right.
      apply in_or_app. by left.
    + rewrite take_ge by lia. by eapply createBatches_concat.
Qed.

(** C4 on a run whose items settle in reverse order in every batch. *)
Lemma results_in_target_order_witness :
  exists log this' summary,
    process (demo_world_uncancelled ["gpt"]) (demo_engine false) demo_targets KPrompt
      demo_prompt 2 = (log, this', Returned summary)
    /\ map ProcessingResult.uri (BatchResult.results summary) = demo_targets.
Proof.
  destruct (process (demo_world_uncancelled ["gpt"]) (demo_engine false) demo_targets
              KPrompt demo_prompt 2) as [[log this'] outcome] eqn:Hrun.
  assert (exists summary, outcome = Returned summary /\ ~ In CancelRequested log)
    as (summary & -> & Hnocancel).
  { vm_compute in Hrun. injection Hrun as <- <- <-. eexists. split; [done|].
    intros Hin. repeat (destruct Hin as [Hin|Hin]; [discriminate Hin|]). done. }
  destruct (results_in_target_order (demo_world_uncancelled ["gpt"]) (demo_engine false)
              demo_targets KPrompt demo_prompt 2 log this' summary eq_refl Hrun)
    as (batches & k & _ & _ & _ & _ & Hall).
  exists log, this', summary. split; [done|]. by apply Hall.
Defined.

(** C7: cancellation only takes effect between batches.  In a run that
    returns, the batches dispatched are the first [k], in order; nothing
    is dispatched after a cancellation request; every item of each
    dispatched batch, the one in flight when the request came included,
    has its result in the summary; [totalProcessed] is the number of those
    items, at most the number of targets; and batches are left out only
    when a cancellation was requested. *)
Theorem cancellation_between_batches w this uris type item batchSize log this' summary :
  isCurrentlyProcessing this = false ->
  process w this uris type item batchSize = (log, this', Returned summary) ->
  exists batches k,
    createBatches uris batchSize = Some batches
    /\ (k <= length batches)%nat
    /\ dispatched log = seq 0 k
    /\ (forall before after, log = before ++ CancelRequested :: after ->
          dispatched after = [])
    /\ map ProcessingResult.uri (BatchResult.results summary) = concat (take k batches)
    /\ BatchResult.totalProcessed summary = Z.of_nat (length (concat (take k batches)))
    /\ BatchResult.totalProcessed summary <= Z.of_nat (length uris)
    /\ ((k < length batches)%nat -> In CancelRequested log).
Proof.
  intros Hidle Hrun.
  destruct (process_completed _ _ _ _ _ _ _ _ _ Hidle Hrun ltac:(done))
    as (this1 & inner & this2 & _ & Ha & Hc & _ & Htry & -> & _).
  destruct (process_try_returned _ _ _ _ _ _ _ _ _ Ha Hc Htry)
    as (batches & k & model & provider & log1 & _ & Hbatches & Hk & Hres & Htotal
        & Hdisp & Hwell & Hearly & Hinner & _).
  exists batches, k. repeat split; try done.
  - simpl. rewrite dispatched_app, Hdisp. simpl. by rewrite app_nil_r.
  - intros before after Hsplit.
    apply (well_cancelled_sound false (Claimed :: inner ++ [Released]) before after);
      [|done].
    simpl. rewrite well_cancelled_app, Hwell. simpl. done.
  - rewrite Hres, map_map. rewrite <- (map_id (concat (take k batches))) at 2.
    apply map_ext. intros uri. apply item_outcome_uri.
  - rewrite Htotal. apply inj_le.
    rewrite <- (createBatches_concat _ _ _ Hbatches).
    assert (concat batches = concat (take k batches) ++ concat (drop k batches)) as ->
      by (by rewrite <- concat_app, take_drop).
    rewrite length_app. lia.
  - intros Hlt. specialize (Hearly Hlt). apply existsb_is_cancel in Hearly.
    simpl. right. apply in_or_app. by left.
Qed.

(** C7 on the demonstration run: the request comes while the second of
    three batches is in flight; that batch is completed, the third is
    never dispatched, four of the five targets are processed. *)
Lemma cancellation_between_batches_witness :
  exists log this' summary,
    process (demo_world ["gpt"]) (demo_engine false) demo_targets KPrompt demo_prompt 2
    = (log, this', Returned summary)
    /\ dispatched log = [0%nat; 1%nat]
    /\ BatchResult.totalProcessed summary = 4.
Proof.
  destruct (process (demo_world ["gpt"]) (demo_engine false) demo_targets KPrompt
              demo_prompt 2) as [[log this'] outcome] eqn:Hrun.
  assert (exists summary, outcome = Returned summary /\ dispatched log = [0%nat; 1%nat])
    as (summary & -> & Hdemo).
  { vm_compute in Hrun. injection Hrun as <- <- <-. by eexists. }
  destruct (cancellation_between_batches (demo_world ["gpt"]) (demo_engine false)
              demo_targets KPrompt demo_prompt 2 log this' summary eq_refl Hrun)
    as (batches & k & Hbatches & _ & Hdisp & _ & _ & Htotal & _).
  exists log, this', summary. repeat split; [done|].
  rewrite Htotal. rewrite Hdemo in Hdisp.
  assert (k = 2%nat) as -> by (by destruct k as [|[|[|k]]]).
  vm_compute in Hbatches. by injection Hbatches as <-.
Defined.

(** ** Failing items *)

(** Where a throw of the [try] block comes from. *)
Lemma process_try_threw w this uris type item batchSize log this' error :
  process_try w this uris type item batchSize = (log, this', Threw error) ->
  (exists log1 p,
     selectModel w (BatchProcessor.llmProvider this) = (log1, p, Threw error))
  \/ (exists log1 p selected,
        selectModel w (BatchProcessor.llmProvider this) = (log1, p, Returned selected)
        /\ is_truthy_str selected = false
        /\ error = new_Error "No model selected")
  \/ (exists summary, showResults_dialogs w summary = Threw error).
Proof.
  intros H. process_try_cases H;
    pose proof (ext_calls_outside _ _ _ _ Hpre) as [Hp0 _]; rewrite Hp0 in Hsel.
  - right. right. eauto.
  - right. left. eauto 6.
  - left. eauto.
Qed.

(** With a model, batches that all settle and dialogs that answer, the
    [try] block returns a summary. *)
Lemma process_try_returns w this uris type item batchSize log1 provider model batches :
  selectModel w (BatchProcessor.llmProvider this) = (log1, provider, Returned (Some model)) ->
  model <> "" ->
  createBatches uris batchSize = Some batches ->
  every_item_settles w batches ->
  (forall summary, showResults_dialogs w summary = Returned tt) ->
  exists log this' summary,
    process_try w this uris type item batchSize = (log, this', Returned summary).
Proof.
  intros Hsel Hmodel Hbatches Hfair Hshow. unfold process_try.
  destruct (ext_calls (during_selectModel w) this) as [log0 this0] eqn:Hpre.
  pose proof (ext_calls_outside _ _ _ _ Hpre) as [Hp0 _].
  rewrite Hp0, Hsel. simpl.
  rewrite bool_decide_eq_false_2 by done. simpl. rewrite Hbatches.
  destruct (run_batches_leaves w type item model batchSize (length batches) batches 0
              (with_llmProvider this0 provider)
              {| results := []; totalTokens := 0; processedCount := 0 |})
    as (log2 & this2 & l & ->).
  { intros j batch i Hj Hi. by apply (Hfair j batch i). }
  destruct (ext_calls (during_showResults w) this2) as [log3 this3].
  rewrite Hshow. eauto.
Qed.

(** C5: a failing item fails alone.  Whatever is thrown while an item is
    read, its prompt built or the backend called is an [Error], and the
    item's outcome is the failed record carrying that message.  A summary
    holds the outcome of every item of every dispatched batch, which is
    every target unless a cancellation was requested; a run only throws
    when model selection or the result dialogs do, or when there is no
    model; and it returns a summary whenever there is a model, every item
    settles and the dialogs answer, whichever items fail. *)
Theorem item_failures_stay_in_their_outcome w this uris type item batchSize
    log this' outcome :
  isCurrentlyProcessing this = false ->
  process w this uris type item batchSize = (log, this', outcome) ->
  (forall p model uri error,
     snd (processItem_try w p uri type item model) = Throw error ->
     exists name message,
       error = ErrorObj name message
       /\ snd (processItem w p uri type item model) = Ok (failed_result uri message)
       /\ item_outcome w p type item model uri = failed_result uri message)
  /\ (forall summary, outcome = Returned summary ->
      exists batches k model provider log1,
        selectModel w (BatchProcessor.llmProvider this)
        = (log1, provider, Returned (Some model))
        /\ createBatches uris batchSize = Some batches
        /\ BatchResult.results summary
           = map (item_outcome w provider type item model) (concat (take k batches))
        /\ (~ In CancelRequested log ->
            BatchResult.results summary
            = map (item_outcome w provider type item model) uris))
  /\ (forall thrown, outcome = Threw thrown ->
      (exists log1 p,
         selectModel w (BatchProcessor.llmProvider this) = (log1, p, Threw thrown))
      \/ (exists log1 p selected,
            selectModel w (BatchProcessor.llmProvider this)
            = (log1, p, Returned selected)
            /\ is_truthy_str selected = false
            /\ thrown = new_Error "No model selected")
      \/ (exists summary, showResults_dialogs w summary = Threw thrown))
  /\ (forall log1 provider model batches,
        selectModel w (BatchProcessor.llmProvider this)
        = (log1, provider, Returned (Some model)) ->
        model <> "" ->
        createBatches uris batchSize = Some batches ->
        every_item_settles w batches ->
        (forall summary, showResults_dialogs w summary = Returned tt) ->
        exists summary, outcome = Returned summary).
Proof.
  intros Hidle Hrun. split; [|split; [|split]].
  - intros p model uri error Htry.
    destruct (processItem_try_throws _ _ _ _ _ _ _ Htry) as (name & message & ->).
    exists name, message. split; [done|].
    assert (snd (processItem w p uri type item model) = Ok (failed_result uri message))
      as Hvalue by (by rewrite processItem_value, Htry).
    split; [done|]. unfold item_outcome. by rewrite Hvalue.
  - intros summary ->.
    destruct (process_completed _ _ _ _ _ _ _ _ _ Hidle Hrun ltac:(done))
      as (this1 & inner & this2 & _ & Ha & Hc & Hp & Htry & -> & _).
    destruct (process_try_returned _ _ _ _ _ _ _ _ _ Ha Hc Htry)
      as (batches & k & model & provider & log1 & Hsel & Hbatches & Hk & Hres & _ & _
          & _ & Hearly & _).
    rewrite Hp in Hsel.
    exists batches, k, model, provider, log1. repeat split; try done.
    intros Hnocancel. rewrite Hres.
    destruct (decide (k < length batches)%nat) as [Hlt|Hge].
    + exfalso. apply Hnocancel. specialize (Hearly Hlt).
      apply existsb_is_cancel in Hearly. simpl. right. apply in_or_app. by left.
    + rewrite take_ge by lia. by rewrite (createBatches_concat _ _ _ Hbatches).
  - intros thrown ->.
    destruct (process_completed _ _ _ _ _ _ _ _ _ Hidle Hrun ltac:(done))
      as (this1 & inner & this2 & _ & _ & _ & Hp & Htry & _ & _).
    rewrite <- Hp. by eapply process_try_threw.
  - intros log1 provider model batches Hsel Hmodel Hbatches Hfair Hshow.
    destruct (process_enter_idle this Hidle) as (this1 & Henter & _ & _ & Hp).
    rewrite <- Hp in Hsel.
    destruct (process_try_returns w this1 uris type item batchSize _ _ _ _
                Hsel Hmodel Hbatches Hfair Hshow) as (inner & this2 & summary & Htry).
    unfold process in Hrun. rewrite Henter, Htry in Hrun.
    injection Hrun as _ _ <-. by exists summary.
Qed.

(** C5 on the run with nobody cancelling: the second target cannot be
    read, its outcome says so, and the other four are processed. *)
Lemma item_failures_stay_in_their_outcome_witness :
  exists log this' summary,
    process (demo_world_uncancelled ["gpt"]) (demo_engine false) demo_targets KPrompt
      demo_prompt 2 = (log, this', Returned summary)
    /\ map ProcessingResult.success (BatchResult.results summary)
       = [true; false; true; true; true]
    /\ (BatchResult.results summary !! 1%nat) ≫= ProcessingResult.error
       = Some "Failed to read /x/bad.txt: EntryNotFound (FileSystemError): no such file".
Proof.
  destruct (process (demo_world_uncancelled ["gpt"]) (demo_engine false) demo_targets
              KPrompt demo_prompt 2) as [[log this'] outcome] eqn:Hrun.
  destruct (item_failures_stay_in_their_outcome (demo_world_uncancelled ["gpt"])
              (demo_engine false) demo_targets KPrompt demo_prompt 2 log this' outcome
              eq_refl Hrun) as (_ & Hsummary & _ & Hreturns).
  destruct (Hreturns [] (LLMProvider.mk VscodeLm "http://localhost:11434" ["gpt"]) "gpt"
              [[ {| fsPath := "/x/a.txt" |}; {| fsPath := "/x/bad.txt" |} ];
               [ {| fsPath := "/x/c.txt" |}; {| fsPath := "/x/d.txt" |} ];
               [ {| fsPath := "/x/e.txt" |} ]]
              eq_refl ltac:(done) eq_refl) as (summary & ->).
  - intros k batch i Hk Hi.
    destruct k as [|[|[|k]]]; [| | |done]; injection Hk as <-;
      (destruct i as [|[|i]]; simpl in Hi; [| |lia]); simpl; auto; lia.
  - done.
  - exists log, this', summary. split; [done|].
    vm_compute in Hrun. by injection Hrun as <- <- <-.
Defined.

(** ** Promises that never reject *)

(** C10: [processItem] completes with a value on every input, never with
    a throw, so its promise is always fulfilled.  Hence, when the promises
    of a dispatched batch have all settled, each entry of [allSettled]'s
    result is [Fulfilled] with the value [processItem] returned for the
    target at the same index, and the inner loop records exactly those
    values, in order: its branch for a rejected promise is never taken. *)
Theorem processItem_never_rejects w p type item model (batch : list Uri)
    events this log this' slots batchResults :
  let batchPromises := map (fun uri => processItem w p uri type item model) batch in
  await_batch batchPromises events this (replicate (length batchPromises) None)
  = (log, this', slots) ->
  all_settled slots = Some batchResults ->
  (forall uri, exists value,
     snd (processItem w p uri type item model) = Ok value
     /\ settle (snd (processItem w p uri type item model)) = Fulfilled value)
  /\ exists values,
       Forall2 (fun uri value => snd (processItem w p uri type item model) = Ok value)
         batch values
       /\ batchResults = map Fulfilled values
       /\ forall plog l,
            results (snd (foldl record_result (plog, l) (zip batch batchResults)))
            = results l ++ values.
Proof.
  intros batchPromises Hawait Hall. split.
  - intros uri. exists (item_outcome w p type item model uri).
    by rewrite item_outcome_value.
  - exists (map (item_outcome w p type item model) batch). split; [|split].
    + apply Forall2_fmap_r, Forall_Forall2_diag, Forall_forall.
      intros uri _. apply item_outcome_value.
    + rewrite (all_settled_in_order batchPromises slots batchResults); [| |done].
      * unfold batchPromises. rewrite !map_map. apply map_ext. intros uri.
        by rewrite item_outcome_value.
      * eapply await_batch_slots; [done|]. apply slots_ok_fresh.
    + intros plog l.
      rewrite (all_settled_in_order batchPromises slots batchResults); [| |done].
      * unfold batchPromises. rewrite map_map.
        rewrite (map_ext _ (fun uri => Fulfilled (item_outcome w p type item model uri)))
          by (intros uri; by rewrite item_outcome_value).
        destruct (record_results_fulfilled (item_outcome w p type item model)
                    batch plog l) as (plog' & l' & Hfold & Hres & _).
        by rewrite Hfold.
      * eapply await_batch_slots; [done|]. apply slots_ok_fresh.
Qed.

(** C10 on the first batch of the demonstration run, whose second item
    cannot be read. *)
Lemma processItem_never_rejects_witness :
  exists batchResults,
    all_settled
      (snd (await_batch
              (map (fun uri => processItem (demo_world ["gpt"])
                                 (LLMProvider.mk VscodeLm "" ["gpt"]) uri KPrompt
                                 demo_prompt "gpt")
                 (take 2 demo_targets))
              [Settle 1; Settle 0] (demo_engine true) [None; None]))
    = Some batchResults
    /\ map (fun r => match r with Fulfilled v => ProcessingResult.success v
                               | Rejected _ => false end) batchResults
       = [true; false]
    /\ Forall (fun r => exists v, r = Fulfilled v) batchResults.
Proof.
  destruct (await_batch
              (map (fun uri => processItem (demo_world ["gpt"])
                                 (LLMProvider.mk VscodeLm "" ["gpt"]) uri KPrompt
                                 demo_prompt "gpt")
                 (take 2 demo_targets))
              [Settle 1; Settle 0] (demo_engine true) [None; None])
    as [[log this'] slots] eqn:Hawait.
  destruct (all_settled slots) as [batchResults|] eqn:Hall.
  2:{ vm_compute in Hawait. injection Hawait as _ _ <-. discriminate Hall. }
  destruct (processItem_never_rejects (demo_world ["gpt"])
              (LLMProvider.mk VscodeLm "" ["gpt"]) KPrompt demo_prompt "gpt"
              (take 2 demo_targets) [Settle 1; Settle 0] (demo_engine true)
              log this' slots batchResults Hawait Hall)
    as (_ & values & _ & -> & _).
  exists (map Fulfilled values). split; [done|]. split.
  - vm_compute in Hawait. injection Hawait as _ _ <-.
    vm_compute in Hall. injection Hall as Hall.
    destruct values as [|v1 [|v2 [|v3 values]]]; try discriminate Hall.
    injection Hall as <- <-. reflexivity.
  - apply Forall_fmap, Forall_forall. intros v _. by exists v.
Defined.

(** ** A second call during a run *)

Lemma erase_app (l1 l2 : list Effect) :
  erase_rejections (l1 ++ l2) = erase_rejections l1 ++ erase_rejections l2.
Proof. apply List.filter_app. Qed.

Lemma erase_none (log : list Effect) :
  Forall (fun e => is_rejection e = false) log -> erase_rejections log = log.
Proof.
  induction 1 as [|e log He _ IH]; [done|].
  unfold erase_rejections in *. simpl. by rewrite He, IH.
Qed.

Lemma erase_io (log : list Effect) :
  Forall (fun e => is_io e = true) log -> erase_rejections log = log.
Proof.
  intros H. apply erase_none. eapply Forall_impl; [exact H|]. by intros [].
Qed.

Lemma record_result_log entries (plog : list Effect) (l : Locals) :
  exists plog',
    fst (foldl record_result (plog, l) entries) = plog ++ plog'
    /\ Forall (fun e => is_rejection e = false) plog'.
Proof.
  revert plog l. induction entries as [|entry entries IH]; intros plog l; simpl.
  - exists []. by rewrite app_nil_r.
  - destruct (IH (plog ++ [Progress (processedCount l + 1)])
                (match snd entry with
                 | Fulfilled value =>
                     {| results := results l ++ [value];
                        totalTokens := totalTokens l
                                       + num_or (ProcessingResult.tokens value) 0;
                        processedCount := processedCount l + 1 |}
                 | Rejected reason =>
                     {| results := results l
                                   ++ [failed_result (fst entry) (reason_message reason)];
                        totalTokens := totalTokens l;
                        processedCount := processedCount l + 1 |}
                 end)) as (plog' & Hfold & Hnone).
    exists (Progress (processedCount l + 1) :: plog'). split.
    + by rewrite Hfold, <- app_assoc.
    + by constructor.
Qed.

Lemma ext_calls_erase cs this log this' :
  active this -> ext_calls cs this = (log, this') ->
  ext_calls (List.filter keep_call cs) this = (erase_rejections log, this').
Proof.
  revert this log this'.
  induction cs as [|c cs IH]; intros this log this' Ha; simpl.
  - by intros [= <- <-].
  - destruct (ext_call c this) as [log1 this1] eqn:H1.
    destruct (ext_calls cs this1) as [log2 this2] eqn:H2.
    intros [= <- <-]. rewrite erase_app.
    pose proof (ext_call_calm _ _ _ _ Ha H1) as (Ha1 & _).
    specialize (IH _ _ _ Ha1 H2).
    destruct c; simpl in H1 |- *.
    + rewrite H1, IH. f_equal. f_equal.
      unfold cancel in H1. destruct (BatchProcessor.cancellationToken this);
        by injection H1 as <- <-.
    + destruct Ha as [Hflag _]. unfold process_enter in H1.
      rewrite Hflag in H1. injection H1 as <- <-. by rewrite IH.
Qed.

Lemma await_batch_erase promises events this slots log this' slots' :
  active this ->
  Forall (fun p : list Effect * Exn ProcessingResult.t =>
            Forall (fun e => is_io e = true) (fst p)) promises ->
  await_batch promises events this slots = (log, this', slots') ->
  await_batch promises (List.filter keep_event events) this slots
  = (erase_rejections log, this', slots').
Proof.
  intros Ha Hio. revert this slots log this' slots' Ha.
  induction events as [|[c|i] events IH]; intros this slots log this' slots' Ha; simpl.
  - by intros [= <- <- <-].
  - destruct (ext_call c this) as [log1 this1] eqn:H1.
    destruct (await_batch promises events this1 slots) as [[log2 this2] slots2] eqn:H2.
    intros [= <- <- <-]. rewrite erase_app.
    pose proof (ext_call_calm _ _ _ _ Ha H1) as (Ha1 & _).
    specialize (IH _ _ _ _ _ Ha1 H2).
    destruct c; simpl in H1 |- *.
    + rewrite H1, IH. f_equal. f_equal. f_equal.
      unfold cancel in H1. destruct (BatchProcessor.cancellationToken this);
        by injection H1 as <- <-.
    + destruct Ha as [Hflag _]. unfold process_enter in H1.
      rewrite Hflag in H1. injection H1 as <- <-. by rewrite IH.
  - destruct (promises !! i) as [[ilog r]|] eqn:Hp; [|by apply IH].
    destruct (slots !! i) as [[v|]|] eqn:Hs; [by apply IH| |by apply IH].
    destruct (await_batch promises events this _) as [[log2 this2] slots2] eqn:H2.
    intros [= <- <- <-]. rewrite (IH _ _ _ _ _ Ha H2), erase_app.
    by rewrite (erase_io ilog (Forall_lookup_1 _ _ _ _ Hio Hp)).
Qed.

(** Leaving out the [process()] calls that arrive during the loop changes
    nothing but the log's refusals. *)
Lemma run_batches_erase w type item model batchSize n rest :
  forall idx this l log fin this' l',
    active this ->
    run_batches w type item model batchSize n idx rest this l = (log, fin, this', l') ->
    run_batches (without_process_calls w) type item model batchSize n idx rest this l
    = (erase_rejections log, fin, this', l').
Proof.
  induction rest as [|batch rest IH]; intros idx this l log fin this' l' Ha; simpl.
  { by intros [= <- <- <- <-]. }
  destruct (cancellation_requested this); [by intros [= <- <- <- <-]|].
  change (processItem (without_process_calls w)) with (processItem w).
  set (promises := map (fun uri => processItem w (BatchProcessor.llmProvider this)
                                     uri type item model) batch).
  assert (Hio : Forall (fun p : list Effect * Exn ProcessingResult.t =>
                          Forall (fun e => is_io e = true) (fst p)) promises).
  { apply Forall_fmap, Forall_forall. intros uri _. apply processItem_log. }
  destruct (await_batch promises (during_batch w idx) this _)
    as [[log1 this1] slots] eqn:Hawait.
  pose proof (await_batch_calm _ _ _ _ _ _ _ Ha Hio Hawait) as (Ha1 & _).
  rewrite (await_batch_erase _ _ _ _ _ _ _ Ha Hio Hawait).
  destruct (all_settled slots) as [batchResults|]; [|by intros [= <- <- <- <-]].
  destruct (record_result_log (zip batch batchResults) [] l) as (plog & Hfold & Hnone).
  destruct (foldl record_result ([], l) (zip batch batchResults)) as [log2 l2].
  simpl in Hfold. subst log2.
  destruct ((Z.of_nat idx <? Z.of_nat n - 1) && (1 <? batchSize)).
  - destruct (ext_calls (during_delay w idx) this1) as [log3 this3] eqn:Hdelay.
    rewrite (ext_calls_erase _ _ _ _ Ha1 Hdelay).
    pose proof (ext_calls_calm _ _ _ _ Ha1 Hdelay) as (Ha3 & _).
    destruct (run_batches w type item model batchSize n (S idx) rest this3 l2)
      as [[[log4 fin4] this4] l4] eqn:Hrec.
    rewrite (IH _ _ _ _ _ _ _ Ha3 Hrec).
    intros [= <- <- <- <-]. f_equal. f_equal. f_equal.
    change (erase_rejections (BatchDispatched idx :: ?l))
      with (BatchDispatched idx :: erase_rejections l).
    rewrite !erase_app, (erase_none _ Hnone).
    change (erase_rejections (Delay 1000 :: ?l)) with (Delay 1000 :: erase_rejections l).
    by rewrite erase_app.
  - destruct (run_batches w type item model batchSize n (S idx) rest this1 l2)
      as [[[log4 fin4] this4] l4] eqn:Hrec.
    rewrite (IH _ _ _ _ _ _ _ Ha1 Hrec).
    intros [= <- <- <- <-]. f_equal. f_equal. f_equal.
    change (erase_rejections (BatchDispatched idx :: ?l))
      with (BatchDispatched idx :: erase_rejections l).
    rewrite !erase_app, (erase_none _ Hnone). done.
Qed.

Lemma process_try_erase w this uris type item batchSize log this' outcome :
  active this ->
  process_try w this uris type item batchSize = (log, this', outcome) ->
  process_try (without_process_calls w) this uris type item batchSize
  = (erase_rejections log, this', outcome).
Proof.
  intros Ha. unfold process_try.
  change (during_selectModel (without_process_calls w))
    with (List.filter keep_call (during_selectModel w)).
  change (during_showResults (without_process_calls w))
    with (List.filter keep_call (during_showResults w)).
  change (selectModel (without_process_calls w)) with (selectModel w).
  change (summarise (without_process_calls w)) with (summarise w).
  change (showResults_dialogs (without_process_calls w)) with (showResults_dialogs w).
  destruct (ext_calls (during_selectModel w) this) as [log0 this0] eqn:Hpre.
  rewrite (ext_calls_erase _ _ _ _ Ha Hpre).
  pose proof (ext_calls_calm _ _ _ _ Ha Hpre) as (Ha0 & _).
  destruct (selectModel w (BatchProcessor.llmProvider this0))
    as [[log1 provider1] selected] eqn:Hsel.
  assert (Hlog1 : erase_rejections log1 = log1).
  { apply erase_none. eapply Forall_impl; [exact (selectModel_log _ _ _ _ _ Hsel)|].
    by intros e (_ & _ & He). }
  destruct selected as [selectedModel|thrown|];
    [|intros [= <- <- <-]; by rewrite erase_app, Hlog1..].
  destruct (negb (is_truthy_str selectedModel));
    [intros [= <- <- <-]; by rewrite erase_app, Hlog1|].
  destruct (createBatches uris batchSize) as [batches|];
    [|intros [= <- <- <-]; by rewrite erase_app, Hlog1].
  destruct (run_batches w type item (str_interp selectedModel) batchSize
              (length batches) 0 batches (with_llmProvider this0 provider1) _)
    as [[[log2 fin] this2] l] eqn:Hloop.
  rewrite (run_batches_erase _ _ _ _ _ _ _ _ _ _ _ _ _ _
             (active_with_llmProvider _ provider1 Ha0) Hloop).
  destruct fin; [|intros [= <- <- <-]; by rewrite !erase_app, Hlog1].
  assert (Ha2 : active this2).
  { by apply (run_batches_left _ _ _ _ _ _ _ _ _ _ _ _ _
                (active_with_llmProvider _ provider1 Ha0)) in Hloop
      as (k & _ & _ & _ & _ & _ & _ & Ha2 & _). }
  destruct (ext_calls (during_showResults w) this2) as [log3 this3] eqn:Hpost.
  rewrite (ext_calls_erase _ _ _ _ Ha2 Hpost).
  destruct (showResults_dialogs w (summarise w l)) as [[]|thrown|];
    intros [= <- <- <-]; by rewrite !erase_app, Hlog1.
Qed.

(** C1: while a run is active, a call to [process] throws "Another batch
    operation is already in progress" at once, leaving the engine (flag,
    token source, provider) as it was and doing nothing else.  And a run
    is not altered by such calls arriving while it is suspended: it ends
    with the same outcome and the same engine as if they had never been
    made, its log differing only by the refusals; none of them starts a
    second run. *)
Theorem second_process_call_is_refused w this uris type item batchSize
    w1 idle uris1 type1 item1 batchSize1 :
  isCurrentlyProcessing this = true ->
  isCurrentlyProcessing idle = false ->
  process w this uris type item batchSize
  = ([], this, Threw (new_Error "Another batch operation is already in progress"))
  /\ (let '(log, after, outcome) := process w1 idle uris1 type1 item1 batchSize1 in
      process (without_process_calls w1) idle uris1 type1 item1 batchSize1
      = (erase_rejections log, after, outcome)
      /\ (outcome <> Pending -> ~ In NestedRun log)).
Proof.
  intros Hactive Hidle. split.
  - unfold process, process_enter. unfold isCurrentlyProcessing in Hactive.
    by rewrite Hactive.
  - destruct (process w1 idle uris1 type1 item1 batchSize1)
      as [[log after] outcome] eqn:Hrun.
    destruct (process_enter_idle idle Hidle) as (this1 & Henter & Ha & _).
    split.
    + unfold process in *. rewrite Henter in *.
      destruct (process_try w1 this1 uris1 type1 item1 batchSize1)
        as [[inner this2] out] eqn:Htry.
      rewrite (process_try_erase _ _ _ _ _ _ _ _ _ Ha Htry).
      destruct out; injection Hrun as <- <- <-; try done;
        change (erase_rejections (Claimed :: ?l)) with (Claimed :: erase_rejections l);
        by rewrite erase_app.
    + intros Hdone Hnested.
      destruct (process_completed _ _ _ _ _ _ _ _ _ Hidle Hrun Hdone)
        as (this1' & inner & this2 & Henter' & Ha' & _ & _ & Htry & -> & _).
      pose proof (process_try_completed _ _ _ _ _ _ _ _ _ Ha' Htry Hdone) as Hinner.
      destruct Hnested as [[=]|Hnested].
      apply in_app_or in Hnested as [Hnested|[[=]|[]]].
      rewrite Forall_forall in Hinner. apply list_elem_of_In in Hnested.
      by specialize (Hinner _ Hnested).
Qed.

(** C1 on the demonstration run, which two [process()] calls try to join. *)
Lemma second_process_call_is_refused_witness :
  process (demo_world ["gpt"]) (demo_engine true) demo_targets KPrompt demo_prompt 2
  = ([], demo_engine true,
     Threw (new_Error "Another batch operation is already in progress"))
  /\ snd (process (without_process_calls (demo_world ["gpt"])) (demo_engine false)
            demo_targets KPrompt demo_prompt 2)
     = snd (process (demo_world ["gpt"]) (demo_engine false) demo_targets KPrompt
              demo_prompt 2).
Proof.
  destruct (second_process_call_is_refused (demo_world ["gpt"]) (demo_engine true)
              demo_targets KPrompt demo_prompt 2 (demo_world ["gpt"])
              (demo_engine false) demo_targets KPrompt demo_prompt 2 eq_refl eq_refl)
    as [Hrefused Hsame].
  split; [exact Hrefused|].
  destruct (process (demo_world ["gpt"]) (demo_engine false) demo_targets KPrompt
              demo_prompt 2) as [[log after] outcome].
  destruct Hsame as [-> _]. reflexivity.
Defined.

(** ** Prompt templates *)

(** The example of the specification: each placeholder gives way to its
    value, and text in braces that is no placeholder (another name, or a
    placeholder's name in lower case) stays. *)
Lemma buildPrompt_example w :
  buildPrompt w {| fsPath := "/x/y/report.txt" |} "hi" KPrompt
    (ItemPrompt (Prompt.mk "doc" "A:{{FILE_NAME}} B:{{FILE_CONTENT}}" None "/p"))
  = Ok "A:report.txt B:hi"
  /\ buildPrompt w {| fsPath := "/x/y/report.txt" |} "hi" KPrompt
       (ItemPrompt (Prompt.mk "doc" "{{FOO}} {{file_name}} {{FILE_PATH}} {{FILE_PATH}}"
                      None "/p"))
     = Ok "{{FOO}} {{file_name}} /x/y/report.txt /x/y/report.txt".
Proof. split; reflexivity. Qed.

Lemma buildPrompt_workspace :
  buildPrompt (demo_world []) {| fsPath := "/x/y/report.txt" |} "hi" KPrompt
    (ItemPrompt (Prompt.mk "doc" "{{FILE_NAME}} in {{WORKSPACE_PATH}}" None "/p"))
  = Ok "report.txt in /ws".
Proof. reflexivity. Qed.

(** A task without a prompt of its own gets the default template, which
    names the command and ends with the content. *)
Lemma buildPrompt_task_default w :
  buildPrompt w {| fsPath := "/x/y/report.txt" |} "hi" KTask
    (ItemTask (Task.mk (Some "Lint") "eslint" None))
  = Ok ("Execute task: eslint" +:+ JsString.nl +:+ JsString.nl
        +:+ "File content:" +:+ JsString.nl +:+ "hi").
Proof. reflexivity. Qed.

(** A replacement text without a dollar sign stands for itself. *)
Lemma getSubstitution_plain matched before after replacement :
  Forall (fun c => c <> "$"%char) (String.list_ascii_of_string replacement) ->
  JsString.getSubstitution matched before after replacement = replacement.
Proof.
  induction replacement as [|c tl IH]; simpl; [done|].
  intros [Hc Htl]%Forall_cons. rewrite decide_False by done. by rewrite IH.
Qed.

(** C8 (every occurrence of a placeholder is replaced by its value, the
    content included) does not hold of the source: the values are handed to
    [replace] as replacement texts, in which [$$], [$&], [$`] and [$'] are
    patterns, and each later [replace] also rewrites what the earlier ones
    put in.  So a content of [cost: $$5] is inserted as [cost: $5], a
    content with [$&] or [$'] gets the placeholder or the rest of the
    template in their place, and a content that quotes [{{FILE_PATH}}]
    comes out with the target's path instead. *)
Theorem buildPrompt_rewrites_inserted_content w :
  buildPrompt w {| fsPath := "/x/y/price.txt" |} "cost: $$5" KPrompt
    (ItemPrompt (Prompt.mk "review" "Review: {{FILE_CONTENT}}" None "/p"))
  = Ok "Review: cost: $5"
  /\ buildPrompt w {| fsPath := "/x/y/price.txt" |} "see $& and $'" KPrompt
       (ItemPrompt (Prompt.mk "review" "<{{FILE_CONTENT}}>" None "/p"))
     = Ok "<see {{FILE_CONTENT}} and >>"
  /\ buildPrompt w {| fsPath := "/x/y/notes.md" |} "use {{FILE_PATH}} here" KPrompt
       (ItemPrompt (Prompt.mk "review" "Review: {{FILE_CONTENT}}" None "/p"))
     = Ok "Review: use /x/y/notes.md here"
  /\ buildPrompt w {| fsPath := "/x/y/price.txt" |} "cost: $$5" KPrompt
       (ItemPrompt (Prompt.mk "review" "Review: {{FILE_CONTENT}}" None "/p"))
     <> Ok ("Review: " +:+ "cost: $$5").
Proof. repeat split; try reflexivity. discriminate. Qed.

(** ** The batch tool of the MCP server *)

(** For a prompt, the two caller-input errors are as specified: an
    unknown name is reported as not found, a known one with no matching
    file as no files found, and in both cases no run is started. *)
Lemma batch_process_files_prompt_errors w server item_name file_patterns
    batch_size requestId :
  truthy item_name = true ->
  let args := {| arg_type := VString "prompt"; arg_item_name := item_name;
                 arg_file_patterns := VArray file_patterns;
                 arg_batch_size := batch_size |} in
  (getPrompt (MCPServer.promptManager server) item_name = None ->
   exists reply,
     handleBatchProcessFiles w server args requestId
     = ([], server, Returned reply)
     /\ is_ItemNotFound KPrompt item_name reply)
  /\ (forall prompt,
        getPrompt (MCPServer.promptManager server) item_name = Some prompt ->
        find_files w file_patterns [] = Ok [] ->
        exists reply,
          handleBatchProcessFiles w server args requestId
          = ([], server, Returned reply)
          /\ is_NoMatchingFiles reply).
Proof.
  intros Hname args. unfold handleBatchProcessFiles, lookup_item. simpl.
  rewrite Hname. simpl. split.
  - intros ->. by eexists.
  - intros prompt -> ->. by eexists.
Qed.

(** For a task, the lookup throws before anything is looked up: whatever
    the name and the task list, the reply is an internal error and no run
    is started. *)
Lemma batch_process_files_task_internal_error w server item_name
    file_patterns batch_size requestId :
  truthy item_name = true ->
  handleBatchProcessFiles w server
    {| arg_type := VString "task"; arg_item_name := item_name;
       arg_file_patterns := VArray file_patterns; arg_batch_size := batch_size |}
    requestId
  = ([], server,
     Returned (error_response (-32603) (not_callable_message w item_name) requestId)).
Proof.
  intros Hname. unfold handleBatchProcessFiles, lookup_item. simpl.
  by rewrite Hname.
Qed.

(** C9 (an unknown operation is reported as not found, an empty target
    set as no matching files) does not hold of the source for tasks: the
    handler hands the task's name itself to [Array.prototype.find], which
    throws a [TypeError] whatever the task list holds, and the handler's
    [catch] turns it into an internal error (code -32603).  So for
    [type = "task"] the reply is neither the "not found" nor the "no files"
    error (code -32602), whether or not the task exists and whether or not
    a file matches.  No run is started. *)
Theorem batch_process_files_task_lookup_throws w server requestId :
  let args := {| arg_type := VString "task"; arg_item_name := VString "lint";
                 arg_file_patterns := VArray [VString "**/*.ts"];
                 arg_batch_size := None |} in
  let reply :=
    error_response (-32603) (not_callable_message w (VString "lint")) requestId in
  handleBatchProcessFiles w server args requestId
  = ([], server, Returned reply)
  /\ ~ is_ItemNotFound KTask (VString "lint") reply
  /\ ~ is_NoMatchingFiles reply.
Proof. intros args reply. repeat split; [intros [=]..]. Qed.

(** * Part III: further properties of the code *)

(** ** One turn of the loop over the batches *)

Lemma sum_tokens_app (rs1 rs2 : list ProcessingResult.t) :
  sum_tokens (rs1 ++ rs2) = sum_tokens rs1 + sum_tokens rs2.
Proof. induction rs1 as [|r rs1 IH]; simpl; [done|]. rewrite IH. lia. Qed.

Lemma progress_from_S (count : Z) (n : nat) :
  progress_from count (S n) = Progress (count + 1) :: progress_from (count + 1) n.
Proof.
  unfold progress_from. simpl. f_equal.
  rewrite <- (fmap_S_seq 1 n), <- list_fmap_compose. apply map_ext.
  intros i. simpl. f_equal. lia.
Qed.

(** The inner loop over a batch whose promises were all fulfilled, in full. *)
Lemma record_results_exact (f : Uri -> ProcessingResult.t) (batch : list Uri)
    (log : list Effect) (l : Locals) :
  foldl record_result (log, l) (zip batch (map (fun uri => Fulfilled (f uri)) batch))
  = (log ++ progress_from (processedCount l) (length batch), recorded l (map f batch)).
Proof.
  revert log l. induction batch as [|uri batch IH]; intros log l.
  - destruct l as [rs tt pc]. unfold recorded, progress_from. simpl.
    rewrite !app_nil_r. do 2 f_equal; lia.
  - cbn [map zip zip_with foldl length]. unfold record_result at 2.
    cbn [snd fst]. rewrite IH, progress_from_S, <- app_assoc.
    f_equal. unfold recorded. cbn [results totalTokens processedCount map length].
    rewrite <- app_assoc. f_equal; simpl; lia.
Qed.

Lemma ext_calls_log cs this log this' :
  ext_calls cs this = (log, this') -> Forall (fun e => is_call_effect e = true) log.
Proof.
  revert this log this'.
  induction cs as [|c cs IH]; intros this log this'; simpl.
  - by intros [= <- <-].
  - destruct (ext_call c this) as [log1 this1] eqn:H1.
    destruct (ext_calls cs this1) as [log2 this2] eqn:H2.
    intros [= <- <-]. apply Forall_app. split; [|by eapply IH].
    destruct c; simpl in H1.
    + unfold cancel in H1. destruct (BatchProcessor.cancellationToken this);
        injection H1 as <- <-; by repeat constructor.
    + destruct (process_enter this); injection H1 as <- <-; by repeat constructor.
Qed.

Lemma ext_call_provider c this log this' :
  ext_call c this = (log, this') ->
  BatchProcessor.llmProvider this' = BatchProcessor.llmProvider this.
Proof.
  intros H. apply (ext_calls_outside [c] this log this'). simpl.
  rewrite H. by rewrite app_nil_r.
Qed.

Lemma await_batch_log promises events this slots log this' slots' :
  Forall (fun p : list Effect * Exn ProcessingResult.t =>
            Forall (fun e => is_io e = true) (fst p)) promises ->
  await_batch promises events this slots = (log, this', slots') ->
  Forall (fun e => is_in_flight e = true) log
  /\ BatchProcessor.llmProvider this' = BatchProcessor.llmProvider this.
Proof.
  intros Hio. revert this slots log this' slots'.
  induction events as [|[c|i] events IH]; intros this slots log this' slots'; simpl.
  - by intros [= <- <- <-].
  - destruct (ext_call c this) as [log1 this1] eqn:H1.
    destruct (await_batch promises events this1 slots) as [[log2 this2] slots2] eqn:H2.
    intros [= <- <- <-]. destruct (IH _ _ _ _ _ H2) as [Hlog2 Hp2].
    split; [|by rewrite Hp2; eapply ext_call_provider].
    apply Forall_app. split; [|done].
    pose proof (ext_calls_log [c] this log1 this1) as Hlog1. simpl in Hlog1.
    rewrite H1, app_nil_r in Hlog1. specialize (Hlog1 eq_refl).
    eapply Forall_impl; [exact Hlog1|]. intros e He. unfold is_in_flight.
    by rewrite He, orb_true_r.
  - destruct (promises !! i) as [[ilog r]|] eqn:Hp; [|by apply IH].
    destruct (slots !! i) as [[v|]|] eqn:Hs; [by apply IH| |by apply IH].
    destruct (await_batch promises events this _) as [[log2 this2] slots2] eqn:H2.
    intros [= <- <- <-]. destruct (IH _ _ _ _ _ H2) as [Hlog2 Hp2].
    split; [|done]. apply Forall_app. split; [|done].
    eapply Forall_impl; [exact (Forall_lookup_1 _ _ _ _ Hio Hp)|].
    intros e He. unfold is_in_flight. by rewrite He.
Qed.

Lemma filter_keeps_all {A} (P : A -> Prop) `{!forall a, Decision (P a)} (l : list A) :
  Forall P l -> filter P l = l.
Proof.
  induction 1 as [|a l Ha _ IH]; [done|]. by rewrite filter_cons, decide_True, IH.
Qed.

Lemma filter_keeps_none {A} (P : A -> Prop) `{!forall a, Decision (P a)} (l : list A) :
  Forall (fun a => ~ P a) l -> filter P l = [].
Proof.
  induction 1 as [|a l Ha _ IH]; [done|]. by rewrite filter_cons, decide_False, IH.
Qed.

Lemma pending_logs_settle promises slots i p v :
  promises !! i = Some p -> slots !! i = Some None ->
  pending_logs promises slots
  ≡ₚ fst p ++ pending_logs promises (<[i := Some v]> slots).
Proof.
  unfold pending_logs. revert slots i.
  induction promises as [|p0 promises IH]; intros [|s0 slots] i Hp Hs; try done.
  destruct i as [|i]; simpl in *.
  - by simplify_eq.
  - rewrite (IH slots i Hp Hs). by rewrite Permutation_app_swap_app.
Qed.

Lemma pending_logs_fresh promises :
  pending_logs promises (replicate (length promises) None) = concat (map fst promises).
Proof.
  unfold pending_logs. induction promises as [|p promises IH]; simpl; [done|].
  by rewrite IH.
Qed.

Lemma pending_logs_settled promises slots (rs : list (Settled ProcessingResult.t)) :
  all_settled slots = Some rs -> pending_logs promises slots = [].
Proof.
  unfold pending_logs. revert promises rs.
  induction slots as [|[v|] slots IH]; intros [|p promises] rs; simpl; try done.
  destruct (all_settled slots) as [rs'|] eqn:Hall; [|done].
  intros _. by apply (IH promises rs').
Qed.

(** Each promise of a batch logs its effects once, when it settles. *)
Lemma await_batch_effects promises events this slots log this' slots' :
  Forall (fun p : list Effect * Exn ProcessingResult.t =>
            Forall (fun e => is_io e = true) (fst p)) promises ->
  await_batch promises events this slots = (log, this', slots') ->
  filter (fun e => is_io e = true) log ++ pending_logs promises slots'
  ≡ₚ pending_logs promises slots.
Proof.
  intros Hio. revert this slots log this' slots'.
  induction events as [|[c|i] events IH]; intros this slots log this' slots'; simpl.
  - by intros [= <- <- <-].
  - destruct (ext_call c this) as [log1 this1] eqn:H1.
    destruct (await_batch promises events this1 slots) as [[log2 this2] slots2] eqn:H2.
    intros [= <- <- <-]. rewrite filter_app, <- (IH _ _ _ _ _ H2).
    rewrite (filter_keeps_none _ log1); [done|].
    pose proof (ext_calls_log [c] this log1 this1) as Hlog1. simpl in Hlog1.
    rewrite H1, app_nil_r in Hlog1. specialize (Hlog1 eq_refl).
    eapply Forall_impl; [exact Hlog1|]. by intros [].
  - destruct (promises !! i) as [[ilog r]|] eqn:Hp; [|by apply IH].
    destruct (slots !! i) as [[v|]|] eqn:Hs; [by apply IH| |by apply IH].
    destruct (await_batch promises events this _) as [[log2 this2] slots2] eqn:H2.
    intros [= <- <- <-].
    rewrite (pending_logs_settle promises slots i (ilog, r) (settle r) Hp Hs).
    rewrite filter_app, <- (IH _ _ _ _ _ H2), <- app_assoc. simpl. f_equiv.
    by rewrite (filter_keeps_all _ ilog (Forall_lookup_1 _ _ _ _ Hio Hp)).
Qed.

(** A turn of the loop that is not the last: what is logged while the batch
    is awaited, the progress reports, the pacing delay if one is due, and
    the rest of the loop from the locals with the batch's outcomes added. *)
Lemma run_batches_turn w type item model batchSize n idx batch rest this l
    log this' l' :
  cancellation_requested this = false ->
  run_batches w type item model batchSize n idx (batch :: rest) this l
  = (log, LoopLeft, this', l') ->
  exists log1 log3 this3 log4,
    Forall (fun e => is_in_flight e = true) log1
    /\ filter (fun e => is_io e = true) log1
       ≡ₚ concat (map (fun uri => fst (processItem w (BatchProcessor.llmProvider this)
                                         uri type item model)) batch)
    /\ (if (Z.of_nat idx <? Z.of_nat n - 1) && (1 <? batchSize)
        then exists calls, log3 = Delay 1000 :: calls
                           /\ Forall (fun e => is_call_effect e = true) calls
        else log3 = [])
    /\ BatchProcessor.llmProvider this3 = BatchProcessor.llmProvider this
    /\ run_batches w type item model batchSize n (S idx) rest this3
         (recorded l (map (item_outcome w (BatchProcessor.llmProvider this) type item
                             model) batch))
       = (log4, LoopLeft, this', l')
    /\ log = BatchDispatched idx
             :: log1 ++ progress_from (processedCount l) (length batch) ++ log3 ++ log4.
Proof.
  intros Hc. simpl. rewrite Hc.
  set (promises := map (fun uri => processItem w (BatchProcessor.llmProvider this)
                                     uri type item model) batch).
  assert (Hio : Forall (fun p : list Effect * Exn ProcessingResult.t =>
                          Forall (fun e => is_io e = true) (fst p)) promises).
  { apply Forall_fmap, Forall_forall. intros uri _. apply processItem_log. }
  destruct (await_batch promises (during_batch w idx) this _)
    as [[log1 this1] slots] eqn:Hawait.
  destruct (await_batch_log _ _ _ _ _ _ _ Hio Hawait) as [Hlog1 Hp1].
  destruct (all_settled slots) as [batchResults|] eqn:Hall; [|discriminate].
  assert (batchResults
          = map (fun uri => Fulfilled (item_outcome w (BatchProcessor.llmProvider this)
                                         type item model uri)) batch) as ->.
  { rewrite (all_settled_in_order promises slots batchResults); [| |done].
    - unfold promises. rewrite map_map. apply map_ext. intros uri.
      by rewrite item_outcome_value.
    - eapply await_batch_slots; [done|]. apply slots_ok_fresh. }
  rewrite record_results_exact.
  destruct (if (Z.of_nat idx <? Z.of_nat n - 1) && (1 <? batchSize)
            then let '(log, this') := ext_calls (during_delay w idx) this1 in
                 (Delay 1000 :: log, this')
            else ([], this1)) as [log3 this3] eqn:Hdelay.
  destruct (run_batches w type item model batchSize n (S idx) rest this3 _)
    as [[[log4 fin] this4] l4] eqn:Hrec.
  intros [= <- -> <- <-].
  exists log1, log3, this3, log4. split; [done|].
  split; [|split; [|split; [|done]]].
  - pose proof (await_batch_effects _ _ _ _ _ _ _ Hio Hawait) as Heff.
    rewrite (pending_logs_settled _ _ _ Hall), pending_logs_fresh, app_nil_r in Heff.
    unfold promises in Heff. by rewrite map_map in Heff.
  - destruct ((Z.of_nat idx <? Z.of_nat n - 1) && (1 <? batchSize)).
    + destruct (ext_calls (during_delay w idx) this1) as [calls this''] eqn:Hext.
      injection Hdelay as <- <-. exists calls. split; [done|]. by eapply ext_calls_log.
    + by injection Hdelay as <- <-.
  - rewrite <- Hp1.
    destruct ((Z.of_nat idx <? Z.of_nat n - 1) && (1 <? batchSize)).
    + destruct (ext_calls (during_delay w idx) this1) as [calls this''] eqn:Hext.
      injection Hdelay as <- <-. by apply ext_calls_outside in Hext as [-> _].
    + by injection Hdelay as <- <-.
Qed.

(** Induction over the turns of a loop that was left, on the provider [p]. *)
Lemma run_batches_left_ind w type item model batchSize n p
    (R : nat -> list (list Uri) -> Locals -> list Effect -> Locals -> Prop) :
  (forall idx rest l, R idx rest l [] l) ->
  (forall idx batch rest l log1 log3 log4 l',
     Forall (fun e => is_in_flight e = true) log1 ->
     filter (fun e => is_io e = true) log1
     ≡ₚ concat (map (fun uri => fst (processItem w p uri type item model)) batch) ->
     (if (Z.of_nat idx <? Z.of_nat n - 1) && (1 <? batchSize)
      then exists calls, log3 = Delay 1000 :: calls
                         /\ Forall (fun e => is_call_effect e = true) calls
      else log3 = []) ->
     R (S idx) rest (recorded l (map (item_outcome w p type item model) batch)) log4 l' ->
     R idx (batch :: rest) l
       (BatchDispatched idx
        :: log1 ++ progress_from (processedCount l) (length batch) ++ log3 ++ log4) l') ->
  forall rest idx this l log this' l',
    BatchProcessor.llmProvider this = p ->
    run_batches w type item model batchSize n idx rest this l = (log, LoopLeft, this', l') ->
    R idx rest l log l'.
Proof.
  intros Hbase Hstep.
  induction rest as [|batch rest IH]; intros idx this l log this' l' Hp Hrun.
  - simpl in Hrun. injection Hrun as <- <- <-. apply Hbase.
  - destruct (cancellation_requested this) eqn:Hc.
    + simpl in Hrun. rewrite Hc in Hrun. injection Hrun as <- <- <-. apply Hbase.
    + apply run_batches_turn in Hrun
        as (log1 & log3 & this3 & log4 & H1 & H2 & H3 & Hp3 & Hrec & ->); [|done].
      rewrite Hp in Hrec, H2. apply Hstep; try done.
      eapply IH; [|exact Hrec]. congruence.
Qed.

Lemma selectModel_notices w p log p' selected :
  selectModel w p = (log, p', selected) -> Forall (fun e => is_notice e = true) log.
Proof.
  unfold selectModel, getAvailableModels.
  destruct (match LLMProvider.availableModels p with
            | [] => refreshAvailableModels w p
            | _ :: _ => ([], p)
            end) as [log0 p0] eqn:Hget.
  assert (Forall (fun e => is_notice e = true) log0) as Hlog0.
  { destruct (LLMProvider.availableModels p); [|by injection Hget as <- <-].
    unfold refreshAvailableModels in Hget. destruct (LLMProvider.provider p).
    - destruct (lm_selectChatModels w _); injection Hget as <- <-; by repeat constructor.
    - destruct (axios_get_tags w _) as [[names|]|]; injection Hget as <- <-;
        by repeat constructor.
    - by injection Hget as <- <-. }
  destruct (LLMProvider.availableModels p0) as [|m [|m' models]];
    intros [= <- <- <-]; try done.
  apply Forall_app. split; [done|]. by repeat constructor.
Qed.

(** What stands behind a run that returns a summary: a model was selected,
    the targets were batched, the loop was left with locals [l], and the
    summary is made from them; with the shape of the log. *)
Lemma process_returned_loop w this uris type item batchSize log this' summary :
  isCurrentlyProcessing this = false ->
  process w this uris type item batchSize = (log, this', Returned summary) ->
  exists log0 log1 provider model batches this1 log2 this2 l log3,
    selectModel w (BatchProcessor.llmProvider this)
    = (log1, provider, Returned (Some model))
    /\ model <> ""
    /\ createBatches uris batchSize = Some batches
    /\ BatchProcessor.llmProvider this1 = provider
    /\ run_batches w type item model batchSize (length batches) 0 batches this1
         {| results := []; totalTokens := 0; processedCount := 0 |}
       = (log2, LoopLeft, this2, l)
    /\ summary = summarise w l
    /\ log = Claimed :: (log0 ++ log1 ++ log2 ++ log3) ++ [Released]
    /\ Forall (fun e => is_call_effect e = true) log0
    /\ Forall (fun e => is_notice e = true) log1
    /\ Forall (fun e => is_call_effect e = true) log3
    /\ BatchProcessor.llmProvider this' = provider.
Proof.
  intros Hidle Hrun.
  destruct (process_completed _ _ _ _ _ _ _ _ _ Hidle Hrun)
    as (entered & inner & left & _ & Ha & _ & Hp & H & -> & ->); [done|].
  process_try_cases H.
  pose proof (ext_calls_outside _ _ _ _ Hpre) as [Hp0 _].
  rewrite Hp0, Hp in Hsel.
  pose proof (ext_calls_outside _ _ _ _ Hpost) as [Hp3 _].
  pose proof Hloop as Hloop'.
  apply (run_batches_left _ _ _ _ _ _ _ _ _ _ _ _ _
           (active_with_llmProvider _ provider1
              (proj1 (ext_calls_calm _ _ _ _ Ha Hpre)))) in Hloop'
    as (_ & _ & _ & _ & _ & _ & _ & _ & Hp2 & _).
  exists log0, log1, provider1, (str_interp selectedModel), batches,
    (with_llmProvider this0 provider1), log2, this2, l, log3.
  rewrite <- (truthy_model _ Htruthy).
  repeat split; try done.
  - destruct selectedModel as [s|]; [|done]. simpl in *. by case_bool_decide.
  - by eapply ext_calls_log.
  - by eapply selectModel_notices.
  - by eapply ext_calls_log.
  - simpl. by rewrite Hp3, Hp2.
Qed.

Lemma omap_none {A B} (f : A -> option B) (l : list A) :
  Forall (fun a => f a = None) l -> omap f l = [].
Proof. induction 1 as [|a l Ha _ IH]; simpl; [done|]. by rewrite Ha. Qed.

(** Effects of a class are not counted by a measure that skips the class. *)
Ltac skip_class H :=
  apply omap_none; eapply Forall_impl; [exact H|]; by intros [].

Lemma count_where_split {A} (p : A -> bool) (l : list A) :
  Z.of_nat (length l) = count_where p l + count_where (fun a => negb (p a)) l.
Proof.
  unfold count_where. induction l as [|a l IH]; [done|].
  rewrite !filter_cons. destruct (p a) eqn:Hp; simpl;
    repeat case_decide; try done; simpl; lia.
Qed.

Lemma progress_from_progress (count : Z) (n : nat) :
  Forall (fun e => is_progress e = true) (progress_from count n).
Proof. unfold progress_from. apply Forall_fmap, Forall_forall. by intros. Qed.

Lemma progress_reports_progress_from (count : Z) (n : nat) :
  progress_reports (progress_from count n)
  = map (fun i => count + Z.of_nat i) (seq 1 n).
Proof.
  unfold progress_reports, progress_from.
  induction (seq 1 n) as [|i l IH]; simpl; [done|]. f_equal. exact IH.
Qed.

(** A measure that skips what calls from outside and model selection log,
    and the claim and the release, is a measure of the loop's log. *)
Lemma omap_run_log {B} (f : Effect -> option B) (log0 log1 log2 log3 : list Effect) :
  f Claimed = None -> f Released = None ->
  (forall e, is_call_effect e = true -> f e = None) ->
  (forall e, is_notice e = true -> f e = None) ->
  Forall (fun e => is_call_effect e = true) log0 ->
  Forall (fun e => is_notice e = true) log1 ->
  Forall (fun e => is_call_effect e = true) log3 ->
  omap f (Claimed :: (log0 ++ log1 ++ log2 ++ log3) ++ [Released]) = omap f log2.
Proof.
  intros Hc Hr Hcall Hnotice H0 H1 H3. simpl. rewrite Hc, !omap_app. simpl. rewrite Hr.
  rewrite (omap_none f log0), (omap_none f log1), (omap_none f log3).
  - by rewrite !app_nil_r.
  - eapply Forall_impl; [exact H3|done].
  - eapply Forall_impl; [exact H1|done].
  - eapply Forall_impl; [exact H0|done].
Qed.

(** ** The summary and the log of a run that returns *)

(** The figures of a returned summary. *)
Lemma process_summary_figures w this uris type item batchSize
    log this' summary :
  isCurrentlyProcessing this = false ->
  process w this uris type item batchSize = (log, this', Returned summary) ->
  BatchResult.totalProcessed summary = Z.of_nat (length (BatchResult.results summary))
  /\ BatchResult.totalSuccessful summary
     = count_where ProcessingResult.success (BatchResult.results summary)
  /\ BatchResult.totalFailed summary
     = count_where (fun r => negb (ProcessingResult.success r))
         (BatchResult.results summary)
  /\ BatchResult.totalProcessed summary
     = BatchResult.totalSuccessful summary + BatchResult.totalFailed summary
  /\ BatchResult.totalTokens summary = sum_tokens (BatchResult.results summary).
Proof.
  intros Hidle Hrun.
  destruct (process_returned_loop _ _ _ _ _ _ _ _ _ Hidle Hrun)
    as (log0 & log1 & provider & model & batches & this1 & log2 & this2 & l & log3
        & _ & _ & _ & Hp & Hloop & -> & _).
  simpl. repeat split; [apply count_where_split|].
  enough (totalTokens l - sum_tokens (results l) = 0 - sum_tokens []) by (simpl in *; lia).
  revert Hloop.
  apply (run_batches_left_ind w type item model batchSize (length batches) provider
           (fun _ _ l _ l' =>
              totalTokens l' - sum_tokens (results l')
              = totalTokens l - sum_tokens (results l))); [done| |done].
  intros idx batch rest l0 _ _ _ l' _ _ _ ->. simpl. rewrite sum_tokens_app. lia.
Qed.

(** X1: the figures of a returned summary agree with its list of results:
    [totalProcessed] is the number of results and the sum of
    [totalSuccessful] and [totalFailed], which count the results with
    [success] true and false, and [totalTokens] is the sum of the results'
    [tokens], an absent (or zero) count adding nothing. *)
Theorem summary_figures_agree_with_results w this uris type item batchSize
    log this' summary :
  isCurrentlyProcessing this = false ->
  process w this uris type item batchSize = (log, this', Returned summary) ->
  BatchResult.totalProcessed summary = Z.of_nat (length (BatchResult.results summary))
  /\ BatchResult.totalSuccessful summary
     = count_where ProcessingResult.success (BatchResult.results summary)
  /\ BatchResult.totalFailed summary
     = count_where (fun r => negb (ProcessingResult.success r))
         (BatchResult.results summary)
  /\ BatchResult.totalProcessed summary
     = BatchResult.totalSuccessful summary + BatchResult.totalFailed summary
  /\ BatchResult.totalTokens summary = sum_tokens (BatchResult.results summary).
Proof. apply process_summary_figures. Qed.

Lemma summary_figures_agree_with_results_witness :
  exists log this' summary,
    process (demo_world ["gpt"]) (demo_engine false) demo_targets KPrompt demo_prompt 2
    = (log, this', Returned summary)
    /\ BatchResult.totalProcessed summary
       = BatchResult.totalSuccessful summary + BatchResult.totalFailed summary
    /\ BatchResult.totalTokens summary = sum_tokens (BatchResult.results summary).
Proof.
  destruct (process (demo_world ["gpt"]) (demo_engine false) demo_targets KPrompt
              demo_prompt 2) as [[log this'] outcome] eqn:Hrun.
  assert (exists summary, outcome = Returned summary) as (summary & ->).
  { vm_compute in Hrun. injection Hrun as <- <- <-. by eexists. }
  destruct (summary_figures_agree_with_results (demo_world ["gpt"]) (demo_engine false)
              demo_targets KPrompt demo_prompt 2 log this' summary eq_refl Hrun)
    as (_ & _ & _ & Hsum & Htokens).
  by exists log, this', summary.
Defined.

(** X2: in a run that returns, the counts reported to the progress
    notification are 1, 2, ..., [totalProcessed], in this order: one report
    per recorded result, none repeated or skipped. *)
Theorem progress_counts_up_to_totalProcessed w this uris type item batchSize
    log this' summary :
  isCurrentlyProcessing this = false ->
  process w this uris type item batchSize = (log, this', Returned summary) ->
  progress_reports log
  = map Z.of_nat (seq 1 (Z.to_nat (BatchResult.totalProcessed summary))).
Proof.
  intros Hidle Hrun.
  destruct (process_returned_loop _ _ _ _ _ _ _ _ _ Hidle Hrun)
    as (log0 & log1 & provider & model & batches & this1 & log2 & this2 & l & log3
        & _ & _ & _ & Hp & Hloop & -> & -> & H0 & H1 & H3 & _).
  unfold progress_reports. rewrite omap_run_log; try done; try (by intros []).
  fold (progress_reports log2). simpl. rewrite Nat2Z.id.
  enough ((0 <= length (results l))%nat
          /\ progress_reports log2
             = map (fun i => 0 + Z.of_nat i) (seq 1 (length (results l) - 0))) as [_ ->]
      by (by rewrite Nat.sub_0_r).
  revert Hloop.
  apply (run_batches_left_ind w type item model batchSize (length batches) provider
           (fun _ _ l log l' =>
              (length (results l) <= length (results l'))%nat
              /\ progress_reports log
                 = map (fun i => processedCount l + Z.of_nat i)
                     (seq 1 (length (results l') - length (results l)))));
    [|clear|done].
  { intros _ _ l0. by rewrite Nat.sub_diag. }
  intros idx batch rest l log1 log3 log4 l' Hlog1 _ Hlog3 [Hle IH].
  simpl in Hle, IH. rewrite length_app, length_map in Hle, IH. split; [lia|].
  unfold progress_reports at 1. simpl. rewrite !omap_app.
  fold (progress_reports log4). fold (progress_reports (progress_from (processedCount l)
                                                          (length batch))).
  rewrite progress_reports_progress_from, IH.
  rewrite (omap_none _ log1) by (eapply Forall_impl; [exact Hlog1|by intros []]).
  rewrite (omap_none _ log3).
  2:{ destruct ((Z.of_nat idx <? Z.of_nat (length batches) - 1) && (1 <? batchSize));
        [|by subst].
      destruct Hlog3 as (calls & -> & Hcalls). constructor; [done|].
      eapply Forall_impl; [exact Hcalls|by intros []]. }
  simpl.
  replace (length (results l') - length (results l))%nat
    with (length batch + (length (results l') - (length (results l) + length batch)))%nat
    by lia.
  rewrite seq_app, map_app. f_equal.
  rewrite (Nat.add_comm 1 (length batch)), <- (fmap_add_seq (length batch) 1).
  rewrite <- list_fmap_compose. apply map_ext. intros i. simpl. lia.
Qed.

Lemma progress_counts_up_to_totalProcessed_witness :
  exists log this' summary,
    process (demo_world ["gpt"]) (demo_engine false) demo_targets KPrompt demo_prompt 2
    = (log, this', Returned summary)
    /\ progress_reports log = [1; 2; 3; 4].
Proof.
  destruct (process (demo_world ["gpt"]) (demo_engine false) demo_targets KPrompt
              demo_prompt 2) as [[log this'] outcome] eqn:Hrun.
  assert (exists summary, outcome = Returned summary
                          /\ BatchResult.totalProcessed summary = 4)
    as (summary & -> & Htotal).
  { vm_compute in Hrun. injection Hrun as <- <- <-. by eexists. }
  pose proof (progress_counts_up_to_totalProcessed (demo_world ["gpt"]) (demo_engine false)
                demo_targets KPrompt demo_prompt 2 log this' summary eq_refl Hrun)
    as Hreports.
  rewrite Htotal in Hreports. by exists log, this', summary.
Defined.

(** ** One item, step by step *)

Lemma getFileContent_trace w uri : fst (getFileContent w uri) = [FsRead uri].
Proof.
  unfold getFileContent. rewrite io_try_catch_eq, !io_bind_eq. simpl.
  destruct (fs_stat w uri) as [stat|cause]; simpl; [|done].
  case_decide; simpl.
  - by destruct (fs_readDirectory w uri).
  - by destruct (fs_readFile w uri).
Qed.

Lemma sendRequest_trace w p request :
  (fst (sendRequest w p request) = [BackendCall request])
  \/ (fst (sendRequest w p request) = []
      /\ exists text, LLMProvider.provider p = OtherProvider text
                      /\ snd (sendRequest w p request)
                         = Throw (new_Error ("Unsupported provider: " +:+ text))).
Proof.
  unfold sendRequest. destruct (LLMProvider.provider p); eauto.
Qed.

(** The [try] block of [processItem], call by call. *)
Lemma processItem_try_eq w p uri type item model :
  processItem_try w p uri type item model
  = match snd (getFileContent w uri) with
    | Throw e => ([FsRead uri], Throw e)
    | Ok content =>
        match buildPrompt w uri content type item with
        | Throw e => ([FsRead uri], Throw e)
        | Ok prompt =>
            match sendRequest w p (item_request model prompt) with
            | (slog, Throw e) => (FsRead uri :: slog, Throw e)
            | (slog, Ok response) =>
                (FsRead uri :: slog
                 ++ fst (saveResult w uri (LLMResponse.content response) type item),
                 Ok (ProcessingResult.mk uri true
                       (Some (LLMResponse.content response)) None
                       (LLMResponse.model response)
                       (match LLMResponse.usage response with
                        | Some u => Usage.totalTokens u
                        | None => None
                        end)))
            end
        end
    end.
Proof.
  unfold processItem_try, item_request.
  pose proof (getFileContent_trace w uri) as Hread.
  destruct (getFileContent w uri) as [rlog [content|e]]; simpl in Hread; subst rlog;
    simpl; [|done].
  destruct (buildPrompt w uri content type item) as [prompt|e]; simpl; [|done].
  destruct (sendRequest w p _) as [slog [response|e]]; simpl; [|done].
  pose proof (saveResult_returns w uri (LLMResponse.content response) type item) as Hsave.
  destruct (saveResult w uri (LLMResponse.content response) type item) as [vlog r].
  simpl in *. subst r. by rewrite app_nil_r.
Qed.

(** The three ways through [processItem]: no request is sent; the request
    fails; the request is answered and the answer goes to the sink. *)
Lemma processItem_cases w p uri type item model :
  (exists message,
      processItem w p uri type item model = ([FsRead uri], Ok (failed_result uri message)))
  \/ (exists content prompt error,
         snd (getFileContent w uri) = Ok content
         /\ buildPrompt w uri content type item = Ok prompt
         /\ sendRequest w p (item_request model prompt)
            = ([BackendCall (item_request model prompt)], Throw error)
         /\ processItem w p uri type item model
            = ([FsRead uri; BackendCall (item_request model prompt)],
               Ok (failed_result uri (message_or "Unknown error" error))))
  \/ (exists content prompt response,
         snd (getFileContent w uri) = Ok content
         /\ buildPrompt w uri content type item = Ok prompt
         /\ sendRequest w p (item_request model prompt)
            = ([BackendCall (item_request model prompt)], Ok response)
         /\ processItem w p uri type item model
            = (FsRead uri :: BackendCall (item_request model prompt)
               :: fst (saveResult w uri (LLMResponse.content response) type item),
               Ok (ProcessingResult.mk uri true (Some (LLMResponse.content response)) None
                     (LLMResponse.model response)
                     (match LLMResponse.usage response with
                      | Some u => Usage.totalTokens u
                      | None => None
                      end)))).
Proof.
  unfold processItem. rewrite io_try_catch_eq, processItem_try_eq.
  destruct (snd (getFileContent w uri)) as [content|e] eqn:Hget; [|by left; eexists].
  destruct (buildPrompt w uri content type item) as [prompt|e] eqn:Hbuild;
    [|by left; eexists].
  destruct (sendRequest_trace w p (item_request model prompt))
    as [Hsend|(Hsend & text & _ & Hthrow)].
  - destruct (sendRequest w p (item_request model prompt)) as [slog [response|e]] eqn:Hreq;
      simpl in Hsend; subst slog.
    + right; right. by exists content, prompt, response.
    + right; left. by exists content, prompt, e.
  - destruct (sendRequest w p (item_request model prompt)) as [slog r] eqn:Hreq.
    simpl in *. subst. left. by eexists.
Qed.

(** ** Pacing *)

(** X3: a run that returns waits 1000 ms after each batch it dispatched
    except the last of all the batches, and only when the batch size is
    above 1: with [batchSize <= 1] there is no delay at all; otherwise the
    delays are [min k (n - 1)] waits of 1000 ms, for [k] dispatched batches
    out of [n = ceil (targets / batchSize)]. *)
Theorem pacing_delays_between_batches w this uris type item batchSize log this' summary :
  isCurrentlyProcessing this = false ->
  process w this uris type item batchSize = (log, this', Returned summary) ->
  (batchSize <= 1 -> delays log = [])
  /\ (1 < batchSize ->
      delays log
      = replicate (Nat.min (length (dispatched log))
                     (ceil_div (length uris) (Z.to_nat batchSize) - 1)) 1000).
Proof.
  intros Hidle Hrun.
  destruct (process_returned_loop _ _ _ _ _ _ _ _ _ Hidle Hrun)
    as (log0 & log1 & provider & model & batches & this1 & log2 & this2 & l & log3
        & _ & _ & Hbatches & Hp & Hloop & -> & -> & H0 & H1 & H3 & _).
  unfold delays, dispatched.
  rewrite !omap_run_log; try done; try (by intros []).
  fold (delays log2). fold (dispatched log2). split.
  - intros Hserial. revert Hloop.
    apply (run_batches_left_ind w type item model batchSize (length batches) provider
             (fun _ _ _ log _ => delays log = [])); [done| |done].
    intros idx batch rest l0 log1' log3' log4 l' Hlog1 _ Hlog3 IH.
    replace (1 <? batchSize) with false in Hlog3 by (symmetry; apply Z.ltb_ge; lia).
    rewrite andb_false_r in Hlog3. subst log3'.
    unfold delays in *. simpl. rewrite !omap_app, IH. simpl.
    rewrite (omap_none _ log1') by (eapply Forall_impl; [exact Hlog1|by intros []]).
    rewrite (omap_none _ (progress_from _ _)); [done|].
    eapply Forall_impl; [apply progress_from_progress|by intros []].
  - intros Hbig.
    rewrite <- (Z2Nat.id batchSize) in Hbatches at 1 by lia.
    rewrite (createBatches_windows (Z.to_nat batchSize) uris) in Hbatches by lia.
    assert (Hn : ceil_div (length uris) (Z.to_nat batchSize) = length batches).
    { injection Hbatches as <-. by rewrite length_map, length_seq. }
    rewrite Hn. clear Hbatches Hn.
    enough ((0 + length batches = length batches)%nat ->
            delays log2
            = replicate (Nat.min (length (dispatched log2)) (length batches - 1)) 1000)
      as Hgoal by (by apply Hgoal).
    revert Hloop.
    apply (run_batches_left_ind w type item model batchSize (length batches) provider
             (fun idx rest _ log _ =>
                (idx + length rest = length batches)%nat ->
                delays log
                = replicate (Nat.min (length (dispatched log)) (length rest - 1)) 1000));
      [done| |done].
    intros idx batch rest l0 log1' log3' log4 l' Hlog1 _ Hlog3 IH Hlen.
    simpl in Hlen. specialize (IH ltac:(lia)).
    assert (Hd : dispatched (BatchDispatched idx
                             :: log1' ++ progress_from (processedCount l0) (length batch)
                                ++ log3' ++ log4)
                 = idx :: dispatched log4
                 /\ delays (BatchDispatched idx
                            :: log1' ++ progress_from (processedCount l0) (length batch)
                               ++ log3' ++ log4)
                    = delays log3' ++ delays log4) .
    { unfold dispatched, delays. simpl. rewrite !omap_app.
      rewrite !(omap_none _ log1') by (eapply Forall_impl; [exact Hlog1|by intros []]).
      rewrite !(omap_none _ (progress_from _ _))
        by (eapply Forall_impl; [apply progress_from_progress|by intros []]).
      split; [|done]. rewrite (omap_none _ log3'); [done|].
      destruct ((Z.of_nat idx <? Z.of_nat (length batches) - 1) && (1 <? batchSize));
        [|by subst].
      destruct Hlog3 as (calls & -> & Hcalls). constructor; [done|].
      eapply Forall_impl; [exact Hcalls|by intros []]. }
    destruct Hd as [-> ->]. rewrite IH. cbn [length].
    replace (1 <? batchSize) with true in Hlog3 by (symmetry; apply Z.ltb_lt; lia).
    rewrite andb_true_r in Hlog3.
    destruct (Z.of_nat idx <? Z.of_nat (length batches) - 1) eqn:Hlast.
    + destruct Hlog3 as (calls & -> & Hcalls). apply Z.ltb_lt in Hlast.
      assert (delays (Delay 1000 :: calls) = [1000]) as ->.
      { unfold delays. simpl. rewrite (omap_none _ calls); [done|].
        eapply Forall_impl; [exact Hcalls|by intros []]. }
      replace (S (length rest) - 1)%nat with (S (length rest - 1)) by lia.
      by rewrite <- Nat.succ_min_distr.
    + subst log3'. apply Z.ltb_ge in Hlast.
      assert (length rest = 0)%nat as -> by lia.
      change (0 - 1)%nat with 0%nat. change (1 - 1)%nat with 0%nat.
      by rewrite !Nat.min_0_r.
Qed.

Lemma pacing_delays_between_batches_witness :
  exists log this' summary,
    process (demo_world_uncancelled ["gpt"]) (demo_engine false) demo_targets KPrompt
      demo_prompt 2 = (log, this', Returned summary)
    /\ delays log = [1000; 1000].
Proof.
  destruct (process (demo_world_uncancelled ["gpt"]) (demo_engine false) demo_targets
              KPrompt demo_prompt 2) as [[log this'] outcome] eqn:Hrun.
  assert (exists summary, outcome = Returned summary /\ dispatched log = [0; 1; 2]%nat)
    as (summary & -> & Hdisp).
  { vm_compute in Hrun. injection Hrun as <- <- <-. by eexists. }
  destruct (pacing_delays_between_batches (demo_world_uncancelled ["gpt"])
              (demo_engine false) demo_targets KPrompt demo_prompt 2 log this' summary
              eq_refl Hrun) as [_ Hdelays].
  exists log, this', summary. split; [done|].
  rewrite Hdelays by lia. by rewrite Hdisp.
Defined.

(** ** The result sink *)


Lemma saveResult_sink w uri result type item :
  Forall (fun e => is_sink_effect e = true) (fst (saveResult w uri result type item))
  /\ (length (writes (fst (saveResult w uri result type item))) <= 1)%nat.
Proof.
  unfold saveResult. destruct (workspaceFolder w) as [folder|]; [|by split; [|simpl; lia]].
  rewrite io_try_catch_eq, !io_bind_eq. simpl.
  destruct (fsp_mkdir w _) as [[]|e]; simpl; [|by split; [repeat constructor|lia]].
  destruct (fsp_writeFile w _ _) as [[]|e]; simpl; by split; [repeat constructor|lia].
Qed.

(** ** The effects of one item *)


(** What one item adds to the measures of a log. *)
Lemma processItem_measures w p uri type item model :
  reads (fst (processItem w p uri type item model)) = [uri]
  /\ (length (requests (fst (processItem w p uri type item model))) <= 1)%nat
  /\ (length (writes (fst (processItem w p uri type item model)))
      <= if ProcessingResult.success (item_outcome w p type item model uri)
         then 1 else 0)%nat.
Proof.
  unfold item_outcome.
  destruct (processItem_cases w p uri type item model)
    as [(message & ->)|[(content & prompt & error & _ & _ & _ & ->)
                       |(content & prompt & response & _ & _ & Hsend & ->)]];
    try (simpl; repeat split; lia).
  destruct (saveResult_sink w uri (LLMResponse.content response) type item)
    as [Hsink Hwrites].
  repeat split.
  - unfold reads. simpl. rewrite omap_none; [done|].
    eapply Forall_impl; [exact Hsink|by intros []].
  - unfold requests. simpl. rewrite omap_none; [simpl; lia|].
    eapply Forall_impl; [exact Hsink|by intros []].
  - simpl. unfold writes in *. simpl. lia.
Qed.

(** ** The effects of a run *)

Lemma item_io_app (log1 log2 : list Effect) :
  item_io (log1 ++ log2) = item_io log1 ++ item_io log2.
Proof. apply filter_app. Qed.

Lemma item_io_concat (logs : list (list Effect)) :
  item_io (concat logs) = concat (map item_io logs).
Proof.
  induction logs as [|log logs IH]; [done|]. simpl. by rewrite item_io_app, IH.
Qed.

Lemma item_io_of_io (log : list Effect) :
  item_io (filter (fun e => is_io e = true) log) = item_io log.
Proof.
  unfold item_io. induction log as [|e log IH]; [done|].
  rewrite !filter_cons. destruct e; simpl; repeat case_decide; try done;
    rewrite ?filter_cons; simpl; repeat case_decide; try done; by f_equal.
Qed.

Lemma item_io_none (P : Effect -> bool) (log : list Effect) :
  (forall e, P e = true -> is_item_io e = false) ->
  Forall (fun e => P e = true) log -> item_io log = [].
Proof.
  intros HP Hlog. apply filter_keeps_none.
  eapply Forall_impl; [exact Hlog|]. intros e He. rewrite (HP e He). done.
Qed.

(** The loop records one outcome for each target it worked on, and its
    log holds the effects of each of them once. *)
Lemma run_batches_item_effects w type item model batchSize n rest idx this l
    log this' l' :
  run_batches w type item model batchSize n idx rest this l = (log, LoopLeft, this', l') ->
  exists us,
    results l'
    = results l ++ map (item_outcome w (BatchProcessor.llmProvider this) type item model) us
    /\ item_io log
       ≡ₚ concat (map (fun u => item_io (fst (processItem w (BatchProcessor.llmProvider this)
                                                u type item model))) us).
Proof.
  revert rest idx this l log this' l'.
  enough (forall p rest idx this l log this' l',
             BatchProcessor.llmProvider this = p ->
             run_batches w type item model batchSize n idx rest this l
             = (log, LoopLeft, this', l') ->
             exists us,
               results l' = results l ++ map (item_outcome w p type item model) us
               /\ item_io log
                  ≡ₚ concat (map (fun u => item_io (fst (processItem w p u type item
                                                          model))) us))
    as Hgen by (intros; by eapply Hgen).
  intros p.
  apply (run_batches_left_ind w type item model batchSize n p
           (fun _ _ l log l' =>
              exists us,
                results l' = results l ++ map (item_outcome w p type item model) us
                /\ item_io log
                   ≡ₚ concat (map (fun u => item_io (fst (processItem w p u type item
                                                           model))) us))).
  - intros _ _ l. exists []. by rewrite app_nil_r.
  - intros idx batch rest l log1 log3 log4 l' Hlog1 Heff Hlog3 (us & Hres & Hio).
    exists (batch ++ us). split.
    + rewrite Hres. simpl. by rewrite map_app, app_assoc.
    + change (BatchDispatched idx :: ?x) with ([BatchDispatched idx] ++ x).
      assert (Heff' : item_io log1
                      ≡ₚ concat (map (fun u => item_io (fst (processItem w p u type item
                                                              model))) batch)).
      { rewrite <- (item_io_of_io log1), <- (map_map _ item_io), <- item_io_concat.
        unfold item_io. by rewrite Heff. }
      rewrite !item_io_app, Hio, map_app, concat_app, Heff'.
      rewrite (item_io_none is_progress (progress_from _ _));
        [|by intros []|apply progress_from_progress].
      assert (item_io log3 = []) as ->; [|done].
      destruct ((Z.of_nat idx <? Z.of_nat n - 1) && (1 <? batchSize)); [|by subst].
      destruct Hlog3 as (calls & -> & Hcalls).
      change (Delay 1000 :: calls) with ([Delay 1000] ++ calls).
      rewrite item_io_app, (item_io_none is_call_effect calls); [done|by intros []|done].
Qed.

Lemma item_io_run_log (log0 log1 log2 log3 : list Effect) :
  Forall (fun e => is_call_effect e = true) log0 ->
  Forall (fun e => is_notice e = true) log1 ->
  Forall (fun e => is_call_effect e = true) log3 ->
  item_io (Claimed :: (log0 ++ log1 ++ log2 ++ log3) ++ [Released]) = item_io log2.
Proof.
  intros H0 H1 H3.
  change (Claimed :: ?x) with ([Claimed] ++ x).
  rewrite !item_io_app, (item_io_none is_call_effect log0),
    (item_io_none is_notice log1), (item_io_none is_call_effect log3);
    try done; try (by intros []).
  change (item_io [Claimed]) with (@nil Effect).
  change (item_io [Released]) with (@nil Effect).
  simpl. by rewrite !app_nil_r.
Qed.

(** A run that returns: the model it ran on, the targets it worked on, and
    the effects on the world outside, which are those of each of these
    targets once. *)
Lemma process_item_effects w this uris type item batchSize log this' summary :
  isCurrentlyProcessing this = false ->
  process w this uris type item batchSize = (log, this', Returned summary) ->
  exists log1 provider model us,
    selectModel w (BatchProcessor.llmProvider this)
    = (log1, provider, Returned (Some model))
    /\ BatchResult.results summary = map (item_outcome w provider type item model) us
    /\ item_io log
       ≡ₚ concat (map (fun u => item_io (fst (processItem w provider u type item model)))
                    us).
Proof.
  intros Hidle Hrun.
  destruct (process_returned_loop _ _ _ _ _ _ _ _ _ Hidle Hrun)
    as (log0 & log1 & provider & model & batches & this1 & log2 & this2 & l & log3
        & Hsel & _ & _ & Hp & Hloop & -> & -> & H0 & H1 & H3 & _).
  apply run_batches_item_effects in Hloop as (us & Hres & Hio).
  rewrite Hp in Hres, Hio. exists log1, provider, model, us.
  by rewrite item_io_run_log.
Qed.

(** X6: in a run that returns, every result is the outcome of processing
    its own target with the selected model, and the run's effects on the
    world outside (file reads, backend requests, sink operations) are
    exactly those of processing each recorded target once: no target is
    worked on twice, none without a result, and nothing else touches the
    world. *)
Theorem each_result_is_one_item_processed_once w this uris type item batchSize
    log this' summary :
  isCurrentlyProcessing this = false ->
  process w this uris type item batchSize = (log, this', Returned summary) ->
  exists log1 provider model,
    selectModel w (BatchProcessor.llmProvider this)
    = (log1, provider, Returned (Some model))
    /\ Forall (fun r => r = item_outcome w provider type item model (ProcessingResult.uri r))
         (BatchResult.results summary)
    /\ item_io log
       ≡ₚ concat (map (fun r => item_io (fst (processItem w provider (ProcessingResult.uri r)
                                                type item model)))
                    (BatchResult.results summary)).
Proof.
  intros Hidle Hrun.
  destruct (process_item_effects _ _ _ _ _ _ _ _ _ Hidle Hrun)
    as (log1 & provider & model & us & Hsel & -> & Hio).
  exists log1, provider, model. split; [done|]. split.
  - apply Forall_fmap, Forall_forall. intros u _. simpl. by rewrite item_outcome_uri.
  - rewrite Hio, map_map.
    assert (map (fun u => item_io (fst (processItem w provider
                                         (ProcessingResult.uri
                                            (item_outcome w provider type item model u))
                                         type item model))) us
            = map (fun u => item_io (fst (processItem w provider u type item model))) us)
      as Heq by (apply map_ext; intros u; by rewrite item_outcome_uri).
    unfold compose. by rewrite Heq.
Qed.

Lemma each_result_is_one_item_processed_once_witness :
  exists log this' summary,
    process (demo_world ["gpt"]) (demo_engine false) demo_targets KPrompt demo_prompt 2
    = (log, this', Returned summary)
    /\ exists model,
         item_io log
         ≡ₚ concat (map (fun r => item_io (fst (processItem (demo_world ["gpt"])
                                                  (LLMProvider.mk VscodeLm
                                                     "http://localhost:11434" ["gpt"])
                                                  (ProcessingResult.uri r) KPrompt
                                                  demo_prompt model)))
                      (BatchResult.results summary)).
Proof.
  destruct (process (demo_world ["gpt"]) (demo_engine false) demo_targets KPrompt
              demo_prompt 2) as [[log this'] outcome] eqn:Hrun.
  assert (exists summary, outcome = Returned summary) as (summary & ->).
  { vm_compute in Hrun. injection Hrun as <- <- <-. by eexists. }
  destruct (each_result_is_one_item_processed_once (demo_world ["gpt"]) (demo_engine false)
              demo_targets KPrompt demo_prompt 2 log this' summary eq_refl Hrun)
    as (log1 & provider & model & Hsel & _ & Hio).
  exists log, this', summary. split; [done|]. exists model.
  vm_compute in Hsel. injection Hsel as <- <- <-. exact Hio.
Defined.

Lemma measure_item_io {B} (f : Effect -> option B) (log : list Effect) :
  (forall e, is_item_io e = false -> f e = None) -> omap f (item_io log) = omap f log.
Proof.
  intros Hf. unfold item_io. induction log as [|e log IH]; [done|].
  rewrite filter_cons. case_decide as He; csimpl; rewrite IH; [done|].
  rewrite Hf; [done|]. by destruct (is_item_io e).
Qed.

(** The measures of the effects of a list of targets, each processed once. *)
Lemma measures_of_items w p type item model (us : list Uri) :
  let log := concat (map (fun u => item_io (fst (processItem w p u type item model))) us) in
  reads log = us
  /\ (length (requests log) <= length us)%nat
  /\ Z.of_nat (length (writes log))
     <= count_where ProcessingResult.success (map (item_outcome w p type item model) us).
Proof.
  unfold count_where. induction us as [|u us (IHr & IHq & IHw)]; [done|].
  destruct (processItem_measures w p u type item model) as (Hr & Hq & Hw).
  cbn [map concat]. unfold reads, requests, writes in *. rewrite !omap_app, !length_app.
  rewrite !measure_item_io by (by intros []). rewrite Hr, IHr. simpl in IHq, IHw.
  rewrite filter_cons.
  repeat split; [cbn [length]; lia|].
  destruct (ProcessingResult.success (item_outcome w p type item model u));
    case_decide; try done; cbn [length]; lia.
Qed.

(** X7: in a run that returns, the files read are exactly the targets of
    the results, each read once (in the order their items settled); at
    most one backend request is sent per result; and at most one result
    document is written per successful result, none for a failed one. *)
Theorem reads_requests_and_writes_are_bounded w this uris type item batchSize
    log this' summary :
  isCurrentlyProcessing this = false ->
  process w this uris type item batchSize = (log, this', Returned summary) ->
  reads log ≡ₚ map ProcessingResult.uri (BatchResult.results summary)
  /\ Z.of_nat (length (requests log)) <= BatchResult.totalProcessed summary
  /\ Z.of_nat (length (writes log)) <= BatchResult.totalSuccessful summary.
Proof.
  intros Hidle Hrun.
  destruct (process_item_effects _ _ _ _ _ _ _ _ _ Hidle Hrun)
    as (log1 & provider & model & us & _ & Hres & Hio).
  destruct (process_returned_loop _ _ _ _ _ _ _ _ _ Hidle Hrun)
    as (_ & _ & _ & _ & _ & _ & _ & _ & l & _ & _ & _ & _ & _ & _ & Hsum & _).
  destruct (measures_of_items w provider type item model us) as (Hr & Hq & Hw).
  rewrite Hsum in *. simpl in *. rewrite Hres.
  unfold reads, requests, writes in *.
  rewrite <- !(measure_item_io _ log) by (by intros []).
  rewrite !Hio. rewrite Hr, length_map, map_map.
  repeat split; [|lia|done].
  rewrite (map_ext _ id); [by rewrite map_id|].
  intros u. apply item_outcome_uri.
Qed.

Lemma reads_requests_and_writes_are_bounded_witness :
  exists log this' summary,
    process (demo_world ["gpt"]) (demo_engine false) demo_targets KPrompt demo_prompt 2
    = (log, this', Returned summary)
    /\ reads log ≡ₚ take 4 demo_targets
    /\ Z.of_nat (length (writes log)) <= 3.
Proof.
  destruct (process (demo_world ["gpt"]) (demo_engine false) demo_targets KPrompt
              demo_prompt 2) as [[log this'] outcome] eqn:Hrun.
  assert (exists summary,
             outcome = Returned summary
             /\ map ProcessingResult.uri (BatchResult.results summary) = take 4 demo_targets
             /\ BatchResult.totalSuccessful summary = 3)
    as (summary & -> & Huris & Hsucc).
  { vm_compute in Hrun. injection Hrun as <- <- <-. by eexists. }
  destruct (reads_requests_and_writes_are_bounded (demo_world ["gpt"]) (demo_engine false)
              demo_targets KPrompt demo_prompt 2 log this' summary eq_refl Hrun)
    as (Hreads & _ & Hwrites).
  exists log, this', summary. rewrite <- Huris, <- Hsucc. done.
Defined.

(** ** The result sink and the run *)









(** ** Batching at the edges *)

(** X9: [createBatches] ends exactly when the batch size is at least 1 or
    there is nothing to batch.  With [batchSize <= 0] and at least one
    item, the loop's index never moves forward, so its condition stays
    true whatever number of turns is run; an empty list gives no batch for
    any batch size. *)
Theorem createBatches_ends_iff_batchSize_positive {T} (items : list T) (batchSize : Z) :
  (createBatches items batchSize = None <-> batchSize <= 0 /\ items <> [])
  /\ (batchSize <= 0 -> items <> [] ->
      forall fuel, createBatches_loop fuel items batchSize 0 [] = None)
  /\ createBatches (@nil T) batchSize = Some [].
Proof.
  split; [|split; [|done]].
  - split.
    + intros Hnone. destruct (Z_le_gt_dec batchSize 0) as [Hle|Hgt].
      * split; [done|]. by intros ->.
      * rewrite <- (Z2Nat.id batchSize) in Hnone by lia.
        rewrite createBatches_windows in Hnone by lia. done.
    + intros [Hle Hne]. by apply createBatches_loop_stuck.
  - intros Hle Hne fuel. by apply createBatches_loop_stuck.
Qed.

Lemma createBatches_ends_iff_batchSize_positive_witness :
  createBatches_loop 1000 [1; 2; 3] 0 0 [] = None
  /\ createBatches [1; 2; 3] (-2) = None.
Proof.
  destruct (createBatches_ends_iff_batchSize_positive [1; 2; 3] 0) as (_ & Hloop & _).
  destruct (createBatches_ends_iff_batchSize_positive [1; 2; 3] (-2)) as ([_ Hnone] & _).
  split; [apply Hloop; [lia|done]|apply Hnone; split; [lia|done]].
Defined.

Lemma singletons_of_concat {T} (batches : list (list T)) :
  Forall (fun batch => length batch = 1%nat) batches ->
  batches = map (fun x => [x]) (concat batches).
Proof.
  induction 1 as [|batch batches Hlen _ IH]; [done|].
  destruct batch as [|x [|y batch]]; try done. simpl. by f_equal.
Qed.

(** X10: for a batch size [b >= 1], no batch is empty and none has more
    than [b] items.  With [b = 1] (serial mode) the batches are the items
    one by one, in order; and when the items fit in one batch
    ([1 <= n <= b]) there is exactly one batch, the whole input. *)
Theorem createBatches_batches_are_never_empty {T} (items : list T) (batchSize : Z) :
  1 <= batchSize ->
  exists batches,
    createBatches items batchSize = Some batches
    /\ Forall (fun batch => (1 <= length batch <= Z.to_nat batchSize)%nat) batches
    /\ (batchSize = 1 -> batches = map (fun x => [x]) items)
    /\ (items <> [] -> Z.of_nat (length items) <= batchSize -> batches = [items]).
Proof.
  intros Hb. remember (Z.to_nat batchSize) as b eqn:Hbdef.
  assert (Hb' : (1 <= b)%nat) by lia.
  pose proof (createBatches_windows b items Hb') as Hw.
  replace (Z.of_nat b) with batchSize in Hw by lia.
  pose proof (ceil_div_bounds (length items) b Hb') as [Hlo Hhi].
  assert (Hsizes :
            Forall (fun batch : list T => (1 <= length batch <= b)%nat)
              (map (window b items) (seq 0 (ceil_div (length items) b)))).
  { apply Forall_fmap, Forall_forall. intros k Hk. simpl.
    apply elem_of_seq in Hk. rewrite length_window. nia. }
  eexists. split; [exact Hw|]. split; [exact Hsizes|]. split.
  - intros ->. etrans.
    + apply singletons_of_concat. eapply Forall_impl; [exact Hsizes|].
      intros batch. simpl. lia.
    + f_equal. exact (createBatches_concat items 1 _ Hw).
  - intros Hne Hfit.
    assert (Hn : (1 <= length items)%nat) by (destruct items; [done|simpl; lia]).
    assert (ceil_div (length items) b = 1%nat) as ->.
    { unfold ceil_div. symmetry. clear Hlo Hhi.
      apply Nat.div_unique with (r := (length items - 1)%nat); lia. }
    simpl. unfold window. simpl. rewrite drop_0, take_ge; [done|]. clear Hlo Hhi. lia.
Qed.

Lemma createBatches_batches_are_never_empty_witness :
  createBatches [1; 2; 3] 1 = Some [[1]; [2]; [3]]
  /\ createBatches [1; 2; 3] 50 = Some [[1; 2; 3]].
Proof.
  destruct (createBatches_batches_are_never_empty [1; 2; 3] 1 ltac:(lia))
    as (serial & Hserial & _ & Hone & _).
  destruct (createBatches_batches_are_never_empty [1; 2; 3] 50 ltac:(lia))
    as (whole & Hwhole & _ & _ & Hfit).
  rewrite Hserial, Hwhole, (Hone eq_refl), Hfit; [done|done|simpl; lia].
Defined.

(** ** Failures of an item, by stage *)

Lemma sendRequest_throws_prefix w p request e :
  snd (sendRequest w p request) = Throw e ->
  exists detail,
    e = new_Error (sendRequest_error_prefix (LLMProvider.provider p) +:+ detail).
Proof.
  unfold sendRequest. destruct (LLMProvider.provider p); simpl.
  - unfold sendVSCodeLMRequest.
    destruct (lm_selectChatModels w _) as [[|m ms]|e0]; simpl;
      [intros [= <-]; by eexists| |intros [= <-]; by eexists].
    destruct (lm_sendRequest w m _) as [fragments|e0]; simpl; [done|].
    intros [= <-]. by eexists.
  - unfold sendOllamaRequest.
    destruct (axios_post_generate w _ _) as [data|server_error message|e0];
      [done|intros [= <-]; by eexists..].
  - intros [= <-]. by eexists.
Qed.

(** X11: the error message of a failed item tells the stage that failed.
    It is "Failed to read <path>: <cause>" when [stat], [readDirectory] or
    [readFile] threw [cause]; the [TypeError] message about [replace] when
    the item handed in for a prompt has no [content]; or the backend's
    error behind the provider's prefix ("VSCode LM error: ", "Ollama error: "
    or "Unsupported provider: "). *)
Theorem failed_item_names_the_stage w p uri type item model value :
  snd (processItem w p uri type item model) = Ok value ->
  ProcessingResult.success value = false ->
  exists message,
    value = failed_result uri message
    /\ ((exists cause,
            message = "Failed to read " +:+ fsPath uri +:+ ": " +:+ thrown_toString cause
            /\ (fs_stat w uri = Throw cause \/ fs_readDirectory w uri = Throw cause
                \/ fs_readFile w uri = Throw cause))
        \/ (message = "Cannot read properties of undefined (reading 'replace')"
            /\ type = KPrompt /\ item_content item = None)
        \/ (exists detail,
               message = sendRequest_error_prefix (LLMProvider.provider p) +:+ detail)).
Proof.
  rewrite processItem_value, processItem_try_eq. intros [= <-].
  destruct (snd (getFileContent w uri)) as [content|e] eqn:Hget.
  - destruct (buildPrompt w uri content type item) as [prompt|e] eqn:Hbuild.
    + destruct (sendRequest w p (item_request model prompt)) as [slog [response|e]] eqn:Hsend;
        [done|].
      intros _. eexists. split; [done|]. right; right.
      destruct (sendRequest_throws_prefix w p (item_request model prompt) e)
        as (detail & ->); [by rewrite Hsend|]. by exists detail.
    + intros _. eexists. split; [done|]. right; left.
      rewrite (buildPrompt_throws _ _ _ _ _ _ Hbuild). split; [done|].
      unfold buildPrompt, promptTemplate_of in Hbuild. by destruct type, (item_content item).
  - intros _. eexists. split; [done|]. left.
    destruct (getFileContent_throws _ _ _ Hget) as (cause & -> & Hcause). by exists cause.
Qed.

Lemma failed_item_names_the_stage_witness :
  exists message,
    snd (processItem (demo_world ["gpt"]) (LLMProvider.mk VscodeLm "" ["gpt"])
           {| fsPath := "/x/bad.txt" |} KPrompt demo_prompt "gpt")
    = Ok (failed_result {| fsPath := "/x/bad.txt" |} message).
Proof.
  destruct (snd (processItem (demo_world ["gpt"]) (LLMProvider.mk VscodeLm "" ["gpt"])
                   {| fsPath := "/x/bad.txt" |} KPrompt demo_prompt "gpt"))
    as [value|e] eqn:Hrun; [|by vm_compute in Hrun].
  assert (ProcessingResult.success value = false) as Hfailed.
  { vm_compute in Hrun. by injection Hrun as <-. }
  destruct (failed_item_names_the_stage (demo_world ["gpt"])
              (LLMProvider.mk VscodeLm "" ["gpt"]) {| fsPath := "/x/bad.txt" |}
              KPrompt demo_prompt "gpt" value Hrun Hfailed) as (message & -> & _).
  by exists message.
Defined.

(** ** Model selection and the model list *)

(** X12: [selectModel] asks only when there is a real choice.  It never
    changes the provider's kind or endpoint, and does no discovery when
    the list it holds is not empty.  With no model after discovery it
    shows "No models available for <provider>" and returns [undefined];
    with exactly one it returns that one without asking or reporting
    anything; with more it returns what the quick pick gives, and that is
    the only way it can throw or stay pending. *)
Theorem selectModel_asks_only_when_there_is_a_choice w p log p' selected :
  selectModel w p = (log, p', selected) ->
  LLMProvider.provider p' = LLMProvider.provider p
  /\ LLMProvider.ollamaEndpoint p' = LLMProvider.ollamaEndpoint p
  /\ (LLMProvider.availableModels p <> [] -> p' = p)
  /\ match LLMProvider.availableModels p' with
     | [] =>
         selected = Returned None
         /\ last log = Some (UiError ("No models available for "
                                      +:+ ProviderKind_text (LLMProvider.provider p)))
     | [m] => selected = Returned (Some m) /\ log = []
     | models => selected = showQuickPick w models /\ log = []
     end.
Proof.
  unfold selectModel, getAvailableModels.
  destruct (match LLMProvider.availableModels p with
            | [] => refreshAvailableModels w p
            | _ :: _ => ([], p)
            end) as [log0 p0] eqn:Hget.
  assert (LLMProvider.provider p0 = LLMProvider.provider p
          /\ LLMProvider.ollamaEndpoint p0 = LLMProvider.ollamaEndpoint p
          /\ (LLMProvider.availableModels p <> [] -> p0 = p)
          /\ (LLMProvider.availableModels p0 <> [] -> log0 = [])) as (Hk & He & Hc & Hl).
  { destruct (LLMProvider.availableModels p) eqn:Hcache;
      [|by injection Hget as <- <-].
    unfold refreshAvailableModels in Hget. destruct (LLMProvider.provider p) eqn:Hkind.
    - destruct (lm_selectChatModels w _); by injection Hget as <- <-.
    - destruct (axios_get_tags w _) as [[names|]|]; by injection Hget as <- <-.
    - injection Hget as <- <-. by rewrite Hkind, Hcache. }
  destruct (LLMProvider.availableModels p0) as [|m [|m' models]] eqn:Hmodels;
    intros [= <- <- <-]; rewrite Hmodels; repeat split; try done;
    try (by apply Hl).
  by rewrite last_snoc, Hk.
Qed.

Lemma selectModel_asks_only_when_there_is_a_choice_witness :
  selectModel (demo_world ["gpt"]) (LLMProvider.mk VscodeLm "http://localhost:11434" [])
  = ([], LLMProvider.mk VscodeLm "http://localhost:11434" ["gpt"], Returned (Some "gpt")).
Proof.
  destruct (selectModel (demo_world ["gpt"])
              (LLMProvider.mk VscodeLm "http://localhost:11434" []))
    as [[log p'] selected] eqn:Hsel.
  destruct (selectModel_asks_only_when_there_is_a_choice _ _ _ _ _ Hsel)
    as (_ & _ & _ & Hcases).
  assert (p' = LLMProvider.mk VscodeLm "http://localhost:11434" ["gpt"]) as ->
    by (vm_compute in Hsel; by injection Hsel as <- <- <-).
  simpl in Hcases. by destruct Hcases as [-> ->].
Defined.

(** X13: the model list outlives the run, and cancelling outside a run is
    forgotten.  After a run that returned, the engine's provider holds a
    non-empty model list, so the next model selection does no discovery
    and reports nothing, whatever the backends would answer by then; the
    token source is gone, so [cancel()] does nothing; and a [cancel()]
    issued on an idle engine has no effect on the run that follows. *)
Theorem model_list_outlives_the_run w this uris type item batchSize log this' summary :
  isCurrentlyProcessing this = false ->
  process w this uris type item batchSize = (log, this', Returned summary) ->
  (forall w2, getAvailableModels w2 (BatchProcessor.llmProvider this')
              = ([], BatchProcessor.llmProvider this'))
  /\ cancel this' = ([], this')
  /\ (forall w2 uris2 type2 item2 batchSize2,
         process w2 (snd (cancel this)) uris2 type2 item2 batchSize2
         = process w2 this uris2 type2 item2 batchSize2).
Proof.
  intros Hidle Hrun.
  destruct (process_returned_loop _ _ _ _ _ _ _ _ _ Hidle Hrun)
    as (log0 & log1 & provider & model & batches & this1 & log2 & this2 & l & log3
        & Hsel & _ & _ & _ & _ & _ & _ & _ & _ & _ & Hp).
  destruct (process_completed _ _ _ _ _ _ _ _ _ Hidle Hrun)
    as (entered & inner & left & _ & _ & _ & _ & _ & _ & Hfin); [done|].
  split; [|split].
  - intros w2. rewrite Hp. unfold getAvailableModels.
    unfold selectModel in Hsel.
    destruct (getAvailableModels w (BatchProcessor.llmProvider this)) as [glog p0].
    destruct (LLMProvider.availableModels p0) as [|m [|m' models]] eqn:Hmodels;
      injection Hsel as <- <- Hsel; try done; by rewrite Hmodels.
  - by rewrite Hfin.
  - intros w2 uris2 type2 item2 batchSize2. unfold process, process_enter, cancel.
    unfold isCurrentlyProcessing in Hidle.
    destruct (BatchProcessor.cancellationToken this); simpl; by rewrite Hidle.
Qed.

Lemma model_list_outlives_the_run_witness :
  exists log this' summary,
    process (demo_world ["gpt"]) (demo_engine false) demo_targets KPrompt demo_prompt 2
    = (log, this', Returned summary)
    /\ LLMProvider.availableModels (BatchProcessor.llmProvider this') = ["gpt"]
    /\ cancel this' = ([], this').
Proof.
  destruct (process (demo_world ["gpt"]) (demo_engine false) demo_targets KPrompt
              demo_prompt 2) as [[log this'] outcome] eqn:Hrun.
  assert (exists summary,
             outcome = Returned summary
             /\ LLMProvider.availableModels (BatchProcessor.llmProvider this') = ["gpt"])
    as (summary & -> & Hmodels).
  { vm_compute in Hrun. injection Hrun as <- <- <-. by eexists. }
  destruct (model_list_outlives_the_run (demo_world ["gpt"]) (demo_engine false)
              demo_targets KPrompt demo_prompt 2 log this' summary eq_refl Hrun)
    as (_ & Hcancel & _).
  by exists log, this', summary.
Defined.

(** ** The [batch_process_files] handler *)

Lemma lookup_item_reply w server args requestId reply :
  lookup_item w server args requestId = Ok (inl reply) ->
  exists message, reply = error_response (-32602) message requestId.
Proof.
  unfold lookup_item. destruct (strict_eq_str (arg_type args) "task").
  - destruct (Array_find w _ _) as [[task|]|e]; intros [= <-]. by eexists.
  - destruct (strict_eq_str (arg_type args) "prompt").
    + destruct (getPrompt _ _); intros [= <-]. by eexists.
    + intros [= <-]. by eexists.
Qed.

(** The two ways through the handler: an early reply, before anything is
    done; or a run on the files found, whose end makes the reply. *)
Lemma handleBatchProcessFiles_cases w server args requestId log server' outcome :
  handleBatchProcessFiles w server args requestId = (log, server', outcome) ->
  (log = [] /\ server' = server
   /\ exists code message,
        outcome = Returned (error_response code message requestId)
        /\ (code = -32602 \/ code = -32603))
  \/ (exists file_patterns type item uris this' ended,
         arg_file_patterns args = VArray file_patterns
         /\ lookup_item w server args requestId = Ok (inr (type, item))
         /\ find_files w file_patterns [] = Ok uris
         /\ uris <> []
         /\ process w (MCPServer.batchProcessor server) uris type item (batch_size_of args)
            = (log, this', ended)
         /\ server' = with_batchProcessor server this'
         /\ outcome = reply_of_run ended requestId).
Proof.
  unfold handleBatchProcessFiles. fold (batch_size_of args).
  destruct (arg_file_patterns args) as [| | | | |file_patterns] eqn:Hpatterns;
    try (intros [= <- <- <-]; left; repeat split; eexists _, _; split; [done|by left]).
  destruct (negb (truthy (arg_type args)) || negb (truthy (arg_item_name args)));
    [intros [= <- <- <-]; left; repeat split; eexists _, _; split; [done|by left]|].
  destruct (lookup_item w server args requestId) as [[reply|[type item]]|error] eqn:Hitem.
  - intros [= <- <- <-]. left. repeat split.
    destruct (lookup_item_reply _ _ _ _ _ Hitem) as (message & ->).
    eexists _, _. split; [done|by left].
  - destruct (find_files w file_patterns []) as [[|uri uris]|error] eqn:Hfiles.
    + intros [= <- <- <-]. left. repeat split. eexists _, _. split; [done|by left].
    + destruct (process w (MCPServer.batchProcessor server) (uri :: uris) type item
                  (batch_size_of args)) as [[plog this'] ended] eqn:Hrun.
      intros [= <- <- <-]. right.
      exists file_patterns, type, item, (uri :: uris), this', ended.
      repeat split; done.
    + intros [= <- <- <-]. left. repeat split. eexists _, _. split; [done|by right].
  - intros [= <- <- <-]. left. repeat split. eexists _, _. split; [done|by right].
Qed.


Lemma process_busy w this uris type item batchSize :
  isCurrentlyProcessing this = true ->
  process w this uris type item batchSize
  = ([], this, Threw (new_Error "Another batch operation is already in progress")).
Proof.
  unfold isCurrentlyProcessing, process, process_enter. by intros ->.
Qed.

Lemma process_returned_idle w this uris type item batchSize log this' summary :
  process w this uris type item batchSize = (log, this', Returned summary) ->
  isCurrentlyProcessing this = false.
Proof.
  unfold isCurrentlyProcessing, process, process_enter.
  by destruct (BatchProcessor.isProcessing this).
Qed.

(** X14: the [batch_process_files] handler never throws and never touches
    the task or prompt lists.  Each reply it gives echoes the request id
    and carries either a result or an error, never both and never
    neither; an error has code -32602 or -32603. *)
Theorem batch_process_files_replies_are_well_formed w server args requestId
    log server' outcome :
  handleBatchProcessFiles w server args requestId = (log, server', outcome) ->
  (forall e, outcome <> Threw e)
  /\ MCPServer.taskManager server' = MCPServer.taskManager server
  /\ MCPServer.promptManager server' = MCPServer.promptManager server
  /\ (forall reply,
        outcome = Returned reply ->
        MCPResponse.id reply = requestId
        /\ (is_Some (MCPResponse.result reply) <-> MCPResponse.error reply = None)
        /\ (forall e, MCPResponse.error reply = Some e ->
                      MCPError.code e = -32602 \/ MCPError.code e = -32603)).
Proof.
  intros H.
  destruct (handleBatchProcessFiles_cases _ _ _ _ _ _ _ H)
    as [(-> & -> & code & message & -> & Hcode)
       |(file_patterns & type & item & uris & this' & ended & _ & _ & _ & _ & _ & -> & ->)].
  - do 3 (split; [done|]). intros reply [= <-]. simpl. split; [done|]. split.
    + split; [by intros [? [=]]|done].
    + by intros e [= <-].
  - do 3 (split; [by destruct ended|]).
    destruct ended as [result|error|]; intros reply [= <-]; simpl;
      (split; [done|]); split.
    + split; [done|by eexists].
    + done.
    + split; [by intros [? [=]]|done].
    + intros e [= <-]. by right.
Qed.

Lemma batch_process_files_replies_are_well_formed_witness :
  exists log server' reply,
    handleBatchProcessFiles (demo_world_with_files ["gpt"]) (demo_server false)
      (demo_args "doc" [VString "**/*.txt"]) (VNumber 7)
    = (log, server', Returned reply)
    /\ MCPResponse.id reply = VNumber 7.
Proof.
  destruct (handleBatchProcessFiles (demo_world_with_files ["gpt"]) (demo_server false)
              (demo_args "doc" [VString "**/*.txt"]) (VNumber 7))
    as [[log server'] outcome] eqn:Hrun.
  destruct (batch_process_files_replies_are_well_formed _ _ _ _ _ _ _ Hrun)
    as (_ & _ & _ & Hreply).
  assert (exists reply, outcome = Returned reply) as (reply & ->).
  { vm_compute in Hrun. injection Hrun as <- <- <-. by eexists. }
  exists log, server', reply. split; [done|]. by apply Hreply.
Defined.

(** X15: a reply with code -32602 (invalid parameters, unknown prompt,
    wrong type, no matching file) is given before anything is done: no
    effect has taken place, no run was started and the server is as it
    was. *)
Theorem invalid_requests_have_no_effect w server args requestId log server' reply e :
  handleBatchProcessFiles w server args requestId = (log, server', Returned reply) ->
  MCPResponse.error reply = Some e ->
  MCPError.code e = -32602 ->
  log = [] /\ server' = server.
Proof.
  intros H He Hcode.
  destruct (handleBatchProcessFiles_cases _ _ _ _ _ _ _ H)
    as [(-> & -> & _)
       |(file_patterns & type & item & uris & this' & ended & _ & _ & _ & _ & _ & _ & Hout)];
    [done|].
  destruct ended as [result|error|]; simpl in Hout; [| |done];
    injection Hout as ->; simpl in He; [done|].
  injection He as <-. done.
Qed.

Lemma invalid_requests_have_no_effect_witness :
  exists reply,
    handleBatchProcessFiles (demo_world_with_files ["gpt"]) (demo_server false)
      (demo_args "nope" [VString "**/*.txt"]) (VNumber 7)
    = ([], demo_server false, Returned reply).
Proof.
  destruct (handleBatchProcessFiles (demo_world_with_files ["gpt"]) (demo_server false)
              (demo_args "nope" [VString "**/*.txt"]) (VNumber 7))
    as [[log server'] outcome] eqn:Hrun.
  assert (exists reply e, outcome = Returned reply /\ MCPResponse.error reply = Some e
                          /\ MCPError.code e = -32602)
    as (reply & e & -> & He & Hcode).
  { vm_compute in Hrun. injection Hrun as <- <- <-. by eexists _, _. }
  destruct (invalid_requests_have_no_effect _ _ _ _ _ _ _ _ Hrun He Hcode) as [-> ->].
  by exists reply.
Defined.



Lemma process_results_prefix w this uris type item batchSize log this' summary :
  process w this uris type item batchSize = (log, this', Returned summary) ->
  map ProcessingResult.uri (BatchResult.results summary) `prefix_of` uris.
Proof.
  intros Hrun. pose proof (process_returned_idle _ _ _ _ _ _ _ _ _ Hrun) as Hidle.
  destruct (process_completed _ _ _ _ _ _ _ _ _ Hidle Hrun)
    as (entered & inner & left & _ & Ha & Hc & _ & Htry & _); [done|].
  destruct (process_try_returned _ _ _ _ _ _ _ _ _ Ha Hc Htry)
    as (batches & k & model & provider & log1 & _ & Hbatches & _ & Hres & _).
  rewrite Hres, map_map.
  rewrite (map_ext _ id) by (intros u; apply item_outcome_uri). rewrite map_id.
  rewrite concat_take_prefix, (createBatches_concat _ _ _ Hbatches).
  exists (drop (length (concat (take k batches))) uris). by rewrite take_drop.
Qed.

(** X17: a reply with a result tells the run as it went.  It has no
    error; [processed] is the number of rows and the sum of [successful]
    and [failed]; the rows are, in order, the first files found for the
    patterns (all of them unless the run was cancelled), so a file found
    for two patterns has two rows; the engine is idle again; and [success]
    is true whatever the rows say. *)
Theorem batch_reply_tells_the_run w server args requestId log server' reply r :
  handleBatchProcessFiles w server args requestId = (log, server', Returned reply) ->
  MCPResponse.result reply = Some r ->
  MCPResponse.error reply = None
  /\ MCPResult.success r = true
  /\ MCPResult.processed r = Z.of_nat (length (MCPResult.results r))
  /\ MCPResult.processed r = MCPResult.successful r + MCPResult.failed r
  /\ (exists file_patterns uris,
         arg_file_patterns args = VArray file_patterns
         /\ find_files w file_patterns [] = Ok uris
         /\ map ResultRow.file (MCPResult.results r) `prefix_of` map fsPath uris)
  /\ isCurrentlyProcessing (MCPServer.batchProcessor server') = false.
Proof.
  intros H Hr.
  destruct (handleBatchProcessFiles_cases _ _ _ _ _ _ _ H)
    as [(_ & _ & code & message & [= ->] & _)
       |(file_patterns & type & item & uris & this' & ended
         & Hpatterns & _ & Hfiles & _ & Hrun & -> & Hout)]; [done|].
  destruct ended as [summary|error|]; simpl in Hout; [| |done];
    injection Hout as ->; simpl in Hr; [|done].
  injection Hr as <-. simpl.
  pose proof (process_returned_idle _ _ _ _ _ _ _ _ _ Hrun) as Hidle.
  destruct (process_summary_figures _ _ _ _ _ _ _ _ _ Hidle Hrun)
    as (Hlen & _ & _ & Hsum & _).
  destruct (process_completed _ _ _ _ _ _ _ _ _ Hidle Hrun)
    as (entered & inner & left & _ & _ & _ & _ & _ & _ & ->); [done|].
  repeat split; try done.
  - by rewrite length_map.
  - exists file_patterns, uris. repeat split; try done.
    rewrite map_map. simpl.
    destruct (process_results_prefix _ _ _ _ _ _ _ _ _ Hrun) as [rest ->].
    rewrite map_app. eexists. f_equal. by rewrite map_map.
Qed.

Lemma batch_reply_tells_the_run_witness :
  exists log server' reply r,
    handleBatchProcessFiles (demo_world_with_files ["gpt"]) (demo_server false)
      (demo_args "doc" [VString "**/*.txt"; VString "**/a.*"]) (VNumber 7)
    = (log, server', Returned reply)
    /\ MCPResponse.result reply = Some r
    /\ MCPResult.processed r = 4
    /\ MCPResult.processed r = MCPResult.successful r + MCPResult.failed r.
Proof.
  destruct (handleBatchProcessFiles (demo_world_with_files ["gpt"]) (demo_server false)
              (demo_args "doc" [VString "**/*.txt"; VString "**/a.*"]) (VNumber 7))
    as [[log server'] outcome] eqn:Hrun.
  assert (exists reply r, outcome = Returned reply /\ MCPResponse.result reply = Some r
                          /\ MCPResult.processed r = 4)
    as (reply & r & -> & Hr & Hfour).
  { vm_compute in Hrun. injection Hrun as <- <- <-. by eexists _, _. }
  destruct (batch_reply_tells_the_run _ _ _ _ _ _ _ _ Hrun Hr) as (_ & _ & _ & Hsum & _).
  by exists log, server', reply, r.
Defined.

(** X18: the files handed to the run are those found for each pattern,
    in pattern order and as often as they are found: [find_files]
    succeeds exactly when [findFiles] does for every pattern, with the
    concatenation of what it found, and otherwise throws what the first
    failing pattern threw. *)
Theorem find_files_concatenates_in_pattern_order w file_patterns acc :
  (forall uris,
     find_files w file_patterns acc = Ok uris
     <-> exists found,
           Forall2 (fun pattern files => findFiles w pattern = Ok files)
             file_patterns found
           /\ uris = acc ++ concat found)
  /\ (forall e,
        find_files w file_patterns acc = Throw e
        <-> exists k pattern,
              file_patterns !! k = Some pattern
              /\ findFiles w pattern = Throw e
              /\ Forall (fun earlier => exists files, findFiles w earlier = Ok files)
                   (take k file_patterns)).
Proof.
  revert acc. induction file_patterns as [|pattern rest IH]; intros acc; simpl.
  - split.
    + intros uris. split.
      * intros [= <-]. exists []. split; [constructor|by rewrite app_nil_r].
      * intros (found & Hfound & ->). apply Forall2_nil_inv_l in Hfound as ->.
        simpl. by rewrite app_nil_r.
    + intros e. split; [done|]. by intros (k & pattern & Hk & _).
  - destruct (findFiles w pattern) as [files|e0] eqn:Hfind.
    + destruct (IH (acc ++ files)) as [IHok IHthrow]. split.
      * intros uris. rewrite IHok. split.
        -- intros (found & Hfound & ->). exists (files :: found).
           split; [by constructor|]. simpl. by rewrite app_assoc.
        -- intros (found & Hfound & ->).
           apply Forall2_cons_inv_l in Hfound as (files' & found' & Hfiles & Hfound & ->).
           rewrite Hfind in Hfiles. injection Hfiles as <-.
           exists found'. split; [done|]. simpl. by rewrite app_assoc.
      * intros e. rewrite IHthrow. split.
        -- intros (k & pattern' & Hk & Hthrow & Hearlier).
           exists (S k), pattern'. repeat split; try done. simpl.
           constructor; [by eexists|done].
        -- intros ([|k] & pattern' & Hk & Hthrow & Hearlier); simpl in Hk.
           ++ injection Hk as <-. by rewrite Hfind in Hthrow.
           ++ exists k, pattern'. repeat split; try done. simpl in Hearlier.
              by apply Forall_cons in Hearlier as [_ ?].
    + split.
      * intros uris. split; [done|]. intros (found & Hfound & _).
        apply Forall2_cons_inv_l in Hfound as (files' & found' & Hfiles & _).
        by rewrite Hfind in Hfiles.
      * intros e. split.
        -- intros [= <-]. exists 0%nat, pattern. repeat split; done.
        -- intros ([|k] & pattern' & Hk & Hthrow & Hearlier); simpl in Hk.
           ++ injection Hk as <-. rewrite Hfind in Hthrow. by injection Hthrow as <-.
           ++ simpl in Hearlier. apply Forall_cons in Hearlier as [[files Hfiles] _].
              by rewrite Hfind in Hfiles.
Qed.

(** ** Requests *)

Lemma handleBatchProcessFiles_any_cases w h server args requestId log server' outcome :
  handleBatchProcessFiles_any w h server args requestId = (log, server', outcome) ->
  (log = [] /\ server' = server
   /\ exists code message,
        outcome = Returned (error_response code message requestId)
        /\ (code = -32602 \/ code = -32603))
  \/ (exists a uris type item this' ended,
         args = Object a
         /\ process w (MCPServer.batchProcessor server) uris type item (batch_size_of a)
            = (log, this', ended)
         /\ server' = with_batchProcessor server this'
         /\ outcome = reply_of_run ended requestId).
Proof.
  destruct args as [a| |]; simpl.
  - intros H. destruct (handleBatchProcessFiles_cases _ _ _ _ _ _ _ H)
      as [Hearly|(file_patterns & type & item & uris & this' & ended
                  & _ & _ & _ & _ & Hrun & -> & ->)]; [by left|].
    right. by exists a, uris, type, item, this', ended.
  - intros [= <- <- <-]. left. repeat split. eexists _, _. split; [done|by right].
  - intros [= <- <- <-]. left. repeat split. eexists _, _. split; [done|by right].
Qed.

Lemma process_keeps_status w this uris type item batchSize log this' outcome :
  process w this uris type item batchSize = (log, this', outcome) ->
  outcome <> Pending ->
  isCurrentlyProcessing this' = isCurrentlyProcessing this.
Proof.
  intros Hrun Hdone. destruct (isCurrentlyProcessing this) eqn:Hflag.
  - rewrite (process_busy _ _ _ _ _ _ Hflag) in Hrun. by injection Hrun as <- <- <-.
  - destruct (process_completed _ _ _ _ _ _ _ _ _ Hflag Hrun Hdone)
      as (entered & inner & left & _ & _ & _ & _ & _ & _ & ->). done.
Qed.

(** X19: [handleRequest] rejects in one case only: a [tools/call] request
    whose [params] is [undefined] or [null].  The [TypeError] of the
    destructuring in [handleToolCall] is then the rejection of
    [handleRequest] itself, whose [try] does not await the handler; every
    other request is answered with a reply, or stays pending with its run. *)
Theorem handleRequest_rejects_only_without_params w h server request log server' outcome :
  handleRequest w h server request = (log, server', outcome) ->
  forall e,
    outcome = Threw e
    <-> MCPRequest.method request = "tools/call"
        /\ ((MCPRequest.params request = Undefined
             /\ e = new_TypeError (destructure_message h "name" "request.params"
                                     VUndefined))
            \/ (MCPRequest.params request = Null
                /\ e = new_TypeError (destructure_message h "name" "request.params"
                                        VNull))).
Proof.
  unfold handleRequest. intros H e.
  destruct (decide (MCPRequest.method request = "tools/list")) as [Hm|_].
  { injection H as <- <- <-. rewrite Hm. split; [done|by intros [[=] _]]. }
  destruct (decide (MCPRequest.method request = "tools/call")) as [Hm|Hm].
  2:{ split; [|by intros [? _]]. repeat case_decide; by injection H as <- <- <-. }
  unfold handleToolCall in H.
  destruct (MCPRequest.params request) as [params| |].
  - split; [|by intros [_ [[[=] _]|[[=] _]]]].
    intros ->. exfalso.
    destruct (strict_eq_str (p_name params) "batch_process_files").
    + destruct (handleBatchProcessFiles_any w h server (p_arguments params)
                  (MCPRequest.id request)) as [[blog bserver] bout] eqn:Hbatch.
      destruct (handleBatchProcessFiles_any_cases _ _ _ _ _ _ _ _ Hbatch)
        as [(_ & _ & code & message & -> & _)
           |(a & uris & type & item & this' & ended & _ & _ & _ & ->)]; [done|].
      by destruct ended.
    + by repeat (destruct (strict_eq_str _ _)).
  - injection H as <- <- <-. split.
    + intros [= <-]. split; [done|by left].
    + by intros [_ [[_ ->]|[[=] _]]].
  - injection H as <- <- <-. split.
    + intros [= <-]. split; [done|by right].
    + by intros [_ [[[=] _]|[_ ->]]].
Qed.

Lemma handleRequest_rejects_only_without_params_witness :
  handleRequest (demo_world ["gpt"]) demo_host (demo_server false)
    (MCPRequest.mk "tools/call" Undefined (VNumber 7))
  = ([], demo_server false,
     Threw (new_TypeError
              "Cannot destructure property 'name' of 'request.params' as it is undefined.")).
Proof.
  destruct (handleRequest (demo_world ["gpt"]) demo_host (demo_server false)
              (MCPRequest.mk "tools/call" Undefined (VNumber 7)))
    as [[log server'] outcome] eqn:Hrun.
  pose proof (proj2 (handleRequest_rejects_only_without_params (demo_world ["gpt"])
                       demo_host (demo_server false)
                       (MCPRequest.mk "tools/call" Undefined (VNumber 7))
                       log server' outcome Hrun
                       (new_TypeError (destructure_message demo_host "name"
                                         "request.params" VUndefined)))
                (conj eq_refl (or_introl (conj eq_refl eq_refl)))) as ->.
  vm_compute in Hrun. by injection Hrun as <- <-.
Defined.







(** ** The tools *)

Lemma handleBatchProcessFiles_invalid_message w server args requestId log server' reply
    message :
  handleBatchProcessFiles w server args requestId = (log, server', Returned reply) ->
  MCPResponse.error reply = Some (MCPError.mk (-32602) message) ->
  exists c rest, message = String c rest /\ c <> "U"%char.
Proof.
  unfold handleBatchProcessFiles.
  assert (Hinvalid :
            forall log0 server0 reply0,
              (@nil Effect, server,
               Returned (error_response (-32602)
                           "Invalid parameters. Required: type, item_name, file_patterns"
                           requestId)) = (log0, server0, Returned reply0) ->
              MCPResponse.error reply0 = Some (MCPError.mk (-32602) message) ->
              exists c rest, message = String c rest /\ c <> "U"%char).
  { intros ? ? ? [= <- <- <-] [= <-]. by eexists _, _. }
  destruct (arg_file_patterns args) as [| | | | |file_patterns]; try apply Hinvalid.
  destruct (negb (truthy (arg_type args)) || negb (truthy (arg_item_name args)));
    [apply Hinvalid|].
  unfold lookup_item.
  destruct (strict_eq_str (arg_type args) "task").
  { simpl. by intros [= <- <- <-] [=]. }
  destruct (strict_eq_str (arg_type args) "prompt").
  - destruct (getPrompt _ _) as [prompt|].
    + destruct (find_files w file_patterns []) as [[|uri uris]|error].
      * intros [= <- <- <-] [= <-]. by eexists _, _.
      * destruct (process w _ _ _ _ _) as [[plog this'] [result|error|]];
          intros [= <- <- <-]; [done|by intros [=]].
      * by intros [= <- <- <-] [=].
    + intros [= <- <- <-] [= <-]. by eexists _, _.
  - intros [= <- <- <-] [= <-]. by eexists _, _.
Qed.

(** X21: the tools that [tools/list] advertises are the tools that
    [tools/call] knows.  A call naming an advertised tool is never
    answered "Unknown tool", a call naming anything else always is, with
    no effect; and leaving out any of the properties that the schema of
    [batch_process_files] marks as required is answered "Invalid
    parameters", with no effect. *)
Theorem advertised_tools_are_the_known_tools w h server request params :
  MCPRequest.params request = Object params ->
  ((exists tool, In tool tools /\ p_name params = VString (Tool.name tool)) ->
   forall log server',
     handleToolCall w h server request
     <> (log, server',
         Returned (unknown_tool_reply (p_name params) (MCPRequest.id request))))
  /\ (~ (exists tool, In tool tools /\ p_name params = VString (Tool.name tool)) ->
      handleToolCall w h server request
      = ([], server,
         Returned (unknown_tool_reply (p_name params) (MCPRequest.id request))))
  /\ (forall tool property args,
        In tool tools -> Tool.name tool = "batch_process_files" ->
        In property (Tool.required tool) ->
        handleBatchProcessFiles w server (without_argument property args)
          (MCPRequest.id request)
        = ([], server,
           Returned (error_response (-32602)
                       "Invalid parameters. Required: type, item_name, file_patterns"
                       (MCPRequest.id request)))).
Proof.
  intros Hparams. unfold handleToolCall. rewrite Hparams. split; [|split].
  - intros (tool & Hin & Hname) log server'. rewrite Hname. simpl.
    destruct Hin as [<-|[<-|[<-|[<-|[]]]]]; simpl; try done.
    destruct (handleBatchProcessFiles_any w h server (p_arguments params)
                (MCPRequest.id request)) as [[blog bserver] bout] eqn:Hbatch.
    destruct bout as [reply| |]; [|done..].
    intros [= -> -> Hid Herr Hres]. destruct reply as [result error rid].
    simpl in *. subst.
    destruct (p_arguments params) as [a| |]; simpl in Hbatch.
    + destruct (handleBatchProcessFiles_invalid_message _ _ _ _ _ _ _ _ Hbatch eq_refl)
        as (c & rest & [= <- _] & Hc). done.
    + by injection Hbatch.
    + by injection Hbatch.
  - intros Hnot.
    assert (Hother : forall tool, In tool tools ->
                                  strict_eq_str (p_name params) (Tool.name tool) = false).
    { intros tool Hin. destruct (strict_eq_str (p_name params) (Tool.name tool)) eqn:Heq;
        [|done].
      exfalso. apply Hnot. exists tool. split; [done|].
      destruct (p_name params); try done. simpl in Heq. by case_bool_decide; subst. }
    pose proof (Hother _ (or_introl eq_refl)) as H1.
    pose proof (Hother _ (or_intror (or_introl eq_refl))) as H2.
    pose proof (Hother _ (or_intror (or_intror (or_introl eq_refl)))) as H3.
    pose proof (Hother _ (or_intror (or_intror (or_intror (or_introl eq_refl))))) as H4.
    simpl in H1, H2, H3, H4. by rewrite H1, H2, H3, H4.
  - intros tool property args Hin Hname Hrequired.
    destruct Hin as [<-|[<-|[<-|[<-|[]]]]]; try done. simpl in Hrequired.
    unfold handleBatchProcessFiles, without_argument.
    destruct Hrequired as [<-|[<-|[<-|[]]]]; simpl; try done.
    + by destruct (arg_file_patterns args).
    + destruct (arg_file_patterns args); try done. by rewrite orb_true_r.
Qed.

Lemma advertised_tools_are_the_known_tools_witness :
  handleToolCall (demo_world ["gpt"]) demo_host (demo_server false)
    (demo_call "list_prompt" Undefined)
  = ([], demo_server false,
     Returned (error_reply (-32602) "Unknown tool: list_prompt" (VNumber 7))).
Proof.
  destruct (advertised_tools_are_the_known_tools (demo_world ["gpt"]) demo_host
              (demo_server false) (demo_call "list_prompt" Undefined)
              {| p_name := VString "list_prompt"; p_arguments := Undefined;
                 p_path := None |} eq_refl) as (_ & Hunknown & _).
  rewrite Hunknown; [done|].
  intros (tool & [<-|[<-|[<-|[<-|[]]]]] & [=]).
Defined.

(** X22: a request that completes leaves the processing status as it
    found it.  Whatever it was and however it ended (a reply or a
    rejection), [get_processing_status] answers after it what it answered
    before: a refused or invalid call changes nothing, and a run started
    by [batch_process_files] has released the engine by the time its
    reply is given. *)
Theorem completed_requests_keep_the_status w h server request log server' outcome :
  handleRequest w h server request = (log, server', outcome) ->
  outcome <> Pending ->
  forall requestId,
    handleGetProcessingStatus server' requestId
    = handleGetProcessingStatus server requestId.
Proof.
  intros H Hdone requestId. unfold handleGetProcessingStatus. do 2 f_equal.
  unfold handleRequest in H.
  repeat case_decide; try (by injection H as <- <- <-).
  unfold handleToolCall in H.
  destruct (MCPRequest.params request) as [params| |];
    [|by injection H as <- <- <-..].
  destruct (strict_eq_str (p_name params) "batch_process_files").
  - destruct (handleBatchProcessFiles_any w h server (p_arguments params)
                (MCPRequest.id request)) as [[blog bserver] bout] eqn:Hbatch.
    injection H as <- <- <-.
    destruct (handleBatchProcessFiles_any_cases _ _ _ _ _ _ _ _ Hbatch)
      as [(_ & -> & _)|(a & uris & type & item & this' & ended & _ & Hrun & -> & ->)];
      [done|].
    simpl. apply (process_keeps_status _ _ _ _ _ _ _ _ _ Hrun). by destruct ended.
  - repeat (destruct (strict_eq_str _ _)); by injection H as <- <- <-.
Qed.

Lemma completed_requests_keep_the_status_witness :
  exists log server' reply,
    handleRequest (demo_world_with_files ["gpt"]) demo_host (demo_server false)
      (demo_call "batch_process_files" (Object (demo_args "doc" [VString "**/*.txt"])))
    = (log, server', Returned reply)
    /\ log <> []
    /\ handleGetProcessingStatus server' (VNumber 8)
       = result_reply (RStatus false) (VNumber 8).
Proof.
  destruct (handleRequest (demo_world_with_files ["gpt"]) demo_host (demo_server false)
              (demo_call "batch_process_files"
                 (Object (demo_args "doc" [VString "**/*.txt"]))))
    as [[log server'] outcome] eqn:Hrun.
  assert (exists reply, outcome = Returned reply /\ log <> []) as (reply & -> & Hlog).
  { vm_compute in Hrun. injection Hrun as <- <- <-. by eexists. }
  exists log, server', reply. split; [done|]. split; [done|].
  by rewrite (completed_requests_keep_the_status (demo_world_with_files ["gpt"]) demo_host
                (demo_server false)
                (demo_call "batch_process_files"
                   (Object (demo_args "doc" [VString "**/*.txt"])))
                log server' (Returned reply) Hrun ltac:(done) (VNumber 8)).
Defined.

Lemma getPrompt_listed (prompts : list Prompt.t) (name : string) :
  In name (map Prompt.name prompts)
  <-> exists prompt, getPrompt prompts (VString name) = Some prompt.
Proof.
  unfold getPrompt. split.
  - intros Hin. apply in_map_iff in Hin as (prompt & <- & Hin).
    destruct (List.find _ prompts) as [found|] eqn:Hfind; [by eexists|].
    pose proof (List.find_none _ _ Hfind prompt Hin) as Hno. simpl in Hno.
    by case_bool_decide.
  - intros (prompt & Hfind). apply List.find_some in Hfind as [Hin Heq].
    simpl in Heq. case_bool_decide; [|done]. subst name.
    apply in_map_iff. by exists prompt.
Qed.

(** X23: the prompts that [list_prompts] names are the prompts that
    [batch_process_files] can use.  For a non-empty name, a prompt of that
    name is found exactly when the name is listed, and it is then the
    first prompt of that name; and the reply is "Prompt not found: <name>"
    exactly when the name is not listed. *)
Theorem listed_prompts_are_the_usable_prompts w server name file_patterns batch_size
    requestId :
  name <> "" ->
  let args := {| arg_type := VString "prompt"; arg_item_name := VString name;
                 arg_file_patterns := VArray file_patterns;
                 arg_batch_size := batch_size |} in
  exists names,
    handleListPromptsTool server requestId = result_reply (RNames names) requestId
    /\ (In name names
        <-> exists prompt,
              lookup_item w server args requestId = Ok (inr (KPrompt, ItemPrompt prompt))
              /\ Prompt.name prompt = name
              /\ List.find (fun p => bool_decide (Prompt.name p = name))
                   (MCPServer.promptManager server) = Some prompt)
    /\ (~ In name names
        <-> handleBatchProcessFiles w server args requestId
            = ([], server,
               Returned (error_response (-32602) ("Prompt not found: " +:+ name)
                           requestId))).
Proof.
  intros Hname args. eexists. split; [done|].
  unfold getPrompts. rewrite getPrompt_listed.
  assert (Hfind : forall prompts,
             getPrompt prompts (VString name)
             = List.find (fun p => bool_decide (Prompt.name p = name)) prompts).
  { intros prompts. unfold getPrompt. induction prompts as [|p prompts IH]; [done|].
    cbn [List.find]. rewrite IH. unfold strict_eq_str.
    by repeat case_bool_decide. }
  split.
  - unfold lookup_item. simpl. split.
    + intros (prompt & Hget). rewrite Hget. exists prompt. split; [done|].
      rewrite <- Hfind. split; [|done].
      unfold getPrompt in Hget. apply List.find_some in Hget as [_ Heq].
      simpl in Heq. by case_bool_decide.
    + intros (prompt & Hlookup & _). destruct (getPrompt _ _) as [found|]; [|done].
      by exists found.
  - unfold handleBatchProcessFiles, lookup_item. simpl.
    assert (negb (bool_decide (name = "")) = true) as Htruthy by (by case_bool_decide).
    rewrite Htruthy. simpl.
    destruct (getPrompt (MCPServer.promptManager server) (VString name)) as [prompt|].
    + split; [intros Hnot; exfalso; apply Hnot; by eexists|].
      destruct (find_files w file_patterns []) as [[|uri uris]|error]; [done| |done].
      destruct (process w _ _ _ _ _) as [[plog this'] [result|error|]]; done.
    + split; [done|]. by intros _ [? [=]].
Qed.

Lemma listed_prompts_are_the_usable_prompts_witness :
  handleListPromptsTool (demo_server false) (VNumber 1)
  = result_reply (RNames ["doc"]) (VNumber 1)
  /\ handleBatchProcessFiles (demo_world_with_files ["gpt"]) (demo_server false)
       (demo_args "docs" [VString "**/*.txt"]) (VNumber 2)
     = ([], demo_server false,
        Returned (error_response (-32602) "Prompt not found: docs" (VNumber 2))).
Proof.
  split; [done|].
  destruct (listed_prompts_are_the_usable_prompts (demo_world_with_files ["gpt"])
              (demo_server false) "docs" [VString "**/*.txt"] None (VNumber 2)
              ltac:(done)) as (names & Hlist & _ & Hmissing).
  apply Hmissing. injection Hlist as <-. simpl. by intros [[=]|[]].
Defined.

(** ** Templates with plain values *)

Lemma append_cons (c : ascii) (s t : string) : String c s +:+ t = String c (s +:+ t).
Proof. reflexivity. Qed.

Lemma append_empty_l (t : string) : "" +:+ t = t.
Proof. reflexivity. Qed.

Lemma append_empty_r (s : string) : s +:+ "" = s.
Proof. induction s as [|c s IH]; [done|]. by rewrite append_cons, IH. Qed.

Lemma append_assoc (s1 s2 s3 : string) : (s1 +:+ s2) +:+ s3 = s1 +:+ (s2 +:+ s3).
Proof. induction s1 as [|c s1 IH]; [done|]. by rewrite !append_cons, IH. Qed.

Lemma prefix_append (pat t : string) : String.prefix pat (pat +:+ t) = true.
Proof.
  induction pat as [|c pat IH]; [by destruct t|].
  rewrite append_cons. simpl. by destruct (ascii_dec c c).
Qed.

Lemma drop_chars_append (pat t : string) :
  JsString.drop_chars (String.length pat) (pat +:+ t) = t.
Proof.
  induction pat as [|c pat IH]; [by destruct t|]. by rewrite append_cons.
Qed.

(** Scanning over text without an opening brace finds no match. *)
Lemma scan_text pat' v s t before :
  free_of "{" s ->
  JsString.replace_scan (String "{" pat') v 0 before (s +:+ t)
  = s +:+ JsString.replace_scan (String "{" pat') v 0 (before +:+ s) t.
Proof.
  revert before. induction s as [|c s IH]; intros before Hs.
  - by rewrite !append_empty_l, append_empty_r.
  - apply Forall_cons in Hs as [Hc Hs]. rewrite !append_cons.
    cbn [JsString.replace_scan String.prefix].
    destruct (ascii_dec "{" c) as [<-|_]; [done|].
    rewrite (IH _ Hs), append_assoc. done.
Qed.

(** Passing over the rest of a match. *)
Lemma scan_skip pat v s t before :
  JsString.replace_scan pat v (String.length s) before (s +:+ t)
  = JsString.replace_scan pat v 0 (before +:+ s) t.
Proof.
  revert before. induction s as [|c s IH]; intros before.
  - rewrite append_empty_l, append_empty_r. by destruct t.
  - rewrite append_cons. cbn [JsString.replace_scan String.length].
    by rewrite IH, append_assoc.
Qed.

(** A match is replaced by a value without dollar signs as it is. *)
Lemma scan_match c pat' v t before :
  free_of "$" v ->
  JsString.replace_scan (String c pat') v 0 before (String c pat' +:+ t)
  = v +:+ JsString.replace_scan (String c pat') v 0 (before +:+ String c pat') t.
Proof.
  intros Hv. rewrite append_cons at 1. cbn [JsString.replace_scan].
  rewrite <- append_cons.
  rewrite prefix_append, (getSubstitution_plain _ _ _ _ Hv).
  change (String.length (String c pat') - 1)%nat with (String.length pat' - 0)%nat.
  rewrite Nat.sub_0_r, scan_skip, append_assoc. done.
Qed.

Lemma scan_no_match pat v c tl before :
  String.prefix pat (String c tl) = false ->
  JsString.replace_scan pat v 0 before (String c tl)
  = String c (JsString.replace_scan pat v 0 (before +:+ String c "") tl).
Proof. intros Hno. cbn [JsString.replace_scan]. by rewrite Hno. Qed.

(** The text of another placeholder is passed over. *)
Lemma scan_other k k' v t before :
  same_placeholder k k' = false ->
  JsString.replace_scan (placeholder_text k) v 0 before (placeholder_text k' +:+ t)
  = placeholder_text k'
    +:+ JsString.replace_scan (placeholder_text k) v 0 (before +:+ placeholder_text k') t.
Proof.
  intros Hother.
  assert (H0 : String.prefix (placeholder_text k) (placeholder_text k' +:+ t) = false)
    by (destruct k, k'; try done; vm_compute; reflexivity).
  assert (exists name,
             placeholder_text k' = String "{" (String "{" name) /\ free_of "{" name)
    as (name & Hk' & Hname).
  { destruct k'; eexists; (split; [reflexivity|]); unfold free_of; simpl;
      repeat constructor; done. }
  assert (exists pat', placeholder_text k = String "{" (String "{" pat'))
    as (pat' & Hpat) by (destruct k; by eexists).
  rewrite Hk' in H0 |- *. rewrite !append_cons in H0 |- *.
  rewrite (scan_no_match _ _ _ _ _ H0).
  rewrite scan_no_match.
  2:{ rewrite Hpat. destruct name as [|c name]; [by destruct k'|].
      apply Forall_cons in Hname as [Hc _]. rewrite append_cons.
      cbn [String.prefix].
      destruct (ascii_dec "{" "{"); [|done]. by destruct (ascii_dec "{" c). }
  rewrite Hpat, (scan_text _ v name t _ Hname), <- Hpat.
  by rewrite !append_cons, !append_assoc.
Qed.

(** One [replace] call of [buildPrompt] on a template whose text has no
    opening brace: the placeholder [k] gives way to [v], the rest stays. *)
Lemma replace_fills_one k v segments before :
  free_of "$" v -> well_cut segments ->
  JsString.replace_scan (placeholder_text k) v 0 before (render segments)
  = render (fill_one k v segments).
Proof.
  intros Hv Hcut. revert before.
  induction Hcut as [|[s|k'] segments Hseg _ IH]; intros before; simpl.
  - done.
  - assert (exists pat', placeholder_text k = String "{" pat') as (pat' & Hpat)
      by (destruct k; by eexists).
    rewrite Hpat, (scan_text pat' v s _ _ Hseg), <- Hpat. by rewrite IH.
  - destruct (same_placeholder k k') eqn:Hsame.
    + assert (k' = k) as -> by (by destruct k, k').
      assert (exists c pat', placeholder_text k = String c pat') as (c & pat' & Hpat)
        by (destruct k; by eexists _, _).
      rewrite Hpat, (scan_match c pat' v _ _ Hv), <- Hpat. simpl. by rewrite IH.
    + rewrite (scan_other k k' v _ _ Hsame). simpl. by rewrite IH.
Qed.

Lemma fill_one_well_cut k v segments :
  free_of "{" v -> well_cut segments -> well_cut (fill_one k v segments).
Proof.
  intros Hv Hcut. apply Forall_fmap. eapply Forall_impl; [exact Hcut|].
  intros [s|k'] Hseg; simpl; [done|]. by destruct (same_placeholder k k').
Qed.

Lemma fill_all (value : Placeholder -> string) segments :
  render (fill_one WORKSPACE_PATH (value WORKSPACE_PATH)
            (fill_one FILE_NAME (value FILE_NAME)
               (fill_one FILE_PATH (value FILE_PATH)
                  (fill_one FILE_CONTENT (value FILE_CONTENT) segments))))
  = fill value segments.
Proof.
  induction segments as [|[s|k] segments IH]; simpl; [done|by rewrite IH|].
  destruct k; simpl; by rewrite IH.
Qed.

(** X24: on a template whose text outside the placeholders holds no
    opening brace, and with values (file content, path, file name,
    workspace path) that hold neither a dollar sign nor an opening brace,
    [buildPrompt] is plain substitution: each placeholder gives way to its
    value, every occurrence of it, and everything else stays as it is. *)
Theorem buildPrompt_fills_plain_templates w uri content type item segments :
  promptTemplate_of content type item = Some (render segments) ->
  well_cut segments ->
  (forall k, free_of "$" (placeholder_value w uri content k)
             /\ free_of "{" (placeholder_value w uri content k)) ->
  buildPrompt w uri content type item
  = Ok (fill (placeholder_value w uri content) segments).
Proof.
  intros Htemplate Hcut Hplain. unfold buildPrompt. rewrite Htemplate. f_equal.
  unfold replace_placeholders, JsString.replace_all.
  change "{{FILE_CONTENT}}" with (placeholder_text FILE_CONTENT).
  change "{{FILE_PATH}}" with (placeholder_text FILE_PATH).
  change "{{FILE_NAME}}" with (placeholder_text FILE_NAME).
  change "{{WORKSPACE_PATH}}" with (placeholder_text WORKSPACE_PATH).
  pose proof (Hplain FILE_CONTENT) as [Hc1 Hc2].
  pose proof (Hplain FILE_PATH) as [Hp1 Hp2].
  pose proof (Hplain FILE_NAME) as [Hn1 Hn2].
  pose proof (Hplain WORKSPACE_PATH) as [Hw1 Hw2].
  simpl in Hc1, Hc2, Hp1, Hp2, Hn1, Hn2, Hw1, Hw2.
  rewrite (replace_fills_one FILE_CONTENT content segments "" Hc1 Hcut).
  rewrite (replace_fills_one FILE_PATH (fsPath uri) _ "" Hp1)
    by (by apply fill_one_well_cut).
  rewrite (replace_fills_one FILE_NAME (JsPath.basename (fsPath uri)) _ "" Hn1)
    by (by repeat apply fill_one_well_cut).
  rewrite (replace_fills_one WORKSPACE_PATH (str_or (workspaceFolder w) "") _ "" Hw1)
    by (by repeat apply fill_one_well_cut).
  apply (fill_all (placeholder_value w uri content)).
Qed.

Lemma buildPrompt_fills_plain_templates_witness :
  buildPrompt (demo_world []) {| fsPath := "/x/y/report.txt" |} "hi" KPrompt demo_prompt
  = Ok "A:report.txt B:hi".
Proof.
  apply (buildPrompt_fills_plain_templates (demo_world []) {| fsPath := "/x/y/report.txt" |}
           "hi" KPrompt demo_prompt
           [Text "A:"; Hole FILE_NAME; Text " B:"; Hole FILE_CONTENT]).
  - reflexivity.
  - unfold well_cut, free_of. simpl. repeat constructor; done.
  - intros k. unfold free_of. destruct k; vm_compute; split; repeat constructor; done.
Defined.

(** ** What the backends put in a result *)

Lemma selectModel_keeps_kind w p log p' selected :
  selectModel w p = (log, p', selected) ->
  LLMProvider.provider p' = LLMProvider.provider p
  /\ LLMProvider.ollamaEndpoint p' = LLMProvider.ollamaEndpoint p.
Proof.
  unfold selectModel, getAvailableModels.
  destruct (match LLMProvider.availableModels p with
            | [] => refreshAvailableModels w p
            | _ :: _ => ([], p)
            end) as [log0 p0] eqn:Hget.
  assert (LLMProvider.provider p0 = LLMProvider.provider p
          /\ LLMProvider.ollamaEndpoint p0 = LLMProvider.ollamaEndpoint p) as Hkept.
  { destruct (LLMProvider.availableModels p); [|by injection Hget as <- <-].
    unfold refreshAvailableModels in Hget. destruct (LLMProvider.provider p) eqn:Hkind.
    - destruct (lm_selectChatModels w _); by injection Hget as <- <-.
    - destruct (axios_get_tags w _) as [[names|]|]; by injection Hget as <- <-.
    - by injection Hget as <- <-. }
  destruct (LLMProvider.availableModels p0) as [|m [|m' models]];
    by intros [= <- <- <-].
Qed.

(** On the VS Code backend the name of the selected model is not used:
    only whether there is one. *)
Lemma vscode_lm_item_outcome w p type item model other uri :
  LLMProvider.provider p = VscodeLm -> model <> "" -> other <> "" ->
  item_outcome w p type item model uri = item_outcome w p type item other uri
  /\ ProcessingResult.tokens (item_outcome w p type item model uri) = None.
Proof.
  intros Hkind Hmodel Hother. unfold item_outcome.
  rewrite !processItem_value, !processItem_try_eq.
  destruct (snd (getFileContent w uri)) as [content|e]; [|done].
  destruct (buildPrompt w uri content type item) as [prompt|e]; [|done].
  unfold sendRequest. rewrite Hkind.
  unfold sendVSCodeLMRequest, item_request. simpl.
  assert (Htruthy : forall m, m <> "" -> negb (bool_decide (m = "")) = true)
    by (intros m Hm; by case_bool_decide).
  rewrite !Htruthy by done.
  destruct (lm_selectChatModels w _) as [[|first models]|e]; [done| |done].
  by destruct (lm_sendRequest w first prompt).
Qed.

(** X25: a run on the VS Code language model backend does not depend on
    which model was selected, and counts no tokens.  Each result is what
    any other non-empty model name would have given for its target - the
    request goes to the first model the editor offers - no result carries
    a token count, and [totalTokens] is 0. *)
Theorem vscode_lm_runs_ignore_the_selected_model w this uris type item batchSize
    log this' summary :
  LLMProvider.provider (BatchProcessor.llmProvider this) = VscodeLm ->
  isCurrentlyProcessing this = false ->
  process w this uris type item batchSize = (log, this', Returned summary) ->
  BatchResult.totalTokens summary = 0
  /\ Forall (fun r =>
               ProcessingResult.tokens r = None
               /\ forall other,
                    other <> "" ->
                    r = item_outcome w (BatchProcessor.llmProvider this') type item other
                          (ProcessingResult.uri r))
       (BatchResult.results summary).
Proof.
  intros Hkind Hidle Hrun.
  destruct (process_returned_loop _ _ _ _ _ _ _ _ _ Hidle Hrun)
    as (log0 & log1 & provider & model & batches & this1 & log2 & this2 & l & log3
        & Hsel & Hmodel & _ & _ & _ & _ & _ & _ & _ & _ & Hp).
  destruct (selectModel_keeps_kind _ _ _ _ _ Hsel) as [Hkept _]. rewrite Hkind in Hkept.
  destruct (process_item_effects _ _ _ _ _ _ _ _ _ Hidle Hrun)
    as (log1' & provider' & model' & us & Hsel' & Hres & _).
  rewrite Hsel in Hsel'. injection Hsel' as <- <- <-.
  destruct (process_summary_figures _ _ _ _ _ _ _ _ _ Hidle Hrun)
    as (_ & _ & _ & _ & ->).
  rewrite Hres, Hp. clear Hres. split.
  - induction us as [|u us IH]; [done|]. simpl. rewrite IH.
    by rewrite (proj2 (vscode_lm_item_outcome w provider type item model model u
                         Hkept Hmodel Hmodel)).
  - apply Forall_fmap, Forall_forall. intros u _. simpl. split.
    + apply (vscode_lm_item_outcome w provider type item model model u); done.
    + intros other Hother. rewrite item_outcome_uri.
      by apply vscode_lm_item_outcome.
Qed.

Lemma vscode_lm_runs_ignore_the_selected_model_witness :
  exists log this' summary,
    process (demo_world ["gpt"]) (demo_engine false) demo_targets KPrompt demo_prompt 2
    = (log, this', Returned summary)
    /\ BatchResult.totalTokens summary = 0.
Proof.
  destruct (process (demo_world ["gpt"]) (demo_engine false) demo_targets KPrompt
              demo_prompt 2) as [[log this'] outcome] eqn:Hrun.
  assert (exists summary, outcome = Returned summary) as (summary & ->).
  { vm_compute in Hrun. injection Hrun as <- <- <-. by eexists. }
  destruct (vscode_lm_runs_ignore_the_selected_model (demo_world ["gpt"])
              (demo_engine false) demo_targets KPrompt demo_prompt 2 log this' summary
              eq_refl eq_refl Hrun) as [Htokens _].
  by exists log, this', summary.
Defined.




(** ** The batch size dialog *)

Lemma ceil_div_Z (n b : nat) :
  (1 <= b)%nat -> - ((- Z.of_nat n) `div` Z.of_nat b) = Z.of_nat (ceil_div n b).
Proof.
  intros Hb. unfold ceil_div.
  pose proof (Nat.div_mod_eq (n + b - 1) b) as Hdm.
  pose proof (Nat.mod_upper_bound (n + b - 1) b ltac:(lia)) as Hmod.
  set (q := ((n + b - 1) / b)%nat) in *.
  symmetry. apply Z.opp_inj. rewrite Z.opp_involutive.
  apply (Z.div_unique_pos (- Z.of_nat n) (Z.of_nat b) (- Z.of_nat q)
           (Z.of_nat (q * b - n))); nia.
Qed.

(** X27: a batch size that the dialog accepts keeps batching finite.  An
    input passes [validateInput] exactly when [parseInt] reads from it a
    number from 1 to 50 (so "5 files" passes as 5, and "0x10" as 16); the
    batch size handed to [process] is then that number, for which
    [createBatches] ends, and the number of requests announced is the
    number of batches, not of backend requests. *)
Theorem accepted_batch_sizes_keep_batching_finite (text : string) :
  (validateInput text = None <-> exists b, parseInt text = Some b /\ 1 <= b <= 50)
  /\ (validateInput text = None ->
      exists b,
        parseInt text = Some b /\ 1 <= b <= 50
        /\ forall uris : list Uri,
             exists batches,
               createBatches uris b = Some batches
               /\ estimatedRequests (length uris) b = Some (Z.of_nat (length batches))).
Proof.
  assert (Hiff : validateInput text = None
                 <-> exists b, parseInt text = Some b /\ 1 <= b <= 50).
  { unfold validateInput. destruct (parseInt text) as [num|].
    - destruct ((num <? 1) || (50 <? num)) eqn:Hrange.
      + split; [done|]. intros (b & [= <-] & Hb).
        apply orb_true_iff in Hrange as [?%Z.ltb_lt|?%Z.ltb_lt]; lia.
      + split; [|done]. intros _. exists num. split; [done|].
        apply orb_false_iff in Hrange as [?%Z.ltb_ge ?%Z.ltb_ge]. lia.
    - split; [done|]. by intros (b & [=] & _). }
  split; [exact Hiff|].
  intros (b & Hparse & Hb)%Hiff. exists b. split; [done|]. split; [done|].
  intros uris.
  exists (map (window (Z.to_nat b) uris) (seq 0 (ceil_div (length uris) (Z.to_nat b)))).
  split.
  - rewrite <- (Z2Nat.id b) at 1 by lia. apply createBatches_windows. lia.
  - unfold estimatedRequests. rewrite decide_False by lia.
    rewrite length_map, length_seq. f_equal.
    rewrite <- (Z2Nat.id b) at 1 by lia. apply ceil_div_Z. lia.
Qed.

Lemma accepted_batch_sizes_keep_batching_finite_witness :
  parseInt "5 files" = Some 5
  /\ validateInput " 0x10" = None
  /\ validateInput "51" = Some "Batch size must be between 1 and 50"
  /\ exists batches,
       createBatches demo_targets 5 = Some batches
       /\ estimatedRequests (length demo_targets) 5 = Some (Z.of_nat (length batches)).
Proof.
  destruct (accepted_batch_sizes_keep_batching_finite "5 files") as [_ Hfinite].
  destruct (Hfinite eq_refl) as (b & Hparse & _ & Hbatches).
  assert (b = 5) as -> by (vm_compute in Hparse; by injection Hparse).
  split; [done|]. split; [done|]. split; [done|]. apply Hbatches.
Defined.

(** ** Prompt files *)

Lemma list_ascii_append (s t : string) :
  String.list_ascii_of_string (s +:+ t)
  = String.list_ascii_of_string s ++ String.list_ascii_of_string t.
Proof.
  induction s as [|c s IH]; [done|]. rewrite append_cons. simpl. by rewrite IH.
Qed.

Lemma length_append (s t : string) :
  String.length (s +:+ t) = (String.length s + String.length t)%nat.
Proof. induction s as [|c s IH]; [done|]. rewrite append_cons. simpl. by rewrite IH. Qed.

Lemma length_list_ascii (s : string) :
  length (String.list_ascii_of_string s) = String.length s.
Proof. induction s as [|c s IH]; [done|]. simpl. by rewrite IH. Qed.

Lemma substring_whole (s : string) : String.substring 0 (String.length s) s = s.
Proof. induction s as [|c s IH]; [done|]. simpl. by rewrite IH. Qed.

Lemma substring_start (s t : string) :
  String.substring 0 (String.length s) (s +:+ t) = s.
Proof.
  induction s as [|c s IH]; [by destruct t|]. rewrite append_cons. simpl. by rewrite IH.
Qed.

Lemma substring_skip (a s : string) (n : nat) :
  String.substring (String.length a) n (a +:+ s) = String.substring 0 n s.
Proof.
  induction a as [|c a IH]; [done|]. rewrite append_cons. simpl. exact IH.
Qed.

(** The loop of [basename] leaves its variables alone over characters
    that are no separator, once the suffix is dealt with. *)
Lemma basename_loop_component suffix chars st :
  Forall (fun c => c <> "/"%char) chars ->
  is_Some (bs_firstNonSlashEnd st) -> bs_extIdx st = None ->
  basename_loop suffix chars st = st.
Proof.
  intros Hchars [fnse Hfnse] Hext. induction Hchars as [|c chars Hc _ IH]; [done|].
  simpl. unfold JsPath.is_slash. rewrite bool_decide_eq_false_2 by done.
  rewrite Hfnse, Hext. exact IH.
Qed.

(** One turn of that loop on a character of the suffix that is looked
    for. *)
Lemma basename_loop_match suffix code rest st k :
  code <> "/"%char -> bs_extIdx st = Some k -> suffix !! k = Some code ->
  basename_loop suffix (code :: rest) st
  = basename_loop suffix rest
      {| bs_start := bs_start st;
         bs_end := match k with O => Some (length rest) | S _ => bs_end st end;
         bs_matchedSlash :=
           match bs_firstNonSlashEnd st with
           | None => false
           | Some _ => bs_matchedSlash st
           end;
         bs_extIdx := match k with O => None | S k' => Some k' end;
         bs_firstNonSlashEnd :=
           Some (default (S (length rest)) (bs_firstNonSlashEnd st)) |}.
Proof.
  intros Hcode Hext Hk. cbn [basename_loop]. unfold JsPath.is_slash.
  rewrite bool_decide_eq_false_2 by done.
  destruct st as [start end_ matched ext [fnse|]]; cbn in Hext |- *; subst ext;
    (rewrite decide_True by done); by destruct k.
Qed.

(** The name of a prompt file is what stands before [.prompt.md]. *)
Lemma basename_ext_prompt (name : string) :
  name <> "" -> free_of "/" name ->
  basename_ext (name +:+ ".prompt.md") ".prompt.md" = name.
Proof.
  intros Hne Hname. unfold basename_ext.
  rewrite length_append.
  change (negb (bool_decide (".prompt.md" = ""))) with true. cbn [andb].
  replace (String.length ".prompt.md" <=? String.length name + String.length ".prompt.md")%nat
    with true by (symmetry; apply Nat.leb_le; lia).
  rewrite decide_False.
  2:{ intros Heq. apply (f_equal String.length) in Heq. rewrite length_append in Heq.
      destruct name; [done|]. simpl in Heq. lia. }
  rewrite list_ascii_append, rev_app_distr.
  change (rev (String.list_ascii_of_string ".prompt.md"))
    with (String.list_ascii_of_string "dm.tpmorp.").
  assert (Hrev : Forall (fun c => c <> "/"%char) (rev (String.list_ascii_of_string name)))
    by (by apply Forall_rev).
  set (chars := rev (String.list_ascii_of_string name)) in *.
  assert (Hlen : length chars = String.length name)
    by (unfold chars; by rewrite length_rev, length_list_ascii).
  change (String.length ".prompt.md" - 1)%nat with 9%nat.
  set (suffix := String.list_ascii_of_string ".prompt.md").
  change (String.list_ascii_of_string "dm.tpmorp." ++ chars)
    with ("d" :: "m" :: "." :: "t" :: "p" :: "m" :: "o" :: "r" :: "p" :: "." :: chars)%char.
  do 10 (erewrite basename_loop_match; [|done|reflexivity|reflexivity];
         cbn [bs_start bs_end bs_matchedSlash bs_extIdx bs_firstNonSlashEnd default]).
  rewrite basename_loop_component; [|done|by eexists|done].
  cbn [bs_start bs_end bs_matchedSlash bs_extIdx bs_firstNonSlashEnd default].
  rewrite Hlen.
  rewrite decide_False by (destruct name; [done|simpl; by intros [=]]).
  rewrite Nat.sub_0_r. apply substring_start.
Qed.

Lemma string_of_list_ascii_inv (s : string) :
  String.string_of_list_ascii (String.list_ascii_of_string s) = s.
Proof. induction s as [|c s IH]; [done|]. simpl. by rewrite IH. Qed.

Lemma drop_while_app_space (l : list ascii) (c : ascii) :
  is_js_space c = true ->
  JsPath.drop_while is_js_space (rev (JsPath.drop_while is_js_space (l ++ [c])))
  = JsPath.drop_while is_js_space (rev (JsPath.drop_while is_js_space l)).
Proof.
  intros Hc. induction l as [|d l IH]; simpl.
  - by rewrite Hc.
  - destruct (is_js_space d); [exact IH|].
    change (d :: l ++ [c]) with ((d :: l) ++ [c]).
    rewrite rev_unit. cbn [JsPath.drop_while]. by rewrite Hc.
Qed.

Lemma trim_leading (c : ascii) (s : string) :
  is_js_space c = true -> trim (String c s) = trim s.
Proof. intros Hc. unfold trim. simpl. by rewrite Hc. Qed.

Lemma trim_trailing (s : string) (c : ascii) :
  is_js_space c = true -> trim (s +:+ String c "") = trim s.
Proof.
  intros Hc. unfold trim. rewrite list_ascii_append. simpl.
  by rewrite drop_while_app_space.
Qed.

Lemma trim_tidy (s : string) : tidy s -> trim s = s.
Proof.
  intros [Hfirst Hlast]. unfold trim.
  destruct (String.list_ascii_of_string s) as [|c l] eqn:Hl; [done|].
  simpl JsPath.drop_while at 2. rewrite Hfirst.
  destruct (rev (c :: l)) as [|d l'] eqn:Hrev; [done|].
  simpl. rewrite Hlast, <- Hrev, rev_involutive, <- Hl.
  apply string_of_list_ascii_inv.
Qed.

Lemma tidy_after (a s : string) :
  a <> "" ->
  match String.list_ascii_of_string a with
  | c :: _ => is_js_space c = false
  | [] => True
  end ->
  tidy s -> tidy (a +:+ s).
Proof.
  intros Ha Hfirst [_ Hlast]. unfold tidy.
  rewrite list_ascii_append, rev_app_distr. split.
  - destruct a as [|c a]; [done|]. exact Hfirst.
  - destruct (rev (String.list_ascii_of_string s)) as [|c l]; [done|]. exact Hlast.
Qed.

(** Without a dash before it, the first [---] is found where it stands. *)
Lemma indexOf_scan_dashes (x rest : string) (from i : nat) :
  free_of "-" x -> (from <= i + String.length x)%nat ->
  indexOf_scan "---" (x +:+ "---" +:+ rest) from i = Some (i + String.length x)%nat.
Proof.
  revert i. induction x as [|c x IH]; intros i Hx Hfrom.
  - rewrite append_empty_l. destruct rest; simpl in *;
      (replace (from <=? i)%nat with true by (symmetry; apply Nat.leb_le; lia));
      simpl; f_equal; lia.
  - apply Forall_cons in Hx as [Hc Hx]. rewrite append_cons.
    cbn [indexOf_scan String.prefix].
    destruct (ascii_dec "-" c) as [<-|_]; [done|]. rewrite andb_false_r.
    rewrite IH by (simpl in *; (done || lia)). simpl. f_equal. lia.
Qed.

Lemma split_on_line (sep : ascii) (s : string) :
  free_of sep s -> split_on sep s = [s].
Proof.
  induction s as [|c s IH]; [done|]. intros [Hc Hs]%Forall_cons. simpl.
  rewrite decide_False by done. by rewrite (IH Hs).
Qed.

(** The line that a description makes in the front matter. *)
Lemma parse_line_description (description : string) :
  tidy description ->
  parse_line ("description: " +:+ description)
  = Some ("description", MetaText description).
Proof.
  intros Htidy. unfold parse_line.
  change (indexOf ("description: " +:+ description) ":" 0) with (Some 11%nat).
  cbn iota beta.
  assert (substring ("description: " +:+ description) 0 11 = "description") as ->.
  { unfold substring. rewrite length_append. simpl String.length.
    rewrite Nat.min_0_l, (Nat.min_l 11) by lia. by simpl. }
  assert (substring ("description: " +:+ description) (11 + 1)
            (String.length ("description: " +:+ description))
          = " " +:+ description) as ->.
  { unfold substring. rewrite length_append. simpl String.length.
    change (11 + 1)%nat with 12%nat.
    rewrite (Nat.min_l 12), Nat.min_id, (Nat.min_l 12), Nat.max_r by lia.
    replace (13 + String.length description - 12)%nat
      with (String.length (" " +:+ description)) by (rewrite length_append; simpl; lia).
    change ("description: " +:+ description)
      with ("description:" +:+ (" " +:+ description)).
    change 12%nat with (String.length "description:") at 1.
    by rewrite substring_skip, substring_whole. }
  change (trim "description") with "description".
  rewrite !bool_decide_eq_false_2 by done. cbn [orb].
  change (" " +:+ description) with (String " " description).
  by rewrite trim_leading, trim_tidy.
Qed.

Lemma substring_middle (a b c : string) :
  substring (a +:+ b +:+ c) (String.length a) (String.length a + String.length b) = b.
Proof.
  unfold substring. rewrite !length_append.
  rewrite (Nat.min_l (String.length a)) by lia.
  rewrite (Nat.min_l (String.length a + String.length b)) by lia.
  rewrite Nat.min_l, Nat.max_r by lia.
  replace (String.length a + String.length b - String.length a)%nat
    with (String.length b) by lia.
  by rewrite substring_skip, substring_start.
Qed.

Lemma substring_rest (a b : string) :
  substring (a +:+ b) (String.length a) (String.length (a +:+ b)) = b.
Proof.
  unfold substring. rewrite !length_append.
  rewrite (Nat.min_l (String.length a)) by lia.
  rewrite Nat.min_id, Nat.min_l, Nat.max_r by lia.
  replace (String.length a + String.length b - String.length a)%nat
    with (String.length b) by lia.
  by rewrite substring_skip, substring_whole.
Qed.

(** X28: a prompt file is read as it was written.  For a file
    [<name>.prompt.md] (a name that is not empty and has no [/]) holding a
    front matter with one tidy description line (no white space at its
    ends, no line break, no dash) and then a body, [parsePrompt] gives the
    name, the description, the body without the white space around it
    and the description as the only metadata; and a text that does not
    start with [---] is the content as it is, white space included,
    without a description or metadata. *)
Theorem parsePrompt_reads_what_was_written name description body text filePath :
  name <> "" -> free_of "/" name ->
  tidy description -> free_of (ascii_of_nat 10) description -> free_of "-" description ->
  String.prefix "---" text = false ->
  parsePrompt (name +:+ ".prompt.md")
    ("---" +:+ JsString.nl +:+ "description: " +:+ description +:+ JsString.nl
     +:+ "---" +:+ JsString.nl +:+ body) filePath
  = (Prompt.mk name (trim body) (Some description) filePath,
     [("description", MetaText description)])
  /\ parsePrompt (name +:+ ".prompt.md") text filePath
     = (Prompt.mk name text None filePath, []).
Proof.
  intros Hne Hname Htidy Hline Hdash Hplain. unfold parsePrompt.
  rewrite (basename_ext_prompt name Hne Hname), Hplain. split; [|done].
  pose (x := JsString.nl +:+ "description: " +:+ description +:+ JsString.nl).
  pose (rest := JsString.nl +:+ body).
  assert (Hcontent : "---" +:+ JsString.nl +:+ "description: " +:+ description
                     +:+ JsString.nl +:+ "---" +:+ JsString.nl +:+ body
                     = "---" +:+ x +:+ "---" +:+ rest)
    by (unfold x, rest; by rewrite !append_assoc).
  rewrite Hcontent, prefix_append.
  assert (Hx : free_of "-" x).
  { unfold x, free_of. rewrite !list_ascii_append.
    apply Forall_app. split; [by repeat constructor|].
    apply Forall_app. split; [by repeat constructor|].
    apply Forall_app. split; [exact Hdash|by repeat constructor]. }
  assert (indexOf ("---" +:+ x +:+ "---" +:+ rest) "---" 3
          = Some (3 + String.length x)%nat) as ->.
  { unfold indexOf. rewrite !append_cons, append_empty_l.
    cbn [indexOf_scan Nat.leb andb]. apply indexOf_scan_dashes; [done|lia]. }
  assert (substring ("---" +:+ x +:+ "---" +:+ rest) 3 (3 + String.length x) = x) as ->
    by apply (substring_middle "---" x ("---" +:+ rest)).
  assert (substring ("---" +:+ x +:+ "---" +:+ rest) (3 + String.length x + 3)
            (String.length ("---" +:+ x +:+ "---" +:+ rest)) = rest) as ->.
  { replace (3 + String.length x + 3)%nat with (String.length ("---" +:+ x +:+ "---"))
      by (rewrite !length_append; simpl; lia).
    replace ("---" +:+ x +:+ "---" +:+ rest) with (("---" +:+ x +:+ "---") +:+ rest)
      by (by rewrite !append_assoc).
    apply substring_rest. }
  assert (trim x = "description: " +:+ description) as ->.
  { unfold x, JsString.nl. rewrite append_cons, append_empty_l, trim_leading by done.
    rewrite <- append_assoc, trim_trailing by done.
    apply trim_tidy, tidy_after; done. }
  assert (parse_frontmatter ("description: " +:+ description)
          = [("description", MetaText description)]) as ->.
  { unfold parse_frontmatter. rewrite split_on_line.
    - cbn [omap list_omap]. by rewrite parse_line_description.
    - unfold free_of. rewrite list_ascii_append. apply Forall_app. split; [|done].
      by repeat constructor. }
  unfold rest, JsString.nl. rewrite append_cons, append_empty_l, trim_leading by done.
  done.
Qed.

Lemma parsePrompt_reads_what_was_written_witness :
  parsePrompt "code-review.prompt.md"
    ("---" +:+ JsString.nl +:+ "description: " +:+ "Comprehensive code review"
     +:+ JsString.nl +:+ "---" +:+ JsString.nl +:+ JsString.nl
     +:+ "Review {{FILE_CONTENT}}") "/ws/.vscode/prompts/code-review.prompt.md"
  = (Prompt.mk "code-review" "Review {{FILE_CONTENT}}" (Some "Comprehensive code review")
       "/ws/.vscode/prompts/code-review.prompt.md",
     [("description", MetaText "Comprehensive code review")]).
Proof.
  destruct (parsePrompt_reads_what_was_written "code-review" "Comprehensive code review"
              (JsString.nl +:+ "Review {{FILE_CONTENT}}") "plain"
              "/ws/.vscode/prompts/code-review.prompt.md") as [Hread _].
  - done.
  - unfold free_of. simpl. repeat constructor; done.
  - split; reflexivity.
  - unfold free_of. simpl. repeat constructor; done.
  - unfold free_of. simpl. repeat constructor; done.
  - reflexivity.
  - exact Hread.
Defined.

(** ** Files for the chat command *)

Lemma same_uri_eq (a b : Uri) : same_uri a b = true <-> a = b.
Proof.
  unfold same_uri. destruct a as [pa], b as [pb]. simpl. case_bool_decide; split; try done.
  - by intros _; subst.
  - by intros [= ->].
Qed.

Lemma existsb_same_uri (uri : Uri) (seen : list Uri) :
  existsb (same_uri uri) seen = true <-> In uri seen.
Proof.
  rewrite existsb_exists. split.
  - intros (x & Hin & Heq). apply same_uri_eq in Heq. by subst.
  - intros Hin. exists uri. split; [done|]. by apply same_uri_eq.
Qed.

Lemma first_occurrences_spec (seen uris : list Uri) :
  NoDup (first_occurrences seen uris)
  /\ (forall u, In u (first_occurrences seen uris) <-> In u uris /\ ~ In u seen)
  /\ sublist (first_occurrences seen uris) uris.
Proof.
  revert seen. induction uris as [|uri uris IH]; intros seen; simpl.
  - split; [constructor|]. split; [tauto|constructor].
  - destruct (existsb (same_uri uri) seen) eqn:Hseen.
    + apply existsb_same_uri in Hseen. destruct (IH seen) as (Hnodup & Hin & Hsub).
      split; [done|]. split; [|by constructor].
      intros u. rewrite Hin. split; [tauto|]. intros [[->|Hu] Hnot]; [done|tauto].
    + destruct (IH (uri :: seen)) as (Hnodup & Hin & Hsub).
      assert (Hnew : ~ In uri seen).
      { intros Hold. apply existsb_same_uri in Hold. congruence. }
      split; [|split; [|by constructor]].
      * constructor; [|done]. rewrite list_elem_of_In, Hin. simpl. tauto.
      * intros u. simpl. rewrite Hin. simpl. split.
        -- intros [<-|[Hu Hnot]]; [tauto|]. tauto.
        -- intros [[<-|Hu] Hnot]; [tauto|].
           destruct (same_uri uri u) eqn:Hsame.
           ++ apply same_uri_eq in Hsame. tauto.
           ++ right. split; [done|]. intros [Heq|Hold]; [|done].
              apply same_uri_eq in Heq. congruence.
Qed.

Lemma first_occurrences_nodup (seen uris : list Uri) :
  NoDup uris -> (forall u, In u uris -> ~ In u seen) ->
  first_occurrences seen uris = uris.
Proof.
  revert seen. induction uris as [|uri uris IH]; intros seen Hnodup Hfresh; [done|].
  simpl. apply NoDup_cons in Hnodup as [Hhead Hnodup].
  destruct (existsb (same_uri uri) seen) eqn:Hseen.
  - apply existsb_same_uri in Hseen. destruct (Hfresh uri); [by left|done].
  - f_equal. apply IH; [done|]. intros u Hu [<-|Hold].
    + by apply Hhead, list_elem_of_In.
    + apply (Hfresh u); [by right|done].
Qed.

Lemma chat_find_eq w patterns uris :
  chat_find w patterns uris
  = (omap (fun pattern =>
             match findFiles w (VString pattern) with
             | Throw _ =>
                 Some (ConsoleError ("Error finding files for pattern " +:+ pattern +:+ ":"))
             | Ok _ => None
             end) patterns,
     uris ++ concat (omap (fun pattern =>
                             match findFiles w (VString pattern) with
                             | Ok files => Some files
                             | Throw _ => None
                             end) patterns)).
Proof.
  revert uris. induction patterns as [|pattern rest IH]; intros uris; simpl.
  - by rewrite app_nil_r.
  - destruct (findFiles w (VString pattern)) as [files|e].
    + rewrite IH. simpl. by rewrite app_assoc.
    + by rewrite IH.
Qed.

Lemma find_files_found w patterns acc all :
  find_files w (map VString patterns) acc = Ok all ->
  Forall (fun pattern => exists files, findFiles w (VString pattern) = Ok files) patterns
  /\ all = acc ++ concat (omap (fun pattern =>
                                  match findFiles w (VString pattern) with
                                  | Ok files => Some files
                                  | Throw _ => None
                                  end) patterns).
Proof.
  revert acc. induction patterns as [|pattern rest IH]; intros acc; simpl.
  - intros [= <-]. split; [constructor|by rewrite app_nil_r].
  - destruct (findFiles w (VString pattern)) as [files|e] eqn:Hfind; [|done].
    intros Hrest. apply IH in Hrest as [Hall ->]. split.
    + constructor; [by exists files|done].
    + simpl. by rewrite app_assoc.
Qed.

(** X29: the chat command's file search passes over what the MCP search
    stops at.  [findFilesFromPatterns] never fails: a pattern whose
    search throws costs one console line and nothing else.  It returns
    each file once, and the files it returns are those found by the
    patterns that could be searched.  Where the MCP search succeeds, the
    chat search gives the same files without the repeats, in the same
    order. *)
Theorem chat_search_skips_failures_and_repeats w patterns :
  let '(log, uris) := findFilesFromPatterns w patterns in
  NoDup uris
  /\ (forall u,
        In u uris
        <-> exists pattern files,
              In pattern patterns
              /\ findFiles w (VString pattern) = Ok files /\ In u files)
  /\ log = omap (fun pattern =>
                   match findFiles w (VString pattern) with
                   | Throw _ =>
                       Some (ConsoleError
                               ("Error finding files for pattern " +:+ pattern +:+ ":"))
                   | Ok _ => None
                   end) patterns
  /\ (forall all,
        find_files w (map VString patterns) [] = Ok all ->
        log = [] /\ sublist uris all
        /\ (forall u, In u uris <-> In u all)
        /\ (NoDup all -> uris = all)).
Proof.
  unfold findFilesFromPatterns. rewrite chat_find_eq. simpl.
  set (found := concat _).
  destruct (first_occurrences_spec [] found) as (Hnodup & Hin & Hsub).
  split; [done|]. split; [|split; [done|]].
  - intros u. rewrite Hin. subst found. split.
    + intros [Hu _]. apply in_concat in Hu as (files & Hfiles & Hu).
      apply list_elem_of_In, list_elem_of_omap in Hfiles as (pattern & Hpattern & Hfound).
      exists pattern, files. destruct (findFiles w (VString pattern)) as [files'|e]; [|done].
      injection Hfound as ->. split; [by apply list_elem_of_In|done].
    + intros (pattern & files & Hpattern & Hfound & Hu). split; [|by intros []].
      apply in_concat. exists files. split; [|done].
      apply list_elem_of_In, list_elem_of_omap. exists pattern.
      split; [by apply list_elem_of_In|]. by rewrite Hfound.
  - intros all Hall. apply find_files_found in Hall as [Hok ->]. simpl. fold found.
    split; [|split; [done|split]].
    + clear -Hok. induction Hok as [|pattern rest [files Hfiles] _ IH]; [done|].
      simpl. by rewrite Hfiles.
    + intros u. rewrite Hin. split; [tauto|]. intros Hu. split; [done|by intros []].
    + intros Hall. apply first_occurrences_nodup; [done|]. by intros u _ [].
Qed.

(** ** The words of a chat command *)

















